(** * AirQuality-LLM-Advisor: the data pipeline, the alert classifier,
      the chat session and the batch latency runner

    A shallow embedding of [demo.py] (the Streamlit application) and
    [demo2.py] (the batch latency script).

    - A pandas DataFrame is a list of rows, each carrying its index label.
    - A float column is modelled over [Q]: every finite float is a rational
      and the comparisons the code performs ([>=], [idxmax]) are exact on
      the values, so they agree with the comparisons of the rationals.  No
      float arithmetic is modelled: the mean and the median of the batch
      summary are represented by the values they are taken over.
    - A missing cell (NaN, NaT, None) is a constructor of its own.
    - The name and id columns are text columns, as pandas reads them from
      the files of the data set (station ids such as AP001).  A file whose
      id column holds nothing but numbers is read as a numeric column;
      such a file is outside this embedding.
    - The chat endpoint, the clock and the two CSV logs are an explicit
      world that the effectful functions thread through.
    - An exception that the code catches is a branch of the function that
      catches it; one that nothing catches ends the batch script. *)

From Stdlib Require Import List String Ascii Bool Arith ZArith QArith Lia.
From Stdlib Require Import Sorting.Sorted Sorting.Permutation.
From Stdlib Require Import Structures.OrderedTypeEx.
From Stdlib Require Import DecimalString Lqa.
Import ListNotations.

Set Implicit Arguments.

Local Close Scope Q_scope.
Local Open Scope string_scope.
Local Open Scope list_scope.

(* ================================================================== *)
(** ** Comparisons on float values *)

(** [x >= y] on two numbers. *)
Definition ge_num (x y : Q) : bool := Qle_bool y x.

(* ================================================================== *)
(** ** The proactive alert tiers ([main] of demo.py, the [if]/[elif] chain) *)

Module Alert.

Inductive AlertTier : Type := GOOD | MODERATE | POOR | VERY_POOR | SEVERE.

(** The Streamlit call that renders the alert. *)
Inductive Banner : Type := st_error | st_warning | st_info | st_success.

(** The chain of comparisons on [aqi_val], first match wins. *)
Definition classify (aqi_val : Q) : AlertTier :=
  if ge_num aqi_val 401%Q then SEVERE
  else if ge_num aqi_val 301%Q then VERY_POOR
  else if ge_num aqi_val 201%Q then POOR
  else if ge_num aqi_val 101%Q then MODERATE
  else GOOD.

Definition banner (t : AlertTier) : Banner :=
  match t with
  | SEVERE => st_error
  | VERY_POOR => st_error
  | POOR => st_warning
  | MODERATE => st_info
  | GOOD => st_success
  end.

(** The opening words of [alert_message] in each branch. *)
Definition headline (t : AlertTier) : string :=
  match t with
  | SEVERE => "**SEVERE WARNING: Hazardous Air Quality in "
  | VERY_POOR => "**CRITICAL ALERT: Very Poor Air Quality in "
  | POOR => "**HIGH ALERT: Poor Air Quality in "
  | MODERATE => "**NOTICE: Moderate Air Quality in "
  | GOOD => "**Good Air Quality Check:** The worst recorded AQI is currently "
  end.

(** Severity ordering GOOD < MODERATE < POOR < VERY_POOR < SEVERE. *)
Definition rank (t : AlertTier) : nat :=
  match t with
  | GOOD => 0 | MODERATE => 1 | POOR => 2 | VERY_POOR => 3 | SEVERE => 4
  end.

Definition tier_le (a b : AlertTier) : Prop := rank a <= rank b.

End Alert.

(* ================================================================== *)
(** ** pandas: cells, frames, and the operations the loader uses *)

(** A cell of a numeric column as [read_csv] delivers it: missing, a
    number, or text that [pd.to_numeric] cannot parse.  (In a column that
    pandas read as text, a string that does parse is represented by the
    number it parses to.) *)
Inductive Cell : Type :=
| NaN
| Num (x : Q)
| Text (s : string).

(** [isna]: only the missing cell is NA; text never is. *)
Definition isna (c : Cell) : bool :=
  match c with NaN => true | _ => false end.

(** [pd.to_numeric(col, errors='coerce').fillna(0)] on one cell. *)
Definition to_numeric_fillna (c : Cell) : Q :=
  match c with
  | Num x => x
  | Text _ => 0%Q      (* coerced to NaN, then filled *)
  | NaN => 0%Q
  end.

(** A DataFrame: rows in order, each with its index label. *)
Definition Frame (R : Type) : Type := list (nat * R).

(** [pd.read_csv] gives the rows the default RangeIndex. *)
Definition read_csv (R : Type) (rows : list R) : Frame R :=
  combine (seq 0 (List.length rows)) rows.

(** [reset_index(drop=True)] followed by reading the rows off. *)
Definition reset_index (R : Type) (df : Frame R) : list R := map snd df.

(** [df.head(n)] *)
Definition head (A : Type) (n : nat) (l : list A) : list A := firstn n l.

(** [df.loc[label]] for one label of a frame with unique labels. *)
Fixpoint loc1 (R : Type) (df : Frame R) (label : nat) : option R :=
  match df with
  | [] => None
  | (i, r) :: df' => if Nat.eqb i label then Some r else loc1 df' label
  end.

(** [df.loc[labels]] for a list of labels: the rows in the order of the
    labels; a label that is not in the index raises [KeyError]. *)
Fixpoint loc (R : Type) (df : Frame R) (labels : list nat) : option (Frame R) :=
  match labels with
  | [] => Some []
  | i :: rest =>
      match loc1 df i, loc df rest with
      | Some r, Some out => Some ((i, r) :: out)
      | _, _ => None
      end
  end.

(** Equality of two cells of a text column.  For [drop_duplicates] and
    merge keys a missing value equals a missing value. *)
Definition eq_name (a b : option string) : bool :=
  match a, b with
  | Some x, Some y => String.eqb x y
  | None, None => true
  | _, _ => false
  end.

(** The element-wise [!=] of a column against one value: a missing value
    differs from everything, itself included. *)
Definition ne_name (a b : option string) : bool :=
  match a, b with
  | Some x, Some y => negb (String.eqb x y)
  | _, _ => true
  end.

(** The order [sort_values] uses on a text column: ascending, missing
    values last. *)
Definition le_name (a b : option string) : bool :=
  match a, b with
  | Some x, Some y => String.leb x y
  | _, None => true
  | None, Some _ => false
  end.

Section IdxMax.
(** [Series.idxmax()]: the label of the first occurrence of the maximum,
    missing values skipped; [None] when there is nothing to choose from
    (the call raises, or yields a missing label that [loc] rejects). *)
Variable V : Type.
Variable ltb : V -> V -> bool.

Fixpoint argmax (s : list (nat * option V)) : option (nat * V) :=
  match s with
  | [] => None
  | (i, None) :: s' => argmax s'
  | (i, Some v) :: s' =>
      match argmax s' with
      | Some (j, w) => if ltb v w then Some (j, w) else Some (i, v)
      | None => Some (i, v)
      end
  end.

Definition idxmax (s : list (nat * option V)) : option nat :=
  option_map fst (argmax s).
End IdxMax.

Section SortValues.
(** [df.sort_values(by=col)]: ascending, missing values last.  pandas'
    default sort does not promise an order among rows of equal key; the
    insertion sort here keeps them in their original order.  On a column
    without repeated values, such as the cities of a latest table, every
    sorting algorithm returns this list. *)
Variable R : Type.
Variable by_col : R -> option string.

Fixpoint insert_row (x : nat * R) (l : Frame R) : Frame R :=
  match l with
  | [] => [x]
  | y :: l' =>
      if le_name (by_col (snd x)) (by_col (snd y)) then x :: l
      else y :: insert_row x l'
  end.

Fixpoint sort_values (df : Frame R) : Frame R :=
  match df with
  | [] => []
  | x :: df' => insert_row x (sort_values df')
  end.

(** [df.drop_duplicates(subset=[col])]: the first row of each value is
    kept. *)
Fixpoint drop_duplicates_from (seen : list (option string)) (df : Frame R) : Frame R :=
  match df with
  | [] => []
  | x :: df' =>
      if existsb (eq_name (by_col (snd x))) seen then drop_duplicates_from seen df'
      else x :: drop_duplicates_from (by_col (snd x) :: seen) df'
  end.

Definition drop_duplicates (df : Frame R) : Frame R := drop_duplicates_from [] df.

(** [df[col].unique().tolist()]: values in order of first appearance. *)
Definition unique (df : Frame R) : list (option string) :=
  map (fun x => by_col (snd x)) (drop_duplicates df).
End SortValues.

(** Sorting a list of strings ascending (the group keys of [groupby]). *)
Fixpoint insert_key (k : string) (l : list string) : list string :=
  match l with
  | [] => [k]
  | y :: l' => if String.leb k y then k :: l else y :: insert_key k l'
  end.

Fixpoint sort_keys (l : list string) : list string :=
  match l with
  | [] => []
  | k :: l' => insert_key k (sort_keys l')
  end.

Fixpoint mem_key (k : string) (l : list string) : bool :=
  match l with
  | [] => false
  | y :: l' => String.eqb k y || mem_key k l'
  end.

Fixpoint distinct_keys (l : list string) : list string :=
  match l with
  | [] => []
  | k :: l' => if mem_key k l' then distinct_keys l' else k :: distinct_keys l'
  end.

Section GroupBy.
(** [df.groupby(key)['Date'].idxmax()]: one label per distinct non-missing
    key, the keys in ascending order; rows with a missing key belong to no
    group.  A group whose dates are all missing makes the selection fail. *)
Variable R : Type.
Variable key : R -> option string.
Variable date : R -> option Z.

Fixpoint keys_of (df : Frame R) : list string :=
  match df with
  | [] => []
  | (_, r) :: df' =>
      match key r with
      | Some k => k :: keys_of df'
      | None => keys_of df'
      end
  end.

Definition group_keys (df : Frame R) : list string :=
  sort_keys (distinct_keys (keys_of df)).

Definition in_group (k : string) (x : nat * R) : bool :=
  eq_name (key (snd x)) (Some k).

Definition group (df : Frame R) (k : string) : Frame R :=
  filter (in_group k) df.

Definition dates (g : Frame R) : list (nat * option Z) :=
  map (fun x => (fst x, date (snd x))) g.

Fixpoint idxmax_per_group (df : Frame R) (ks : list string) : option (list nat) :=
  match ks with
  | [] => Some []
  | k :: ks' =>
      match idxmax Z.ltb (dates (group df k)), idxmax_per_group df ks' with
      | Some i, Some rest => Some (i :: rest)
      | _, _ => None
      end
  end.

Definition groupby_idxmax (df : Frame R) : option (list nat) :=
  idxmax_per_group df (group_keys df).

(** [df.loc[df.groupby(key)['Date'].idxmax()]] *)
Definition latest_rows (df : Frame R) : option (Frame R) :=
  match groupby_idxmax df with
  | Some labels => loc df labels
  | None => None
  end.
End GroupBy.

(* ================================================================== *)
(** ** The tables of [load_aqi_datasets] *)

(** A row of [city_day.csv] after [pd.to_datetime(..., errors='coerce')]:
    an unparseable date is [None] (NaT). *)
Module CityDay.
Record row : Type := mk {
  City : option string;
  Date : option Z;
  AQI : Cell;
  AQI_Bucket : option string;
  PM2_5 : Cell;
  PM10 : Cell
}.
End CityDay.

(** A row of [station_day.csv], dates converted the same way; the station
    id is text. *)
Module StationDay.
Record row : Type := mk {
  StationId : option string;
  Date : option Z;
  AQI : Cell;
  AQI_Bucket : option string;
  PM2_5 : Cell;
  PM10 : Cell
}.
End StationDay.

(** A row of [stations[['StationId', 'StationName', 'City']]]; the
    station id is text, as in [station_day.csv]. *)
Module Stations.
Record row : Type := mk {
  StationId : option string;
  StationName : option string;
  City : option string
}.
End Stations.

(** A row of [latest_city_data]: the six selected columns, AQI numeric. *)
Module LatestCity.
Record row : Type := mk {
  City : option string;
  Date : option Z;
  AQI : Q;
  AQI_Bucket : option string;
  PM2_5 : Cell;
  PM10 : Cell
}.
End LatestCity.

(** A row of [latest_station_data]: the seven selected columns. *)
Module LatestStation.
Record row : Type := mk {
  StationName : option string;
  City : option string;
  Date : option Z;
  AQI : Q;
  AQI_Bucket : option string;
  PM2_5 : Cell;
  PM10 : Cell
}.
End LatestStation.

(** [x < y] on two numbers, the comparison behind [idxmax] on AQI. *)
Definition lt_num (x y : Q) : bool := negb (Qle_bool y x).

Module Loader.

(** *** Cities (lines 79-81) *)

Definition latest_city (city_day : Frame CityDay.row) : option (Frame CityDay.row) :=
  latest_rows CityDay.City CityDay.Date city_day.

(** [latest_city[[...]].dropna(subset=['AQI'])] *)
Definition dropna_city (df : Frame CityDay.row) : Frame CityDay.row :=
  filter (fun x => negb (isna (CityDay.AQI (snd x)))) df.

(** The column selection together with the AQI coercion of line 81. *)
Definition coerce_city (r : CityDay.row) : LatestCity.row :=
  LatestCity.mk (CityDay.City r) (CityDay.Date r)
                (to_numeric_fillna (CityDay.AQI r))
                (CityDay.AQI_Bucket r) (CityDay.PM2_5 r) (CityDay.PM10 r).

Definition latest_city_data (city_day : Frame CityDay.row)
  : option (Frame LatestCity.row) :=
  match latest_city city_day with
  | Some df => Some (map (fun x => (fst x, coerce_city (snd x))) (dropna_city df))
  | None => None
  end.

(** *** Stations (lines 84-88) *)

(** A row of the merged frame: the station-day columns plus the two
    metadata columns. *)
Record merged : Type := mk_merged {
  day : StationDay.row;
  StationName : option string;
  City : option string
}.

Definition latest_station_rows (station_day : Frame StationDay.row)
  : option (Frame StationDay.row) :=
  latest_rows StationDay.StationId StationDay.Date station_day.

(** [merge(..., on='StationId', how='left')] for one left row: one output
    row per matching metadata row, in metadata order; a row of missing
    values when nothing matches. *)
Definition merge_row (stations : Frame Stations.row) (r : StationDay.row) : list merged :=
  match filter (fun m => eq_name (Stations.StationId (snd m)) (StationDay.StationId r)) stations with
  | [] => [mk_merged r None None]
  | ms => map (fun m => mk_merged r (Stations.StationName (snd m)) (Stations.City (snd m))) ms
  end.

(** The left join keeps the order of the left rows and numbers the
    result afresh.  Both key columns are text, so the join compares
    strings and does not raise. *)
Definition merge_left (left : Frame StationDay.row) (stations : Frame Stations.row)
  : Frame merged :=
  read_csv (flat_map (fun x => merge_row stations (snd x)) left).

Definition dropna_station (df : Frame merged) : Frame merged :=
  filter (fun x => negb (isna (StationDay.AQI (day (snd x))))) df.

Definition coerce_station (m : merged) : LatestStation.row :=
  LatestStation.mk (StationName m) (City m)
                   (StationDay.Date (day m))
                   (to_numeric_fillna (StationDay.AQI (day m)))
                   (StationDay.AQI_Bucket (day m))
                   (StationDay.PM2_5 (day m)) (StationDay.PM10 (day m)).

Definition latest_station_data (station_day : Frame StationDay.row)
                               (stations : Frame Stations.row)
  : option (Frame LatestStation.row) :=
  match latest_station_rows station_day with
  | Some df =>
      Some (map (fun x => (fst x, coerce_station (snd x)))
                (dropna_station (merge_left df stations)))
  | None => None
  end.

(** *** Context sampling (lines 93-103)

    The source fixes the sizes: [head(9)] after the worst city ("Max 10
    rows") and [head(15)] for the stations.  Both samplers take the size
    as [cap]; the loader instantiates them at 10 and 15. *)

Definition AQI_column (t : Frame LatestCity.row) : list (nat * option Q) :=
  map (fun x => (fst x, Some (LatestCity.AQI (snd x)))) t.

(** [latest_city_data.loc[latest_city_data['AQI'].idxmax()]]; raises on an
    empty table. *)
Definition worst_city_row (t : Frame LatestCity.row) : option (nat * LatestCity.row) :=
  match idxmax lt_num (AQI_column t) with
  | Some i =>
      match loc1 t i with
      | Some r => Some (i, r)
      | None => None
      end
  | None => None
  end.

Definition sample_cities (cap : nat) (t : Frame LatestCity.row)
                         (worst : LatestCity.row) : Frame LatestCity.row :=
  head (cap - 1)
       (sort_values LatestCity.City
          (filter (fun x => ne_name (LatestCity.City (snd x)) (LatestCity.City worst)) t)).

Definition context_cities_df (cap : nat) (t : Frame LatestCity.row)
  : option (list LatestCity.row) :=
  match worst_city_row t with
  | Some w =>
      Some (reset_index
              (drop_duplicates LatestCity.City (w :: sample_cities cap t (snd w))))
  | None => None
  end.

Definition context_stations_df (cap : nat) (t : Frame LatestStation.row)
  : list LatestStation.row :=
  reset_index (head cap (sort_values LatestStation.StationName t)).

(** *** The loader *)

Record loaded : Type := mk_loaded {
  city_context : list LatestCity.row;        (* rendered by [to_markdown] *)
  station_context : list LatestStation.row;  (* rendered by [to_markdown] *)
  latest_city_df : Frame LatestCity.row;
  latest_station_df : Frame LatestStation.row;
  cities : list (option string);
  stations : list (option string)
}.

Definition CITY_CAP : nat := 10.
Definition STATION_CAP : nat := 15.

(** [None] is the [except Exception] branch: an error is shown and the
    caller receives empty tables. *)
Definition load_aqi_datasets (city_day : list CityDay.row)
                             (station_day : list StationDay.row)
                             (stations_csv : list Stations.row) : option loaded :=
  match latest_city_data (read_csv city_day) with
  | None => None
  | Some lc =>
      match latest_station_data (read_csv station_day) (read_csv stations_csv) with
      | None => None
      | Some ls =>
          match context_cities_df CITY_CAP lc with
          | None => None
          | Some cc =>
              Some (mk_loaded cc (context_stations_df STATION_CAP ls) lc ls
                              (unique LatestCity.City lc)
                              (unique LatestStation.StationName ls))
          end
      end
  end.

End Loader.

(* ================================================================== *)
(** ** The hosted chat endpoint, the clock and the files *)

Module Groq.

(** The attribute [total_time] of a usage object, as [hasattr] and the
    attribute access see it: the object has no such attribute, the
    attribute holds [None] (nothing was reported), or it holds a number
    of seconds. *)
Inductive Attribute : Type :=
| no_attribute
| holds_None
| seconds (t : Q).

(** [chat_completion.usage]. *)
Record CompletionUsage : Type := mk_usage {
  total_time : Attribute
}.

Record ChatCompletion : Type := mk_completion {
  content : string;                      (* choices[0].message.content *)
  usage : option CompletionUsage
}.

(** What one pass through the [try] block around
    [client.chat.completions.create] meets: an exception with its
    description [str(e)], or a completion. *)
Inductive Outcome : Type :=
| Raises (e : string)
| Returns (c : ChatCompletion).

(** The values a request carries.  The system prompt is represented by
    the values interpolated into it ([None] for the fixed prompt of the
    batch script); its fixed wording is not reproduced. *)
Record Prompt : Type := mk_prompt {
  city_context : string;
  station_context : string;
  total_cities : nat;
  cities_preview : list string;
  total_stations : nat;
  stations_preview : list string
}.

Record Request : Type := mk_request {
  model : string;
  temperature : Q;
  system_prompt : option Prompt;
  user : string
}.

End Groq.

Definition MODEL_NAME : string := "llama-3.1-8b-instant".

(** A row of [groq_performance_data.csv]. *)
Record BatchResult : Type := mk_result {
  Query_ID : nat;
  User_Query : string;
  Groq_Response_Content : string;
  Total_Response_Time_Seconds : Q;
  Status : string
}.

(** A statistic as the final summary holds it: the string N/A, or the
    float64 number that [Series.mean()] or [Series.median()] returns for
    the listed values.  The float arithmetic is pandas' own and is not
    modelled: a statistic is represented by the values it is taken over. *)
Inductive Stat : Type :=
| N_A
| Series_mean (values : list Q)
| Series_median (values : list Q).

(** What the batch script prints, one constructor per [print] call. *)
Inductive Line : Type :=
| fatal_key_not_found                    (* line 25 *)
| fatal_key_hint                         (* line 26 *)
| query_file_not_found                   (* line 104 *)
| no_queries_found                       (* line 108 *)
| starting_test (n : nat)                (* line 111 *)
| processed (i n : nat)                  (* line 122 *)
| error_for_query (user_query error_message : string)   (* line 91 *)
| rule_after_blank_line                  (* line 147 *)
| test_complete                          (* line 148 *)
| rule                                   (* line 149 *)
| total_attempted (n : nat)              (* line 150 *)
| successful_calls (n : nat)             (* line 151 *)
| mean_line (mean_trt : Stat)            (* line 152 *)
| median_line (median_trt : Stat)        (* line 153 *)
| results_saved                          (* line 154 *)
| baseline_hint.                         (* line 155 *)

(** How writing to chat_log.csv fails, with the description [str(e)] of
    the exception: [open] raises and the file is left as it was, or a
    [writerow] of the message raises once the file is open. *)
Inductive LogFailure : Type :=
| open_raises (e : string)
| write_raises (e : string).

(** Everything outside the two scripts. *)
Record World : Type := mk_world {
  GROQ_API_KEY : option string;          (* os.environ.get("GROQ_API_KEY") *)
  endpoint : nat -> Groq.Outcome;        (* what the n-th request meets *)
  local_elapsed : nat -> Q;              (* time.time() - start_time around it *)
  requests : list Groq.Request;          (* the requests sent so far *)
  now : string;                          (* datetime.now().strftime(...),
                                            one value for the whole run *)
  chat_log : option (list (list string));(* chat_log.csv, [None]: no file *)
  chat_log_error : option LogFailure;    (* how logging fails, if it does *)
  warnings : list string;                (* st.warning *)
  QUERIES_FILE : option (list string);   (* stripped non-blank lines *)
  OUTPUT_LOG_FILE : list BatchResult;    (* rows under the header *)
  stdout : list Line
}.

Definition set_requests (w : World) (x : list Groq.Request) : World :=
  mk_world (GROQ_API_KEY w) (endpoint w) (local_elapsed w) x (now w)
           (chat_log w) (chat_log_error w) (warnings w)
           (QUERIES_FILE w) (OUTPUT_LOG_FILE w) (stdout w).

Definition set_chat_log (w : World) (x : option (list (list string))) : World :=
  mk_world (GROQ_API_KEY w) (endpoint w) (local_elapsed w) (requests w) (now w)
           x (chat_log_error w) (warnings w)
           (QUERIES_FILE w) (OUTPUT_LOG_FILE w) (stdout w).

Definition set_warnings (w : World) (x : list string) : World :=
  mk_world (GROQ_API_KEY w) (endpoint w) (local_elapsed w) (requests w) (now w)
           (chat_log w) (chat_log_error w) x
           (QUERIES_FILE w) (OUTPUT_LOG_FILE w) (stdout w).

Definition set_output_log (w : World) (x : list BatchResult) : World :=
  mk_world (GROQ_API_KEY w) (endpoint w) (local_elapsed w) (requests w) (now w)
           (chat_log w) (chat_log_error w) (warnings w)
           (QUERIES_FILE w) x (stdout w).

Definition print (l : Line) (w : World) : World :=
  mk_world (GROQ_API_KEY w) (endpoint w) (local_elapsed w) (requests w) (now w)
           (chat_log w) (chat_log_error w) (warnings w)
           (QUERIES_FILE w) (OUTPUT_LOG_FILE w) (stdout w ++ [l]).

(** [client.chat.completions.create(...)]: the request goes out and meets
    the next outcome. *)
Definition create (rq : Groq.Request) (w : World) : Groq.Outcome * World :=
  (endpoint w (List.length (requests w)), set_requests w (requests w ++ [rq])).

(** [not GROQ_API_KEY]: unset, or set to the empty string. *)
Definition key_missing (k : option string) : bool :=
  match k with
  | Some (String _ _) => false
  | _ => true
  end.

(* ================================================================== *)
(** ** demo.py: the interactive chat *)

Module Chat.

Record message : Type := mk_message {
  role : string;
  content : string
}.

Definition could_not_log (e : string) : string :=
  ("Could not log message to CSV: " ++ e)%string.

(** [log_chat_message]: append a row to chat_log.csv, the header first
    when the file does not exist; a failure becomes a warning.  When
    [open] raises, the file is untouched.  When the message row cannot
    be written, the file has been opened in append mode by then, and the
    header written if the file did not exist: closing the file leaves
    the old rows, or the header alone. *)
Definition log_chat_message (role content : string) (w : World) : World :=
  let opened := match chat_log w with
                | Some rows => rows
                | None => [["Timestamp"; "Role"; "Content"]]
                end in
  match chat_log_error w with
  | Some (open_raises e) => set_warnings w (warnings w ++ [could_not_log e])
  | Some (write_raises e) =>
      set_warnings (set_chat_log w (Some opened)) (warnings w ++ [could_not_log e])
  | None => set_chat_log w (Some (opened ++ [[now w; role; content]]))
  end.

Definition KEY_NOT_FOUND : string :=
  "⚠️ Error: GROQ_API_KEY not found. Ensure it is set in your .env file and the 'python-dotenv' library is installed.".

Definition api_error (e : string) : string :=
  ("An API error occurred: " ++ e ++
   ". The data context size has been reduced. If this persists, check your Groq API tier limits.")%string.

(** [', '.join(names[:5])] needs every one of the five to be a string; a
    missing name (a float NaN) raises [TypeError] inside the [try].  The
    result is the list of names, or the position of the first offender. *)
Fixpoint strings_from (i : nat) (names : list (option string)) : nat + list string :=
  match names with
  | [] => inr []
  | Some s :: rest =>
      match strings_from (S i) rest with
      | inr l => inr (s :: l)
      | inl j => inl j
      end
  | None :: _ => inl i
  end.

Definition join_error (i : nat) : string :=
  ("sequence item " ++ NilEmpty.string_of_uint (Nat.to_uint i) ++
   ": expected str instance, float found")%string.

Record context : Type := mk_context {
  city_context : string;
  station_context : string;
  cities : list (option string);
  stations : list (option string)
}.

Definition get_groq_response (ctx : context) (user_query : string) (w : World)
  : string * World :=
  if key_missing (GROQ_API_KEY w) then (KEY_NOT_FOUND, w)
  else
    match strings_from 0 (head 5 (cities ctx)) with
    | inl i => (api_error (join_error i), w)
    | inr cs =>
        match strings_from 0 (head 5 (stations ctx)) with
        | inl i => (api_error (join_error i), w)
        | inr ss =>
            let prompt := Groq.mk_prompt (city_context ctx) (station_context ctx)
                                         (List.length (cities ctx)) cs
                                         (List.length (stations ctx)) ss in
            let rq := Groq.mk_request MODEL_NAME (3 # 10) (Some prompt) user_query in
            match create rq w with
            | (Groq.Returns c, w') => (Groq.content c, w')
            | (Groq.Raises e, w') => (api_error e, w')
            end
        end
    end.

(** The body of [if user_query := st.chat_input(...)]: nothing happens on
    a run without a submitted, non-empty text. *)
Definition submit (ctx : context) (user_query : option string)
                  (messages : list message) (w : World)
  : list message * World :=
  match user_query with
  | Some (String c q) =>
      let text := String c q in
      let messages1 := messages ++ [mk_message "user" text] in
      let w1 := log_chat_message "user" text w in
      let (reply, w2) := get_groq_response ctx text w1 in
      let w3 := log_chat_message "assistant" reply w2 in
      (messages1 ++ [mk_message "assistant" reply], w3)
  | _ => (messages, w)
  end.

(** *** One run of the Streamlit script ([main])

    [to_markdown] is the rendering of a sampled table by the tabulate
    library; it is a parameter here. *)
Section Main.
Variable to_markdown_city : list LatestCity.row -> string.
Variable to_markdown_station : list LatestStation.row -> string.

(** What a run that gets past the loader leaves on the page. *)
Record page : Type := mk_page {
  alert : Alert.AlertTier;
  alert_banner : Alert.Banner;
  alert_city : option string;
  history : list message
}.

(** [f"{x}"] of a text cell: a missing value prints as nan. *)
Definition fmt (x : option string) : string :=
  match x with Some s => s | None => "nan" end.

Definition fmt_nat (n : nat) : string := NilEmpty.string_of_uint (Nat.to_uint n).

Definition greeting (n_cities n_stations : nat)
                    (aqi_bucket city_name : option string) : message :=
  mk_message "assistant"
    ("Hello! I have the latest AQI data for **" ++ fmt_nat n_cities ++
     " cities** and **" ++ fmt_nat n_stations ++
     " monitoring stations**. The current highest risk alert is: **" ++
     fmt aqi_bucket ++ "** in **" ++ fmt city_name ++
     "**. How can I assist you with air quality insights today?")%string.

(** [session] is [st.session_state] as the run finds it: [None] when it
    has no "messages" yet.  The result is [None] when the run returns
    right after a failed load. *)
Definition main (city_day : list CityDay.row)
                (station_day : list StationDay.row)
                (stations_csv : list Stations.row)
                (session : option (list message))
                (chat_input : option string)
                (w : World) : option page * World :=
  match Loader.load_aqi_datasets city_day station_day stations_csv with
  | None => (None, w)
  | Some result =>
      match Loader.worst_city_row (Loader.latest_city_df result) with
      | None => (None, w)
      | Some (_, worst_city_data) =>
          let city_name := LatestCity.City worst_city_data in
          let aqi_val := LatestCity.AQI worst_city_data in
          let aqi_bucket := LatestCity.AQI_Bucket worst_city_data in
          let tier := Alert.classify aqi_val in
          let messages :=
            match session with
            | Some ms => ms
            | None => [greeting (List.length (Loader.cities result))
                                (List.length (Loader.stations result))
                                aqi_bucket city_name]
            end in
          let ctx := mk_context (to_markdown_city (Loader.city_context result))
                                (to_markdown_station (Loader.station_context result))
                                (Loader.cities result) (Loader.stations result) in
          let (messages', w') := submit ctx chat_input messages w in
          (Some (mk_page tier (Alert.banner tier) city_name messages'), w')
      end
  end.
End Main.

End Chat.

(* ================================================================== *)
(** ** demo2.py: the batch latency test *)

Module Batch.

(** How the script ends: [sys.exit], a return of [main], or an exception
    that nothing catches, with its message. *)
Inductive Exit : Type :=
| sys_exit (code : Z)
| returned
| uncaught (e : string).

(** How a part of [main] ends: control goes on, or an exception leaves
    it; either way in the world reached by then. *)
Inductive Flow : Type :=
| goes_on (w : World)
| raises (e : string) (w : World).

(** Lines 24-27, run when the module is loaded. *)
Definition module_setup (w : World) : option Exit * World :=
  if key_missing (GROQ_API_KEY w)
  then (Some (sys_exit 1), print fatal_key_hint (print fatal_key_not_found w))
  else (None, w).

(** The second component is [trt_seconds]: a float, or [None] when the
    usage object holds [None] as its [total_time] (line 79 takes the
    attribute as it is). *)
Definition get_groq_response_and_time (user_query : string) (w : World)
  : (string * option Q) * World :=
  let n := List.length (requests w) in
  let rq := Groq.mk_request MODEL_NAME (3 # 10) None user_query in
  match create rq w with
  | (Groq.Returns chat_completion, w') =>
      let trt_seconds :=
        match Groq.usage chat_completion with
        | Some u =>
            match Groq.total_time u with
            | Groq.seconds t => Some t
            | Groq.holds_None => None
            | Groq.no_attribute => Some (local_elapsed w n)
            end
        | None => Some (local_elapsed w n)
        end in
      ((Groq.content chat_completion, trt_seconds), w')
  | (Groq.Raises e, w') =>
      let error_message := ("API_ERROR: " ++ e)%string in
      ((error_message, Some (-1)%Q), print (error_for_query user_query error_message) w')
  end.

Definition status_of (trt : Q) : string :=
  if ge_num trt 0%Q then "SUCCESS" else "FAILURE".

(** The message of the [TypeError] of [None >= 0]. *)
Definition NONE_GE_INT : string :=
  "'>=' not supported between instances of 'NoneType' and 'int'".

(** One iteration of the [for i, query in enumerate(queries)] loop.  The
    comparison [trt >= 0] of line 126 stands outside any [try]: with
    [trt] being [None] it raises, and no row is written.  The
    [time.sleep(0.1)] at the end changes nothing that is modelled. *)
Definition iteration (total i : nat) (query : string) (w : World) : Flow :=
  let w0 := if Nat.eqb ((i + 1) mod 50) 0 then print (processed (i + 1) total) w else w in
  let '((response, trt), w1) := get_groq_response_and_time query w0 in
  match trt with
  | None => raises NONE_GE_INT w1
  | Some t =>
      let status := status_of t in
      goes_on (set_output_log w1
                 (OUTPUT_LOG_FILE w1 ++ [mk_result (i + 1) query response t status]))
  end.

Fixpoint loop (total i : nat) (queries : list string) (w : World) : Flow :=
  match queries with
  | [] => goes_on w
  | query :: rest =>
      match iteration total i query w with
      | goes_on w' => loop total (S i) rest w'
      | raises e w' => raises e w'
      end
  end.

(** *** The final summary *)

Definition successful_runs (df_results : list BatchResult) : list BatchResult :=
  filter (fun r => ge_num (Total_Response_Time_Seconds r) 0%Q) df_results.

Definition summary (df_results : list BatchResult) : Stat * Stat :=
  let times := map Total_Response_Time_Seconds (successful_runs df_results) in
  match times with
  | [] => (N_A, N_A)
  | _ => (Series_mean times, Series_median times)
  end.

Definition main (w : World) : Exit * World :=
  match QUERIES_FILE w with
  | None => (returned, print query_file_not_found w)
  | Some [] => (returned, print no_queries_found w)
  | Some queries =>
      let n := List.length queries in
      let w1 := print (starting_test n) w in
      let w2 := set_output_log w1 [] in
      match loop n 0 queries w2 with
      | raises e w3 => (uncaught e, w3)
      | goes_on w3 =>
          let df_results := OUTPUT_LOG_FILE w3 in
          let (mean_trt, median_trt) := summary df_results in
          (returned,
           print baseline_hint
             (print results_saved
                (print (median_line median_trt)
                   (print (mean_line mean_trt)
                      (print (successful_calls (List.length (successful_runs df_results)))
                         (print (total_attempted n)
                            (print rule
                               (print test_complete
                                  (print rule_after_blank_line w3)))))))))
      end
  end.

(** The whole script: the module body, then [main()] under the
    [__main__] guard. *)
Definition script (w : World) : Exit * World :=
  match module_setup w with
  | (Some e, w') => (e, w')
  | (None, w') => main w'
  end.

End Batch.

(* ================================================================== *)
(** ** Vocabulary of the statements *)

(** The value of a row in the column [by_col], and the order of two rows
    in that column. *)
Definition col (R : Type) (by_col : R -> option string) (x : nat * R) : option string :=
  by_col (snd x).

Definition le_row (R : Type) (by_col : R -> option string) (a b : nat * R) : Prop :=
  le_name (by_col (snd a)) (by_col (snd b)) = true.

(** The rows of a frame, labels dropped. *)
Definition rows (R : Type) (df : Frame R) : list R := map snd df.

(** What the loader guarantees of [latest_city_data]: labels are unique,
    every row names its city, and no city has two rows. *)
Record LatestTable (t : Frame LatestCity.row) : Prop := mk_LatestTable {
  unique_index : NoDup (map fst t);
  city_named : forall x, In x t -> LatestCity.City (snd x) <> None;
  one_row_per_city : NoDup (map (col LatestCity.City) t)
}.

(** [w] has the largest AQI of the table. *)
Definition worst_of (t : Frame LatestCity.row) (w : LatestCity.row) : Prop :=
  In w (rows t) /\ forall r, In r (rows t) -> (LatestCity.AQI r <= LatestCity.AQI w)%Q.

Definition worst_station_of (t : Frame LatestStation.row) (w : LatestStation.row) : Prop :=
  In w (rows t) /\ forall r, In r (rows t) -> (LatestStation.AQI r <= LatestStation.AQI w)%Q.

(** Ascending by city name. *)
Definition by_city (l : list LatestCity.row) : Prop :=
  StronglySorted (fun a b => le_name (LatestCity.City a) (LatestCity.City b) = true) l.

(** Ascending by station name, stations without a name last. *)
Definition by_station_name (l : list LatestStation.row) : Prop :=
  StronglySorted
    (fun a b => le_name (LatestStation.StationName a) (LatestStation.StationName b) = true) l.

(** Labels grow along the frame, as they do after [read_csv]. *)
Definition increasing (R : Type) (df : Frame R) : Prop := StronglySorted lt (map fst df).

(** Row [r], at position [i] of the source, is the latest observation of
    entity [k]: it has a date, no row of [k] has a later one, and it is the
    first of the rows of [k] that carry this date. *)
Definition latest_of (R : Type) (key : R -> option string) (date : R -> option Z)
           (source : list R) (k : string) (i : nat) (r : R) : Prop :=
  nth_error source i = Some r /\ key r = Some k /\
  exists d, date r = Some d /\
    forall j r' d',
      nth_error source j = Some r' -> key r' = Some k -> date r' = Some d' ->
      (d' <= d)%Z /\ (d' = d -> i <= j).

(** Entity [k] occurs in the source, and at least once with a date. *)
Definition dated (R : Type) (key : R -> option string) (date : R -> option Z)
           (source : list R) (k : string) : Prop :=
  exists r d, In r source /\ key r = Some k /\ date r = Some d.

Definition occurs (R : Type) (key : R -> option string) (source : list R) (k : string) : Prop :=
  exists r, In r source /\ key r = Some k.

(** [dropna(subset=['AQI'])] followed by the coercion [f] of the rows that
    remain; labels are kept. *)
Definition kept (A B : Type) (aqi : A -> Cell) (f : A -> B) (df : Frame A) : Frame B :=
  map (fun x => (fst x, f (snd x))) (filter (fun x => negb (isna (aqi (snd x)))) df).

(** The rows of the station table that a selected station row turns
    into: none when its AQI is missing; otherwise one for every metadata
    row with its id, or one without name and city when there is none. *)
Definition station_rows (stations : Frame Stations.row) (r : StationDay.row)
  : list LatestStation.row :=
  if isna (StationDay.AQI r) then []
  else map Loader.coerce_station (Loader.merge_row stations r).

(** [sub] occurs in [s]. *)
Definition contains (sub s : string) : Prop :=
  exists pre post, s = (pre ++ sub ++ post)%string.

(** The outcome is a completion whose usage object holds [None] as its
    [total_time]. *)
Definition null_total_time (o : Groq.Outcome) : bool :=
  match o with
  | Groq.Returns c =>
      match Groq.usage c with
      | Some u => match Groq.total_time u with Groq.holds_None => true | _ => false end
      | None => false
      end
  | Groq.Raises _ => false
  end.

(** The position, among the [n] calls from call number [call] on, of the
    first one that meets such a completion. *)
Fixpoint first_null_total_time (w : World) (call n : nat) : option nat :=
  match n with
  | 0 => None
  | S n' =>
      if null_total_time (endpoint w call) then Some 0
      else option_map S (first_null_total_time w (S call) n')
  end.

(** What one completed call of the batch loop records, read off the
    outcome the call met. *)
Definition recorded (w : World) (call id : nat) (query : string) (res : BatchResult) : Prop :=
  Query_ID res = id /\ User_Query res = query /\
  (Status res = "SUCCESS" <-> (0 <= Total_Response_Time_Seconds res)%Q) /\
  (Status res = "SUCCESS" \/ Status res = "FAILURE") /\
  match endpoint w call with
  | Groq.Raises e =>
      Groq_Response_Content res = ("API_ERROR: " ++ e)%string /\
      Total_Response_Time_Seconds res = (-1)%Q /\
      Status res = "FAILURE"
  | Groq.Returns c =>
      Groq_Response_Content res = Groq.content c /\
      (forall u t, Groq.usage c = Some u -> Groq.total_time u = Groq.seconds t ->
                   Total_Response_Time_Seconds res = t) /\
      (Groq.usage c = None \/
       (exists u, Groq.usage c = Some u /\ Groq.total_time u = Groq.no_attribute) ->
       Total_Response_Time_Seconds res = local_elapsed w call)
  end.

(* ================================================================== *)
(** ** Concrete inputs *)

Module Examples.

(** Dates as day numbers: 2024-01-01 is 19723 days after the epoch. *)
Definition Jan01 : Z := 19723.
Definition Jan02 : Z := 19724.

Definition city (name : string) (day : Z) (aqi : Cell) : CityDay.row :=
  CityDay.mk (Some name) (Some day) aqi None NaN NaN.

(** The city table of the specification's example. *)
Definition city_day : list CityDay.row :=
  [city "Delhi" Jan01 (Num 450); city "Delhi" Jan02 (Num 420);
   city "Mumbai" Jan02 (Num 80)].

(** Delhi's latest row has no AQI; Mumbai's has one. *)
Definition city_day_null : list CityDay.row :=
  [city "Delhi" Jan01 (Num 450); city "Delhi" Jan02 NaN;
   city "Mumbai" Jan02 (Num 80)].

(** A null, a textual and a numeric AQI on three latest rows. *)
Definition city_day_mixed : list CityDay.row :=
  [city "Agra" Jan02 NaN; city "Bhopal" Jan02 (Text "n.d.");
   city "Chennai" Jan02 (Num 55)].

Definition latest (name : string) (aqi : Q) : LatestCity.row :=
  LatestCity.mk (Some name) (Some Jan02) aqi None NaN NaN.

(** Entities A (AQI 10), B (AQI 90), C (AQI 5) as a latest city table. *)
Definition cities_ABC : Frame LatestCity.row :=
  [(0, latest "A" 10); (1, latest "B" 90); (2, latest "C" 5)].

Definition station (id : string) (day : Z) (aqi : Cell) : StationDay.row :=
  StationDay.mk (Some id) (Some day) aqi None NaN NaN.

Definition station_day : list StationDay.row :=
  [station "S1" Jan02 (Num 10); station "S2" Jan02 (Num 90);
   station "S3" Jan02 (Num 5)].

Definition stations_csv : list Stations.row :=
  [Stations.mk (Some "S1") (Some "A") (Some "Delhi");
   Stations.mk (Some "S2") (Some "B") (Some "Delhi");
   Stations.mk (Some "S3") (Some "C") (Some "Mumbai")].

Definition latest_station (name city : string) (aqi : Q) : LatestStation.row :=
  LatestStation.mk (Some name) (Some city) (Some Jan02) aqi None NaN NaN.

(** The same three entities as a latest station table. *)
Definition stations_ABC : Frame LatestStation.row :=
  [(0, latest_station "A" "Delhi" 10); (1, latest_station "B" "Delhi" 90);
   (2, latest_station "C" "Mumbai" 5)].

(** An endpoint whose second call raises and whose other calls answer,
    the first with a reported service time, the others without. *)
Definition flaky (n : nat) : Groq.Outcome :=
  match n with
  | 0 => Groq.Returns (Groq.mk_completion "ok" (Some (Groq.mk_usage (Groq.seconds (1 # 4)%Q))))
  | 1 => Groq.Raises "rate limit"
  | _ => Groq.Returns (Groq.mk_completion "fine" None)
  end.

(** An endpoint whose second call answers with a usage object that holds
    [None] as its [total_time]; the other calls report a time. *)
Definition unreported (n : nat) : Groq.Outcome :=
  match n with
  | 1 => Groq.Returns (Groq.mk_completion "fine" (Some (Groq.mk_usage Groq.holds_None)))
  | _ => Groq.Returns (Groq.mk_completion "ok" (Some (Groq.mk_usage (Groq.seconds (1 # 4)%Q))))
  end.

(** Station metadata that lists the id S1 twice. *)
Definition stations_csv_twice : list Stations.row :=
  [Stations.mk (Some "S1") (Some "A") (Some "Delhi");
   Stations.mk (Some "S1") (Some "A") (Some "Delhi");
   Stations.mk (Some "S2") (Some "B") (Some "Delhi");
   Stations.mk (Some "S3") (Some "C") (Some "Mumbai")].

Definition always_raises (n : nat) : Groq.Outcome := Groq.Raises "timeout".

Definition world (key : option string) (endpoint : nat -> Groq.Outcome)
           (queries : option (list string)) : World :=
  mk_world key endpoint (fun _ => (3 # 4)%Q) [] "2024-01-02 10:00:00"
           None None [] queries [] [].

Definition ctx : Chat.context :=
  Chat.mk_context "city table" "station table" [Some "Delhi"] [Some "A"].

End Examples.

(* ================================================================== *)
(** ** demo.py: the batch analysis tool of the sidebar (lines 293-321) *)

Module Sidebar.

(** An entry of [all_batch_results]. *)
Record batch_result : Type := mk_batch_result {
  query : string;
  response : string
}.

Definition NO_QUERIES : string := "Please enter queries to run the batch analysis.".

(** The [for i, query in enumerate(queries)] loop: the query is logged,
    answered, the answer logged, and the pair appended to the results. *)
Fixpoint batch_loop (ctx : Chat.context) (queries : list string)
         (all_batch_results : list batch_result) (w : World)
  : list batch_result * World :=
  match queries with
  | [] => (all_batch_results, w)
  | query :: rest =>
      let w1 := Chat.log_chat_message "batch_user" query w in
      let (batch_reply, w2) := Chat.get_groq_response ctx query w1 in
      let w3 := Chat.log_chat_message "batch_assistant" batch_reply w2 in
      batch_loop ctx rest (all_batch_results ++ [mk_batch_result query batch_reply]) w3
  end.

(** The body of [if st.button("Run Batch Analysis")].  [queries] is the
    list the comprehension builds from the text area: its stripped,
    non-blank lines. *)
Definition run_batch_analysis (ctx : Chat.context) (queries : list string) (w : World)
  : list batch_result * World :=
  match queries with
  | [] => ([], set_warnings w (warnings w ++ [NO_QUERIES]))
  | _ => batch_loop ctx queries [] w
  end.

End Sidebar.

(* ================================================================== *)
(** ** Vocabulary of the further statements *)



(** The header row and a data row of chat_log.csv. *)
Definition LOG_HEADER : list string := ["Timestamp"; "Role"; "Content"].

Definition log_row (w : World) (m : string * string) : list string :=
  [now w; fst m; snd m].

(** Logging a sequence of (role, content) pairs, one after the other. *)
Definition log_all (msgs : list (string * string)) (w : World) : World :=
  fold_left (fun w' m => Chat.log_chat_message (fst m) (snd m) w') msgs w.



(** The world in which a part of the batch script ends, however it ends. *)
Definition world_of (f : Batch.Flow) : World :=
  match f with
  | Batch.goes_on w => w
  | Batch.raises _ w => w
  end.

(** Of [n] queries sent from call number [call] on: how many calls are
    made and how many rows are written, given that the run stops at the
    first completion whose usage holds [None] as its [total_time]. *)
Definition calls_made (w : World) (call n : nat) : nat :=
  match first_null_total_time w call n with
  | Some j => S j
  | None => n
  end.

Definition rows_written (w : World) (call n : nat) : nat :=
  match first_null_total_time w call n with
  | Some j => j
  | None => n
  end.

(** The nine lines of the final summary. *)
Definition summary_lines (n successful : nat) (mean_trt median_trt : Stat) : list Line :=
  [rule_after_blank_line; test_complete; rule;
   total_attempted n; successful_calls successful;
   mean_line mean_trt; median_line median_trt;
   results_saved; baseline_hint].

(** The request the batch script sends for a query. *)
Definition batch_request (user_query : string) : Groq.Request :=
  Groq.mk_request MODEL_NAME (3 # 10) None user_query.

(** The two transcript rows of one answered query. *)
Definition transcript_rows (w : World) (user_role assistant_role : string)
           (q reply : string) : list (list string) :=
  [[now w; user_role; q]; [now w; assistant_role; reply]].

(** The request a chat turn sends for [user_query]: the model, the
    temperature, the totals of the two name lists and previews of at most
    five names. *)
Definition turn_request (ctx : Chat.context) (user_query : string) (rq : Groq.Request) : Prop :=
  Groq.user rq = user_query /\ Groq.model rq = MODEL_NAME /\
  Groq.temperature rq = (3 # 10)%Q /\
  exists p, Groq.system_prompt rq = Some p /\
    Groq.total_cities p = List.length (Chat.cities ctx) /\
    Groq.total_stations p = List.length (Chat.stations ctx) /\
    List.length (Groq.cities_preview p) <= 5 /\
    List.length (Groq.stations_preview p) <= 5.



(* ================================================================== *)
(** * Properties *)

(* ================================================================== *)
(** ** Python's order on [str]

    Python compares strings code point by code point; on UTF-8 encoded
    text this is the byte-wise lexicographic order of [String.compare]. *)

Module StrOrd.

Lemma compare_refl (a : string) : String.compare a a = Eq.
Proof.
  induction a as [|c a IH]; simpl; [reflexivity|].
  assert (Hc : Ascii.compare c c = Eq).
  { pose proof (Ascii.compare_antisym c c) as H.
    destruct (Ascii.compare c c); [reflexivity|discriminate|discriminate]. }
  rewrite Hc. exact IH.
Qed.

Lemma leb_refl (a : string) : String.leb a a = true.
Proof. unfold String.leb. now rewrite compare_refl. Qed.

Lemma compare_lt_trans (a b c : string) :
  String.compare a b = Lt -> String.compare b c = Lt -> String.compare a c = Lt.
Proof.
  intros H1 H2.
  apply String_as_OT.cmp_lt in H1. apply String_as_OT.cmp_lt in H2.
  apply String_as_OT.cmp_lt. eapply String_as_OT.lt_trans; eassumption.
Qed.

Lemma leb_trans (a b c : string) :
  String.leb a b = true -> String.leb b c = true -> String.leb a c = true.
Proof.
  unfold String.leb. intros H1 H2.
  destruct (String.compare a b) eqn:E1; try discriminate;
    destruct (String.compare b c) eqn:E2; try discriminate.
  - apply String.compare_eq_iff in E1, E2. subst. now rewrite compare_refl.
  - apply String.compare_eq_iff in E1. subst. now rewrite E2.
  - apply String.compare_eq_iff in E2. subst. now rewrite E1.
  - now rewrite (compare_lt_trans _ _ _ E1 E2).
Qed.

Lemma leb_false_ge (a b : string) : String.leb a b = false -> String.leb b a = true.
Proof.
  intros H. destruct (String.leb_total a b) as [E|E]; [congruence|exact E].
Qed.

End StrOrd.

(* ================================================================== *)
(** ** Comparisons on numbers *)

Lemma ge_num_spec (x y : Q) : ge_num x y = true <-> (y <= x)%Q.
Proof. unfold ge_num. apply Qle_bool_iff. Qed.

Lemma ge_num_false (x y : Q) : ge_num x y = false <-> (x < y)%Q.
Proof.
  unfold ge_num. split; intros H.
  - apply Qnot_le_lt. intros Hle. apply Qle_bool_iff in Hle. congruence.
  - destruct (Qle_bool y x) eqn:E; [|reflexivity].
    apply Qle_bool_iff in E. exfalso. eapply Qlt_not_le; eassumption.
Qed.

Lemma lt_num_spec (x y : Q) : lt_num x y = true <-> (x < y)%Q.
Proof.
  unfold lt_num. rewrite negb_true_iff. apply (ge_num_false x y).
Qed.

Lemma lt_num_false (x y : Q) : lt_num x y = false <-> (y <= x)%Q.
Proof.
  unfold lt_num. rewrite negb_false_iff. apply Qle_bool_iff.
Qed.

(* ================================================================== *)
(** ** The alert classifier *)

Section AlertClassifier.
Import Alert.

(** The four comparisons of the chain, as facts about the input. *)
Ltac chain aqi :=
  unfold classify;
  destruct (ge_num aqi 401%Q) eqn:E4;
  [apply ge_num_spec in E4 | apply ge_num_false in E4;
   destruct (ge_num aqi 301%Q) eqn:E3;
   [apply ge_num_spec in E3 | apply ge_num_false in E3;
    destruct (ge_num aqi 201%Q) eqn:E2;
    [apply ge_num_spec in E2 | apply ge_num_false in E2;
     destruct (ge_num aqi 101%Q) eqn:E1;
     [apply ge_num_spec in E1 | apply ge_num_false in E1]]]].

Lemma classify_SEVERE (aqi : Q) : classify aqi = SEVERE <-> (401 <= aqi)%Q.
Proof. chain aqi; split; intros H; try discriminate; try reflexivity; try assumption; lra. Qed.

Lemma classify_VERY_POOR (aqi : Q) :
  classify aqi = VERY_POOR <-> (301 <= aqi /\ aqi < 401)%Q.
Proof. chain aqi; split; intros H; try discriminate; try reflexivity; try (split; assumption); lra. Qed.

Lemma classify_POOR (aqi : Q) :
  classify aqi = POOR <-> (201 <= aqi /\ aqi < 301)%Q.
Proof. chain aqi; split; intros H; try discriminate; try reflexivity; try (split; assumption); lra. Qed.

Lemma classify_MODERATE (aqi : Q) :
  classify aqi = MODERATE <-> (101 <= aqi /\ aqi < 201)%Q.
Proof. chain aqi; split; intros H; try discriminate; try reflexivity; try (split; assumption); lra. Qed.

Lemma classify_GOOD (aqi : Q) : classify aqi = GOOD <-> (aqi < 101)%Q.
Proof. chain aqi; split; intros H; try discriminate; try reflexivity; try assumption; lra. Qed.

(** The classifier depends on the value only, not on how the rational is
    written. *)
Lemma classify_Qeq (a b : Q) : (a == b)%Q -> classify a = classify b.
Proof.
  intros H. unfold classify, ge_num.
  assert (E : forall c, Qle_bool c a = Qle_bool c b).
  { intros c. destruct (Qle_bool c a) eqn:Ea, (Qle_bool c b) eqn:Eb; try reflexivity.
    - apply Qle_bool_iff in Ea. rewrite H in Ea. apply Qle_bool_iff in Ea. congruence.
    - apply Qle_bool_iff in Eb. rewrite <- H in Eb. apply Qle_bool_iff in Eb. congruence. }
  now rewrite !E.
Qed.

(** C5: the thresholds are inclusive at the lower bound, every value
    falls in exactly one tier, and every negative value is GOOD. *)
Theorem classify_thresholds (aqi : Q) :
  (classify aqi = SEVERE <-> (401 <= aqi)%Q) /\
  (classify aqi = VERY_POOR <-> (301 <= aqi /\ aqi < 401)%Q) /\
  (classify aqi = POOR <-> (201 <= aqi /\ aqi < 301)%Q) /\
  (classify aqi = MODERATE <-> (101 <= aqi /\ aqi < 201)%Q) /\
  (classify aqi = GOOD <-> (aqi < 101)%Q) /\
  ((aqi < 0)%Q -> classify aqi = GOOD).
Proof.
  split; [apply classify_SEVERE|].
  split; [apply classify_VERY_POOR|].
  split; [apply classify_POOR|].
  split; [apply classify_MODERATE|].
  split; [apply classify_GOOD|].
  intros Hneg. apply classify_GOOD. lra.
Qed.

Lemma classify_thresholds_witness :
  ((-5 # 1) < 0)%Q /\ classify (-5 # 1) = GOOD /\ classify 401 = SEVERE /\
  classify (4009 # 10) = VERY_POOR.
Proof.
  assert (Hneg : ((-5 # 1) < 0)%Q) by reflexivity.
  split; [exact Hneg|].
  split; [exact (proj2 (proj2 (proj2 (proj2 (proj2 (classify_thresholds (-5 # 1)))))) Hneg)|].
  split; reflexivity.
Defined.

(** C6: the classifier is monotone in the severity ordering. *)
Theorem classify_monotone (aqi1 aqi2 : Q) :
  (aqi1 < aqi2)%Q -> tier_le (classify aqi1) (classify aqi2).
Proof.
  intros Hlt. unfold tier_le.
  destruct (classify aqi2) eqn:C2; simpl.
  - apply classify_GOOD in C2.
    assert (C1 : classify aqi1 = GOOD) by (apply classify_GOOD; lra).
    rewrite C1. simpl. lia.
  - apply classify_MODERATE in C2.
    destruct (classify aqi1) eqn:C1; simpl; try lia.
    + apply classify_POOR in C1. lra.
    + apply classify_VERY_POOR in C1. lra.
    + apply classify_SEVERE in C1. lra.
  - apply classify_POOR in C2.
    destruct (classify aqi1) eqn:C1; simpl; try lia.
    + apply classify_VERY_POOR in C1. lra.
    + apply classify_SEVERE in C1. lra.
  - apply classify_VERY_POOR in C2.
    destruct (classify aqi1) eqn:C1; simpl; try lia.
    apply classify_SEVERE in C1. lra.
  - destruct (classify aqi1); simpl; lia.
Qed.

Lemma classify_monotone_witness :
  tier_le (classify 150) (classify 350).
Proof. apply classify_monotone. reflexivity. Defined.

(** The example of the specification: 420 is SEVERE. *)
Example classify_420 : classify 420 = SEVERE /\ banner (classify 420) = st_error.
Proof. split; reflexivity. Qed.

End AlertClassifier.

(* ================================================================== *)
(** ** The order of [sort_values] on a text column *)

Lemma le_name_refl (a : option string) : le_name a a = true.
Proof. destruct a; simpl; [apply StrOrd.leb_refl|reflexivity]. Qed.

Lemma le_name_trans (a b c : option string) :
  le_name a b = true -> le_name b c = true -> le_name a c = true.
Proof.
  destruct a, b, c; simpl; intros H1 H2; try reflexivity; try discriminate.
  eapply StrOrd.leb_trans; eassumption.
Qed.

Lemma le_name_false_ge (a b : option string) :
  le_name a b = false -> le_name b a = true.
Proof.
  destruct a, b; simpl; intros H; try reflexivity; try discriminate.
  now apply StrOrd.leb_false_ge.
Qed.

Lemma le_name_antisym (a b : option string) :
  le_name a b = true -> le_name b a = true -> a = b.
Proof.
  destruct a, b; simpl; intros H1 H2; try reflexivity; try discriminate.
  f_equal. now apply String.leb_antisym.
Qed.

Lemma eq_name_true (a b : option string) : eq_name a b = true <-> a = b.
Proof.
  destruct a, b; simpl; split; intros H; try reflexivity; try discriminate.
  - apply String.eqb_eq in H. now subst.
  - inversion H. apply String.eqb_refl.
Qed.

Lemma ne_name_false (a b : option string) :
  ne_name a b = false <-> exists s, a = Some s /\ b = Some s.
Proof.
  destruct a as [x|], b as [y|]; simpl; split; intros H; try discriminate;
    try (destruct H as (s & H1 & H2); discriminate).
  - apply negb_false_iff, String.eqb_eq in H. subst. now exists y.
  - destruct H as (s & H1 & H2). inversion H1; inversion H2; subst.
    now rewrite String.eqb_refl.
Qed.

(* ================================================================== *)
(** ** [sort_values], [head] and [drop_duplicates] *)

Section SortValuesFacts.
Variable R : Type.
Variable by_col : R -> option string.

Local Abbreviation le_row := (le_row by_col).
Local Abbreviation col := (col by_col).

Lemma insert_row_perm (x : nat * R) (l : Frame R) :
  Permutation (insert_row by_col x l) (x :: l).
Proof.
  induction l as [|y l IH]; simpl; [reflexivity|].
  destruct (le_name _ _); [reflexivity|].
  rewrite IH. apply perm_swap.
Qed.

Lemma sort_values_perm (df : Frame R) : Permutation (sort_values by_col df) df.
Proof.
  induction df as [|x df IH]; simpl; [reflexivity|].
  rewrite insert_row_perm. now constructor.
Qed.

Lemma sort_values_In (df : Frame R) (x : nat * R) :
  In x (sort_values by_col df) <-> In x df.
Proof.
  split; apply Permutation_in; [|symmetry]; apply sort_values_perm.
Qed.

Lemma sort_values_length (df : Frame R) :
  List.length (sort_values by_col df) = List.length df.
Proof. apply Permutation_length, sort_values_perm. Qed.

Lemma insert_row_sorted (x : nat * R) (l : Frame R) :
  StronglySorted le_row l -> StronglySorted le_row (insert_row by_col x l).
Proof.
  induction l as [|y l IH]; simpl; intros Hs.
  - repeat constructor.
  - inversion Hs as [|? ? Hl Hy]; subst.
    destruct (le_name (by_col (snd x)) (by_col (snd y))) eqn:E.
    + constructor; [assumption|].
      constructor; [exact E|].
      eapply Forall_impl; [|exact Hy].
      intros z Hz. unfold le_row in *. eapply le_name_trans; eassumption.
    + constructor; [now apply IH|].
      apply Forall_forall. intros z Hz.
      apply (Permutation_in _ (insert_row_perm x l)) in Hz.
      destruct Hz as [<-|Hz].
      * now apply le_name_false_ge.
      * rewrite Forall_forall in Hy. now apply Hy.
Qed.

Lemma sort_values_sorted (df : Frame R) : StronglySorted le_row (sort_values by_col df).
Proof.
  induction df as [|x df IH]; simpl; [constructor|].
  now apply insert_row_sorted.
Qed.

Lemma In_head (A : Type) (n : nat) (l : list A) (x : A) : In x (head n l) -> In x l.
Proof.
  unfold head. intros H. rewrite <- (firstn_skipn n l). apply in_or_app. now left.
Qed.

Lemma In_tail (A : Type) (n : nat) (l : list A) (x : A) : In x (skipn n l) -> In x l.
Proof.
  intros H. rewrite <- (firstn_skipn n l). apply in_or_app. now right.
Qed.

(** What [head] leaves out comes no earlier in the order than what it
    keeps. *)
Lemma sorted_head_le (n : nat) (l : Frame R) :
  StronglySorted le_row l ->
  forall x y, In x (head n l) -> In y (skipn n l) -> le_row x y.
Proof.
  unfold head. revert l. induction n as [|n IH]; intros l Hs x y Hx Hy.
  - simpl in Hx. contradiction.
  - destruct l as [|z l]; [simpl in Hx; contradiction|].
    inversion Hs as [|? ? Hl Hz]; subst. simpl in Hx, Hy.
    destruct Hx as [<-|Hx].
    + rewrite Forall_forall in Hz. apply Hz.
      eapply In_tail. exact Hy.
    + now apply (IH l).
Qed.

Lemma sorted_head (n : nat) (l : Frame R) :
  StronglySorted le_row l -> StronglySorted le_row (head n l).
Proof.
  unfold head. revert l. induction n as [|n IH]; intros l Hs; simpl; [constructor|].
  destruct l as [|z l]; [constructor|].
  inversion Hs as [|? ? Hl Hz]; subst.
  constructor; [now apply IH|].
  apply Forall_forall. intros y Hy. rewrite Forall_forall in Hz.
  apply Hz. eapply In_head; exact Hy.
Qed.

Lemma head_length (A : Type) (n : nat) (l : list A) : List.length (head n l) <= n.
Proof. unfold head. rewrite length_firstn. lia. Qed.

(** *** [drop_duplicates] *)

Lemma existsb_eq_name (a : option string) (seen : list (option string)) :
  existsb (eq_name a) seen = true <-> In a seen.
Proof.
  rewrite existsb_exists. split.
  - intros (b & Hb & E). apply eq_name_true in E. now subst.
  - intros H. exists a. split; [assumption|]. now apply eq_name_true.
Qed.

Lemma drop_duplicates_from_In (seen : list (option string)) (df : Frame R) (x : nat * R) :
  In x (drop_duplicates_from by_col seen df) -> In x df /\ ~ In (col x) seen.
Proof.
  revert seen. induction df as [|y df IH]; intros seen H; simpl in *; [contradiction|].
  destruct (existsb (eq_name (by_col (snd y))) seen) eqn:E.
  - apply IH in H. tauto.
  - destruct H as [<-|H].
    + split; [now left|]. intros Hin. apply existsb_eq_name in Hin.
      unfold col in Hin. congruence.
    + apply IH in H. destruct H as [H1 H2]. split; [now right|].
      intros Hin. apply H2. now right.
Qed.

Lemma drop_duplicates_from_NoDup (seen : list (option string)) (df : Frame R) :
  NoDup (map col (drop_duplicates_from by_col seen df)).
Proof.
  revert seen. induction df as [|y df IH]; intros seen; simpl; [constructor|].
  destruct (existsb (eq_name (by_col (snd y))) seen) eqn:E; [apply IH|].
  simpl. constructor; [|apply IH].
  intros Hin. apply in_map_iff in Hin. destruct Hin as (z & Hz & Hin).
  apply drop_duplicates_from_In in Hin. destruct Hin as [_ Hn].
  apply Hn. left. symmetry. exact Hz.
Qed.

Lemma drop_duplicates_NoDup (df : Frame R) :
  NoDup (map col (drop_duplicates by_col df)).
Proof. apply drop_duplicates_from_NoDup. Qed.

(** Rows whose values are already distinct, and unseen, all stay. *)
Lemma drop_duplicates_from_id (seen : list (option string)) (df : Frame R) :
  NoDup (map col df) ->
  (forall x, In x df -> ~ In (col x) seen) ->
  drop_duplicates_from by_col seen df = df.
Proof.
  revert seen. induction df as [|y df IH]; intros seen Hnd Hseen; simpl; [reflexivity|].
  inversion Hnd as [|? ? Hy Hnd']; subst.
  destruct (existsb (eq_name (by_col (snd y))) seen) eqn:E.
  - apply existsb_eq_name in E. exfalso. apply (Hseen y); [now left|exact E].
  - f_equal. apply IH; [assumption|].
    intros x Hx [Heq|Hin].
    + apply Hy. apply in_map_iff. exists x. split; [now symmetry|assumption].
    + apply (Hseen x); [now right|assumption].
Qed.

Lemma drop_duplicates_id (df : Frame R) :
  NoDup (map col df) -> drop_duplicates by_col df = df.
Proof.
  intros H. apply drop_duplicates_from_id; [assumption|]. intros x _ [].
Qed.

Lemma drop_duplicates_from_length (seen : list (option string)) (df : Frame R) :
  List.length (drop_duplicates_from by_col seen df) <= List.length df.
Proof.
  revert seen. induction df as [|y df IH]; intros seen; simpl; [lia|].
  destruct (existsb _ seen); simpl; [specialize (IH seen)|specialize (IH (by_col (snd y) :: seen))]; lia.
Qed.

End SortValuesFacts.

(* ================================================================== *)
(** ** [idxmax] and [loc] *)

Section ArgMaxFacts.
Variable V : Type.
Variable ltb : V -> V -> bool.
Hypothesis ltb_irrefl : forall a, ltb a a = false.
Hypothesis ltb_asym : forall a b, ltb a b = true -> ltb b a = false.
Hypothesis ltb_neg_trans :
  forall a b c, ltb a b = false -> ltb b c = false -> ltb a c = false.

Lemma argmax_In (s : list (nat * option V)) (i : nat) (v : V) :
  argmax ltb s = Some (i, v) -> In (i, Some v) s.
Proof.
  induction s as [|[j [w|]] s IH]; simpl; intros H; [discriminate| |].
  - destruct (argmax ltb s) as [[k u]|] eqn:E.
    + destruct (ltb w u); inversion H; subst; [right; now apply IH|now left].
    + inversion H; subst. now left.
  - right. now apply IH.
Qed.

Lemma argmax_max (s : list (nat * option V)) (i : nat) (v : V) :
  argmax ltb s = Some (i, v) ->
  forall j w, In (j, Some w) s -> ltb v w = false.
Proof.
  revert i v. induction s as [|[k [u|]] s IH]; simpl; intros i v H j w Hin;
    [contradiction| |].
  - destruct (argmax ltb s) as [[i' v']|] eqn:E.
    + destruct (ltb u v') eqn:L; inversion H; subst.
      * destruct Hin as [Heq|Hin].
        -- inversion Heq; subst. now apply ltb_asym.
        -- eapply IH; [reflexivity|eassumption].
      * destruct Hin as [Heq|Hin].
        -- inversion Heq; subst. apply ltb_irrefl.
        -- apply ltb_neg_trans with v'; [assumption|].
           eapply IH; [reflexivity|eassumption].
    + inversion H; subst. destruct Hin as [Heq|Hin].
      * inversion Heq; subst. apply ltb_irrefl.
      * exfalso. clear IH H. induction s as [|[a [b|]] s IHs]; simpl in *.
        -- contradiction.
        -- destruct (argmax ltb s) as [[? ?]|]; [destruct (ltb b v0)|]; discriminate.
        -- destruct Hin as [Heq|Hin]; [discriminate|]. now apply IHs.
  - destruct Hin as [Heq|Hin]; [discriminate|]. eapply IH; eassumption.
Qed.

(** The maximum chosen is the first one: everything before it is
    strictly smaller. *)
Lemma argmax_first (s : list (nat * option V)) (i : nat) (v : V) :
  argmax ltb s = Some (i, v) ->
  exists s1 s2, s = s1 ++ (i, Some v) :: s2 /\
                forall j w, In (j, Some w) s1 -> ltb w v = true.
Proof.
  revert i v. induction s as [|[k [u|]] s IH]; simpl; intros i v H; [discriminate| |].
  - destruct (argmax ltb s) as [[i' v']|] eqn:E.
    + destruct (ltb u v') eqn:L; inversion H; subst.
      * destruct (IH i v eq_refl) as (s1 & s2 & -> & Hs1).
        exists ((k, Some u) :: s1), s2. split; [reflexivity|].
        intros j w [Heq|Hin]; [inversion Heq; now subst|now apply (Hs1 j)].
      * exists [], s. split; [reflexivity|]. intros j w [].
    + inversion H; subst. exists [], s. split; [reflexivity|]. intros j w [].
  - destruct (IH i v H) as (s1 & s2 & -> & Hs1).
    exists ((k, None) :: s1), s2. split; [reflexivity|].
    intros j w [Heq|Hin]; [discriminate|now apply (Hs1 j)].
Qed.

Lemma argmax_None (s : list (nat * option V)) :
  argmax ltb s = None <-> forall x, In x s -> snd x = None.
Proof.
  induction s as [|[k [u|]] s IH]; simpl.
  - split; [intros _ x []|reflexivity].
  - split.
    + destruct (argmax ltb s) as [[? ?]|]; [destruct (ltb u v)|]; discriminate.
    + intros H. specialize (H (k, Some u) (or_introl eq_refl)). discriminate.
  - rewrite IH. split.
    + intros H x [<-|Hx]; [reflexivity|now apply H].
    + intros H x Hx. apply H. now right.
Qed.

Lemma idxmax_Some (s : list (nat * option V)) (i : nat) :
  idxmax ltb s = Some i <-> exists v, argmax ltb s = Some (i, v).
Proof.
  unfold idxmax. destruct (argmax ltb s) as [[j w]|]; simpl; split.
  - intros H. inversion H; subst. now exists w.
  - intros (v & H). now inversion H.
  - discriminate.
  - intros (v & H). discriminate.
Qed.

End ArgMaxFacts.

Lemma Zltb_irrefl (a : Z) : Z.ltb a a = false.
Proof. apply Z.ltb_irrefl. Qed.

Lemma Zltb_asym (a b : Z) : Z.ltb a b = true -> Z.ltb b a = false.
Proof. rewrite Z.ltb_lt, Z.ltb_ge. lia. Qed.

Lemma Zltb_neg_trans (a b c : Z) :
  Z.ltb a b = false -> Z.ltb b c = false -> Z.ltb a c = false.
Proof. rewrite !Z.ltb_ge. lia. Qed.

Lemma lt_num_irrefl (a : Q) : lt_num a a = false.
Proof. apply lt_num_false. apply Qle_refl. Qed.

Lemma lt_num_asym (a b : Q) : lt_num a b = true -> lt_num b a = false.
Proof. rewrite lt_num_spec, lt_num_false. apply Qlt_le_weak. Qed.

Lemma lt_num_neg_trans (a b c : Q) :
  lt_num a b = false -> lt_num b c = false -> lt_num a c = false.
Proof. rewrite !lt_num_false. intros H1 H2. eapply Qle_trans; eassumption. Qed.

Section LocFacts.
Variable R : Type.

Lemma loc1_In (df : Frame R) (i : nat) (r : R) : loc1 df i = Some r -> In (i, r) df.
Proof.
  induction df as [|[j x] df IH]; simpl; [discriminate|].
  destruct (Nat.eqb j i) eqn:E.
  - intros H. inversion H; subst. apply Nat.eqb_eq in E. subst. now left.
  - intros H. right. now apply IH.
Qed.

Lemma In_loc1 (df : Frame R) (i : nat) (r : R) :
  NoDup (map fst df) -> In (i, r) df -> loc1 df i = Some r.
Proof.
  induction df as [|[j x] df IH]; simpl; intros Hnd Hin; [contradiction|].
  inversion Hnd as [|? ? Hj Hnd']; subst.
  destruct Hin as [Heq|Hin].
  - inversion Heq; subst. now rewrite Nat.eqb_refl.
  - destruct (Nat.eqb j i) eqn:E.
    + apply Nat.eqb_eq in E. subst. exfalso. apply Hj.
      apply in_map_iff. now exists (i, r).
    + now apply IH.
Qed.

Lemma NoDup_map_inj (A B : Type) (f : A -> B) (l : list A) (a b : A) :
  NoDup (map f l) -> In a l -> In b l -> f a = f b -> a = b.
Proof.
  induction l as [|x l IH]; simpl; intros Hnd Ha Hb Hf; [contradiction|].
  inversion Hnd as [|? ? Hx Hnd']; subst.
  destruct Ha as [<-|Ha], Hb as [<-|Hb]; try reflexivity.
  - exfalso. apply Hx. rewrite Hf. now apply in_map.
  - exfalso. apply Hx. rewrite <- Hf. now apply in_map.
  - now apply IH.
Qed.

End LocFacts.

(* ================================================================== *)
(** ** The context sampler *)

Section Sampler.
Import Loader.

Lemma AQI_column_In (t : Frame LatestCity.row) (i : nat) (v : Q) :
  In (i, Some v) (AQI_column t) <-> exists r, In (i, r) t /\ LatestCity.AQI r = v.
Proof.
  unfold AQI_column. rewrite in_map_iff. split.
  - intros ([j r] & Heq & Hin). simpl in Heq. inversion Heq; subst. now exists r.
  - intros (r & Hin & <-). now exists (i, r).
Qed.

(** On a table with unique labels the worst row exists as soon as the
    table has a row, it is a row of the table, and no row has a larger
    AQI. *)
Lemma worst_city_row_spec (t : Frame LatestCity.row) :
  t <> [] -> NoDup (map fst t) ->
  exists i w, worst_city_row t = Some (i, w) /\ In (i, w) t /\ worst_of t w.
Proof.
  intros Hne Hnd. unfold worst_city_row, idxmax.
  destruct (argmax lt_num (AQI_column t)) as [[i v]|] eqn:E.
  - pose proof (argmax_In _ _ E) as Hin.
    apply AQI_column_In in Hin. destruct Hin as (w & Hin & Hv).
    simpl. rewrite (In_loc1 _ _ _ Hnd Hin).
    exists i, w. split; [reflexivity|]. split; [assumption|].
    split.
    + unfold rows. apply in_map_iff. now exists (i, w).
    + intros r Hr. unfold rows in Hr. apply in_map_iff in Hr.
      destruct Hr as ([j r'] & Heq & Hr). simpl in Heq. subst r'.
      apply lt_num_false. rewrite Hv.
      eapply (argmax_max lt_num lt_num_irrefl lt_num_asym lt_num_neg_trans); [exact E|].
      apply AQI_column_In. exists r. split; [exact Hr|reflexivity].
  - exfalso. destruct t as [|[j r] t]; [now apply Hne|].
    pose proof (proj1 (argmax_None lt_num _) E) as H.
    specialize (H (j, Some (LatestCity.AQI r)) (or_introl eq_refl)). discriminate.
Qed.

(** Among rows of equal AQI the first row of the table is the worst
    row: every row before it has a strictly smaller AQI. *)
Lemma worst_city_row_first (t : Frame LatestCity.row) (i : nat) (w : LatestCity.row) :
  NoDup (map fst t) -> worst_city_row t = Some (i, w) ->
  exists t1 t2, t = t1 ++ (i, w) :: t2 /\
                forall r, In r (rows t1) -> (LatestCity.AQI r < LatestCity.AQI w)%Q.
Proof.
  intros Hnd H. unfold worst_city_row, idxmax in H.
  destruct (argmax lt_num (AQI_column t)) as [[j v]|] eqn:E; simpl in H; [|discriminate].
  destruct (loc1 t j) as [r|] eqn:L; [|discriminate]. inversion H; subst. clear H.
  apply loc1_In in L.
  destruct (argmax_first _ _ E) as (s1 & s2 & Hs & Hlt).
  unfold AQI_column in Hs. apply map_eq_app in Hs.
  destruct Hs as (t1 & t2' & -> & <- & Ht2).
  destruct t2' as [|[k x] t2]; [discriminate|]. simpl in Ht2.
  inversion Ht2; subst. clear Ht2.
  assert (x = w).
  { assert (Hx : In (i, x) (t1 ++ (i, x) :: t2)) by (apply in_or_app; right; now left).
    pose proof (In_loc1 _ _ _ Hnd Hx) as L1. pose proof (In_loc1 _ _ _ Hnd L) as L2.
    congruence. }
  subst x. exists t1, t2. split; [reflexivity|].
  intros r Hr. unfold rows in Hr. apply in_map_iff in Hr.
  destruct Hr as ([k r'] & Heq & Hr). simpl in Heq. subst r'.
  apply lt_num_spec. apply (Hlt k).
  apply in_map_iff. now exists (k, r).
Qed.

Lemma worst_city_row_nil : worst_city_row [] = None.
Proof. reflexivity. Qed.

(** The first row of the sampled context is the worst row, whatever
    follows. *)
Lemma context_cities_df_head (cap : nat) (t : Frame LatestCity.row)
      (i : nat) (w : LatestCity.row) :
  worst_city_row t = Some (i, w) ->
  exists rest, context_cities_df cap t = Some (w :: rest).
Proof.
  intros H. unfold context_cities_df. rewrite H.
  unfold drop_duplicates, reset_index. simpl. eauto.
Qed.

Lemma NoDup_map_filter (A B : Type) (keep : A -> bool) (g : A -> B) (xs : list A) :
  NoDup (map g xs) -> NoDup (map g (filter keep xs)).
Proof.
  intros Hnd. induction xs as [|x xs IH]; simpl in *; [constructor|].
  apply NoDup_cons_iff in Hnd. destruct Hnd as [Hx Hxs].
  destruct (keep x); simpl; [|now apply IH].
  apply NoDup_cons_iff. split; [|now apply IH].
  intros Hin. apply Hx. apply in_map_iff in Hin.
  destruct Hin as (y & Hy & Hin). apply filter_In in Hin.
  apply in_map_iff. exists y. tauto.
Qed.

Lemma NoDup_map_head (A B : Type) (f : A -> B) (n : nat) (l : list A) :
  NoDup (map f l) -> NoDup (map f (head n l)).
Proof.
  unfold head. revert l. induction n as [|n IH]; intros l H; simpl; [constructor|].
  destruct l as [|x l]; simpl; [constructor|].
  inversion H as [|? ? Hx Hl]; subst.
  constructor; [|now apply IH].
  intros Hin. apply Hx. apply in_map_iff in Hin.
  destruct Hin as (y & Hy & Hin). apply in_map_iff. exists y.
  split; [assumption|]. eapply In_head. exact Hin.
Qed.

(** On a latest table the de-duplication finds nothing to remove: the
    sampled context is the worst row followed by the slice. *)
Lemma context_cities_df_eq (cap : nat) (t : Frame LatestCity.row)
      (i : nat) (w : LatestCity.row) :
  LatestTable t -> worst_city_row t = Some (i, w) ->
  context_cities_df cap t = Some (w :: rows (sample_cities cap t w)).
Proof.
  intros [Hidx Hnamed Hone] H. unfold context_cities_df. rewrite H. simpl.
  unfold drop_duplicates, reset_index, rows. simpl. do 3 f_equal.
  apply drop_duplicates_from_id.
  - unfold sample_cities. apply NoDup_map_head.
    eapply Permutation_NoDup.
    + symmetry. apply Permutation_map. apply sort_values_perm.
    + now apply NoDup_map_filter.
  - intros x Hx Hseen. destruct Hseen as [Heq|[]].
    unfold sample_cities in Hx. apply In_head in Hx.
    apply sort_values_In in Hx. apply filter_In in Hx. destruct Hx as [Hx Hne].
    unfold col in Heq. rewrite <- Heq in Hne.
    destruct (LatestCity.City w) as [c|] eqn:Ec.
    + simpl in Hne. rewrite String.eqb_refl in Hne. discriminate.
    + assert (Hw : In (i, w) t).
      { unfold worst_city_row in H. destruct (idxmax _ _); [|discriminate].
        destruct (loc1 t n) eqn:L; [|discriminate].
        inversion H; subst. now apply loc1_In. }
      apply (Hnamed _ Hw). exact Ec.
Qed.


Lemma StronglySorted_rows (R : Type) (by_col : R -> option string) (df : Frame R) :
  StronglySorted (le_row by_col) df ->
  StronglySorted (fun a b => le_name (by_col a) (by_col b) = true) (rows df).
Proof.
  induction 1 as [|x df Hs IH Hx]; simpl; constructor; [assumption|].
  apply Forall_forall. intros r Hr. unfold rows in Hr. apply in_map_iff in Hr.
  destruct Hr as (y & <- & Hy). rewrite Forall_forall in Hx. now apply Hx.
Qed.

Lemma sample_cities_rows (cap : nat) (t : Frame LatestCity.row) (w r : LatestCity.row) :
  In r (rows (sample_cities cap t w)) ->
  In r (rows t) /\ ne_name (LatestCity.City r) (LatestCity.City w) = true.
Proof.
  unfold rows. intros H. apply in_map_iff in H. destruct H as (x & <- & Hx).
  unfold sample_cities in Hx. apply In_head, sort_values_In, filter_In in Hx.
  destruct Hx as [Hx Hne]. split; [now apply in_map|exact Hne].
Qed.

(** The slice holds the alphabetically first of the other cities: a row
    of the table that is in neither the slice nor the worst row comes no
    earlier than any row of the slice. *)
Lemma sample_cities_first (cap : nat) (t : Frame LatestCity.row) (i : nat)
      (w r r' : LatestCity.row) :
  LatestTable t -> In (i, w) t ->
  In r (rows t) -> r <> w -> ~ In r (rows (sample_cities cap t w)) ->
  In r' (rows (sample_cities cap t w)) ->
  le_name (LatestCity.City r') (LatestCity.City r) = true.
Proof.
  intros [Hidx Hnamed Hone] Hw Hr Hrw Hout Hr'.
  unfold rows in Hr. apply in_map_iff in Hr. destruct Hr as ([j x] & Heq & Hx).
  simpl in Heq. subst x.
  assert (Hne : ne_name (LatestCity.City r) (LatestCity.City w) = true).
  { destruct (ne_name (LatestCity.City r) (LatestCity.City w)) eqn:E; [reflexivity|].
    apply ne_name_false in E. destruct E as (c & E1 & E2).
    assert (Heq : (j, r) = (i, w)).
    { apply (NoDup_map_inj (col LatestCity.City) t); try assumption.
      unfold col. simpl. congruence. }
    inversion Heq. contradiction. }
  set (sorted := sort_values LatestCity.City
                   (filter (fun x => ne_name (LatestCity.City (snd x)) (LatestCity.City w)) t)).
  assert (Hin : In (j, r) sorted).
  { apply sort_values_In. apply filter_In. split; assumption. }
  rewrite <- (firstn_skipn (cap - 1) sorted) in Hin. apply in_app_or in Hin.
  destruct Hin as [Hin|Hin].
  - exfalso. apply Hout. unfold rows. apply in_map_iff. now exists (j, r).
  - unfold rows in Hr'. apply in_map_iff in Hr'. destruct Hr' as (y & <- & Hy).
    assert (Hs : StronglySorted (le_row LatestCity.City) sorted)
      by apply sort_values_sorted.
    exact (sorted_head_le (cap - 1) Hs y (j, r) Hy Hin).
Qed.

(** On a latest table, the rows of the other cities are all rows but
    the worst one. *)
Lemma others_perm (t : Frame LatestCity.row) (i : nat) (w : LatestCity.row) :
  LatestTable t -> In (i, w) t ->
  Permutation t
    ((i, w) :: filter (fun x => ne_name (LatestCity.City (snd x)) (LatestCity.City w)) t).
Proof.
  intros [Hidx Hnamed Hone] Hin.
  assert (Hcw : exists c, LatestCity.City w = Some c).
  { destruct (LatestCity.City w) as [c|] eqn:E; [eauto|].
    exfalso. apply (Hnamed (i, w) Hin). exact E. }
  destruct Hcw as (c & Hc).
  clear Hidx. induction t as [|x t IH]; [contradiction|].
  simpl in Hone. apply NoDup_cons_iff in Hone. destruct Hone as [Hx Hone].
  assert (Hnamed' : forall y, In y t -> LatestCity.City (snd y) <> None).
  { intros y Hy. apply Hnamed. now right. }
  destruct Hin as [->|Hin].
  - simpl. rewrite Hc. simpl. rewrite String.eqb_refl. simpl.
    constructor.
    assert (Hall : forall y, In y t ->
               ne_name (LatestCity.City (snd y)) (Some c) = true).
    { intros y Hy. destruct (ne_name (LatestCity.City (snd y)) (Some c)) eqn:E;
        [reflexivity|].
      apply ne_name_false in E. destruct E as (s & E1 & E2). inversion E2; subst s.
      exfalso. apply Hx. unfold col. simpl. rewrite Hc, <- E1.
      apply in_map_iff. now exists y. }
    clear - Hall. induction t as [|y t IH]; simpl; [constructor|].
    rewrite (Hall y (or_introl eq_refl)). constructor.
    apply IH. intros z Hz. apply Hall. now right.
  - specialize (IH Hnamed' Hone Hin). simpl.
    assert (Hne : ne_name (LatestCity.City (snd x)) (LatestCity.City w) = true).
    { destruct (ne_name (LatestCity.City (snd x)) (LatestCity.City w)) eqn:E;
        [reflexivity|].
      apply ne_name_false in E. destruct E as (s & E1 & E2).
      exfalso. apply Hx. unfold col at 1. rewrite E1, <- E2.
      apply in_map_iff. now exists (i, w). }
    rewrite Hne. rewrite perm_swap. now constructor.
Qed.

Lemma sample_cities_length (cap : nat) (t : Frame LatestCity.row) (i : nat)
      (w : LatestCity.row) :
  LatestTable t -> In (i, w) t ->
  List.length (sample_cities cap t w) = Nat.min (cap - 1) (List.length t - 1).
Proof.
  intros HL Hin. pose proof (@others_perm t i w HL Hin) as Hperm.
  apply Permutation_length in Hperm. simpl in Hperm.
  unfold sample_cities, head. rewrite length_firstn, sort_values_length. lia.
Qed.

(** The station sample is the first [cap] rows in ascending order of
    station name: it is sorted, it takes rows of the table, each at most
    once, and what it leaves out comes no earlier than what it takes. *)
Lemma context_stations_df_slice (cap : nat) (ts : Frame LatestStation.row) :
  List.length (context_stations_df cap ts) = Nat.min cap (List.length ts) /\
  by_station_name (context_stations_df cap ts) /\
  exists left_out,
    Permutation (context_stations_df cap ts ++ left_out) (rows ts) /\
    forall a b, In a (context_stations_df cap ts) -> In b left_out ->
                le_name (LatestStation.StationName a) (LatestStation.StationName b) = true.
Proof.
  unfold context_stations_df, reset_index.
  set (sorted := sort_values LatestStation.StationName ts).
  assert (Hs : StronglySorted (le_row LatestStation.StationName) sorted)
    by apply sort_values_sorted.
  split; [|split].
  - rewrite length_map. unfold head, sorted.
    now rewrite length_firstn, sort_values_length.
  - unfold by_station_name.
    apply (@StronglySorted_rows _ LatestStation.StationName).
    now apply sorted_head.
  - exists (map snd (skipn cap sorted)). split.
    + unfold head, rows. rewrite <- map_app, firstn_skipn.
      apply Permutation_map. apply sort_values_perm.
    + intros a b Ha Hb. apply in_map_iff in Ha. destruct Ha as (x & <- & Hx).
      apply in_map_iff in Hb. destruct Hb as (y & <- & Hy).
      exact (sorted_head_le cap Hs x y Hx Hy).
Qed.

End Sampler.

(* ================================================================== *)
(** ** [read_csv]: the default index *)

Section ReadCsvFacts.
Variable R : Type.

Lemma combine_seq_In (rs : list R) (s i : nat) (r : R) :
  In (i, r) (combine (seq s (List.length rs)) rs) <->
  exists k, i = s + k /\ nth_error rs k = Some r.
Proof.
  revert s. induction rs as [|x rs IH]; intros s; simpl.
  - split; [intros []|]. intros (k & _ & H). destruct k; discriminate.
  - rewrite IH. split.
    + intros [Heq|(k & -> & Hk)].
      * inversion Heq; subst. exists 0. split; [lia|reflexivity].
      * exists (S k). split; [lia|exact Hk].
    + intros ([|k] & -> & Hk); simpl in Hk.
      * left. inversion Hk. f_equal. lia.
      * right. exists k. split; [lia|exact Hk].
Qed.

Lemma read_csv_In (rs : list R) (i : nat) (r : R) :
  In (i, r) (read_csv rs) <-> nth_error rs i = Some r.
Proof.
  unfold read_csv. rewrite combine_seq_In. split.
  - intros (k & -> & H). exact H.
  - intros H. now exists i.
Qed.

Lemma read_csv_labels (rs : list R) : map fst (read_csv rs) = seq 0 (List.length rs).
Proof.
  unfold read_csv. generalize 0 as s.
  induction rs as [|x rs IH]; intros s; simpl; [reflexivity|]. now rewrite IH.
Qed.

Lemma read_csv_rows (rs : list R) : rows (read_csv rs) = rs.
Proof.
  unfold read_csv, rows. generalize 0 as s.
  induction rs as [|x rs IH]; intros s; simpl; [reflexivity|]. now rewrite IH.
Qed.

Lemma read_csv_NoDup (rs : list R) : NoDup (map fst (read_csv rs)).
Proof. rewrite read_csv_labels. apply seq_NoDup. Qed.

Lemma seq_increasing (s n : nat) : StronglySorted lt (seq s n).
Proof.
  revert s. induction n as [|n IH]; intros s; simpl; constructor; [apply IH|].
  apply Forall_forall. intros x Hx. apply in_seq in Hx. lia.
Qed.

Lemma read_csv_increasing (rs : list R) : increasing (read_csv rs).
Proof. unfold increasing. rewrite read_csv_labels. apply seq_increasing. Qed.

Lemma filter_increasing (p : nat * R -> bool) (df : Frame R) :
  increasing df -> increasing (filter p df).
Proof.
  unfold increasing. induction df as [|x df IH]; simpl; intros H; [constructor|].
  inversion H as [|? ? Hs Hx]; subst.
  destruct (p x); simpl; [|now apply IH].
  constructor; [now apply IH|].
  apply Forall_forall. intros j Hj. rewrite Forall_forall in Hx. apply Hx.
  apply in_map_iff in Hj. destruct Hj as (y & <- & Hy).
  apply filter_In in Hy. apply in_map. tauto.
Qed.

Lemma increasing_split (l1 l2 : Frame R) (x y : nat * R) :
  increasing (l1 ++ x :: l2) -> In y l2 -> fst x < fst y.
Proof.
  unfold increasing. induction l1 as [|z l1 IH]; simpl; intros H Hy.
  - inversion H as [|? ? _ Hx]; subst. rewrite Forall_forall in Hx.
    apply Hx. now apply in_map.
  - inversion H; subst. now apply IH.
Qed.

End ReadCsvFacts.

(* ================================================================== *)
(** ** The group keys of [groupby] *)

Lemma mem_key_In (k : string) (l : list string) : mem_key k l = true <-> In k l.
Proof.
  induction l as [|y l IH]; simpl; [split; [discriminate|intros []]|].
  rewrite orb_true_iff, IH, String.eqb_eq. split; intros [H|H]; auto.
Qed.

Lemma distinct_keys_In (k : string) (l : list string) :
  In k (distinct_keys l) <-> In k l.
Proof.
  induction l as [|y l IH]; simpl; [tauto|].
  destruct (mem_key y l) eqn:E.
  - rewrite IH. split; [auto|]. intros [<-|H]; [now apply mem_key_In|assumption].
  - simpl. rewrite IH. tauto.
Qed.

Lemma distinct_keys_NoDup (l : list string) : NoDup (distinct_keys l).
Proof.
  induction l as [|y l IH]; simpl; [constructor|].
  destruct (mem_key y l) eqn:E; [assumption|].
  constructor; [|assumption].
  rewrite distinct_keys_In. intros H. apply mem_key_In in H. congruence.
Qed.

Lemma insert_key_perm (k : string) (l : list string) :
  Permutation (insert_key k l) (k :: l).
Proof.
  induction l as [|y l IH]; simpl; [reflexivity|].
  destruct (String.leb k y); [reflexivity|].
  rewrite IH. apply perm_swap.
Qed.

Lemma sort_keys_perm (l : list string) : Permutation (sort_keys l) l.
Proof.
  induction l as [|k l IH]; simpl; [reflexivity|].
  rewrite insert_key_perm. now constructor.
Qed.

Lemma insert_key_sorted (k : string) (l : list string) :
  StronglySorted (fun a b => String.leb a b = true) l ->
  StronglySorted (fun a b => String.leb a b = true) (insert_key k l).
Proof.
  induction l as [|y l IH]; simpl; intros Hs; [repeat constructor|].
  inversion Hs as [|? ? Hl Hy]; subst.
  destruct (String.leb k y) eqn:E.
  - constructor; [assumption|]. constructor; [exact E|].
    eapply Forall_impl; [|exact Hy]. intros z Hz. simpl in Hz.
    eapply StrOrd.leb_trans; eassumption.
  - constructor; [now apply IH|].
    apply Forall_forall. intros z Hz.
    apply (Permutation_in _ (insert_key_perm k l)) in Hz.
    destruct Hz as [<-|Hz]; [now apply StrOrd.leb_false_ge|].
    rewrite Forall_forall in Hy. now apply Hy.
Qed.

Lemma sort_keys_sorted (l : list string) :
  StronglySorted (fun a b => String.leb a b = true) (sort_keys l).
Proof.
  induction l as [|k l IH]; simpl; [constructor|]. now apply insert_key_sorted.
Qed.

Section GroupKeysFacts.
Variable R : Type.
Variable key : R -> option string.

Lemma keys_of_In (df : Frame R) (k : string) :
  In k (keys_of key df) <-> exists x, In x df /\ key (snd x) = Some k.
Proof.
  induction df as [|[i r] df IH]; simpl.
  - split; [intros []|intros (x & [] & _)].
  - destruct (key r) as [k'|] eqn:E; simpl; rewrite IH; split.
    + intros [<-|(x & Hx & Hk)]; [exists (i, r); auto|exists x; auto].
    + intros (x & [<-|Hx] & Hk); simpl in *; [left; congruence|right; eauto].
    + intros (x & Hx & Hk). exists x; auto.
    + intros (x & [<-|Hx] & Hk); simpl in *; [congruence|eauto].
Qed.

Lemma group_keys_In (df : Frame R) (k : string) :
  In k (group_keys key df) <-> exists x, In x df /\ key (snd x) = Some k.
Proof.
  unfold group_keys. rewrite <- keys_of_In.
  rewrite <- (distinct_keys_In k (keys_of key df)). split.
  - apply Permutation_in, sort_keys_perm.
  - apply Permutation_in. symmetry. apply sort_keys_perm.
Qed.

Lemma group_keys_NoDup (df : Frame R) : NoDup (group_keys key df).
Proof.
  unfold group_keys. eapply Permutation_NoDup.
  - symmetry. apply sort_keys_perm.
  - apply distinct_keys_NoDup.
Qed.

Lemma group_keys_sorted (df : Frame R) :
  StronglySorted (fun a b => String.leb a b = true) (group_keys key df).
Proof. apply sort_keys_sorted. Qed.

Lemma group_In (df : Frame R) (k : string) (x : nat * R) :
  In x (group key df k) <-> In x df /\ key (snd x) = Some k.
Proof.
  unfold group, in_group. rewrite filter_In, eq_name_true. tauto.
Qed.

End GroupKeysFacts.

(* ================================================================== *)
(** ** Latest selection: [df.loc[df.groupby(key)['Date'].idxmax()]] *)

Section LatestRowsFacts.
Variable R : Type.
Variable key : R -> option string.
Variable date : R -> option Z.
Variable source : list R.

Local Abbreviation df := (read_csv source).

Lemma dates_In (k : string) (i : nat) (o : option Z) :
  In (i, o) (dates date (group key df k)) <->
  exists r, nth_error source i = Some r /\ key r = Some k /\ date r = o.
Proof.
  unfold dates. rewrite in_map_iff. split.
  - intros ([j r] & Heq & Hin). simpl in Heq. inversion Heq; subst.
    apply group_In in Hin. destruct Hin as [Hin Hk]. apply read_csv_In in Hin.
    exists r. auto.
  - intros (r & Hn & Hk & Hd). exists (i, r). split; [simpl; now rewrite Hd|].
    apply group_In. split; [now apply read_csv_In|exact Hk].
Qed.

Lemma dates_increasing (k : string) : increasing (dates date (group key df k)).
Proof.
  unfold increasing, dates. rewrite map_map. simpl.
  apply (filter_increasing (in_group key k) (read_csv_increasing source)).
Qed.

Lemma argmax_group_latest (k : string) (i : nat) (d : Z) :
  argmax Z.ltb (dates date (group key df k)) = Some (i, d) ->
  exists r, latest_of key date source k i r /\ date r = Some d.
Proof.
  intros E.
  pose proof (argmax_In _ _ E) as Hin. apply dates_In in Hin.
  destruct Hin as (r & Hn & Hk & Hd).
  exists r. split; [|exact Hd].
  split; [exact Hn|]. split; [exact Hk|]. exists d. split; [exact Hd|].
  intros j r' d' Hn' Hk' Hd'.
  assert (Hin' : In (j, Some d') (dates date (group key df k))).
  { apply dates_In. exists r'. auto. }
  split.
  - pose proof (argmax_max Z.ltb Zltb_irrefl Zltb_asym Zltb_neg_trans _ E j d' Hin') as H.
    apply Z.ltb_ge in H. exact H.
  - intros ->.
    destruct (argmax_first _ _ E) as (s1 & s2 & Hs & Hlt).
    rewrite Hs in Hin'. apply in_app_or in Hin'. destruct Hin' as [H1|[Heq|H2]].
    + apply Hlt in H1. rewrite Z.ltb_irrefl in H1. discriminate.
    + inversion Heq. lia.
    + pose proof (dates_increasing k) as Hinc. rewrite Hs in Hinc.
      assert (Hlt' : fst (i, Some d) < fst (j, Some d))
        by (eapply increasing_split; eassumption).
      simpl in Hlt'. lia.
Qed.

Lemma latest_of_unique (k : string) (i i' : nat) (r r' : R) :
  latest_of key date source k i r -> latest_of key date source k i' r' ->
  i = i' /\ r = r'.
Proof.
  intros (Hn & Hk & d & Hd & Hmax) (Hn' & Hk' & d' & Hd' & Hmax').
  destruct (Hmax i' r' d' Hn' Hk' Hd') as [Hle Hfirst].
  destruct (Hmax' i r d Hn Hk Hd) as [Hle' Hfirst'].
  assert (d' = d) by lia. subst d'.
  assert (i = i') by (specialize (Hfirst eq_refl); specialize (Hfirst' eq_refl); lia).
  subst i'. split; [reflexivity|congruence].
Qed.

(** The entity of a row is read off the row. *)
Lemma latest_of_key (k k' : string) (i : nat) (r r' : R) :
  latest_of key date source k i r -> latest_of key date source k' i r' -> k = k'.
Proof.
  intros (Hn & Hk & _) (Hn' & Hk' & _). congruence.
Qed.

Lemma idxmax_group_latest (k : string) (i : nat) :
  idxmax Z.ltb (dates date (group key df k)) = Some i <->
  exists r, latest_of key date source k i r.
Proof.
  rewrite idxmax_Some. split.
  - intros (d & E). destruct (argmax_group_latest _ E) as (r & H & _). now exists r.
  - intros (r & H).
    destruct (argmax Z.ltb (dates date (group key df k))) as [[i' d']|] eqn:E.
    + destruct (argmax_group_latest _ E) as (r' & H' & _).
      destruct (latest_of_unique H H') as [-> _]. now exists d'.
    + exfalso. destruct H as (Hn & Hk & d & Hd & _).
      pose proof (proj1 (argmax_None Z.ltb _) E (i, Some d)) as Hnone.
      assert (Hin : In (i, Some d) (dates date (group key df k))).
      { apply dates_In. exists r. auto. }
      specialize (Hnone Hin). discriminate.
Qed.

(** A group has a latest row exactly when one of its rows has a date. *)
Lemma idxmax_group_defined (k : string) :
  (exists i, idxmax Z.ltb (dates date (group key df k)) = Some i) <->
  dated key date source k.
Proof.
  split.
  - intros (i & H). apply idxmax_group_latest in H.
    destruct H as (r & Hn & Hk & d & Hd & _).
    exists r, d. split; [eapply nth_error_In; eassumption|auto].
  - intros (r & d & Hin & Hk & Hd).
    apply In_nth_error in Hin. destruct Hin as (i & Hn).
    unfold idxmax.
    destruct (argmax Z.ltb (dates date (group key df k))) as [[i' d']|] eqn:E.
    + now exists i'.
    + exfalso.
      pose proof (proj1 (argmax_None Z.ltb _) E (i, Some d)) as Hnone.
      assert (Hin : In (i, Some d) (dates date (group key df k))).
      { apply dates_In. exists r. auto. }
      specialize (Hnone Hin). discriminate.
Qed.

Lemma idxmax_per_group_Some (ks : list string) (labels : list nat) :
  idxmax_per_group key date df ks = Some labels <->
  Forall2 (fun k i => exists r, latest_of key date source k i r) ks labels.
Proof.
  revert labels. induction ks as [|k ks IH]; intros labels; simpl.
  - split.
    + intros H. inversion H. constructor.
    + intros H. inversion H. reflexivity.
  - split.
    + destruct (idxmax Z.ltb (dates date (group key df k))) as [i|] eqn:E; [|discriminate].
      destruct (idxmax_per_group key date df ks) as [rest|] eqn:E'; [|discriminate].
      intros H. inversion H; subst. constructor.
      * now apply idxmax_group_latest.
      * now apply IH.
    + intros H. inversion H as [|? i ? rest Hk Hrest]; subst.
      apply idxmax_group_latest in Hk. rewrite Hk.
      apply IH in Hrest. now rewrite Hrest.
Qed.

Lemma idxmax_per_group_None (ks : list string) :
  idxmax_per_group key date df ks = None <-> exists k, In k ks /\ ~ dated key date source k.
Proof.
  induction ks as [|k ks IH]; simpl.
  - split; [discriminate|intros (k & [] & _)].
  - destruct (idxmax Z.ltb (dates date (group key df k))) as [i|] eqn:E.
    + assert (Hd : dated key date source k) by (apply idxmax_group_defined; eauto).
      destruct (idxmax_per_group key date df ks) as [rest|] eqn:E'.
      * split; [discriminate|].
        intros (k' & [<-|Hin] & Hn); [contradiction|].
        assert (X : Some rest = None) by (apply IH; eauto).
        discriminate.
      * split; [|reflexivity]. intros _.
        destruct (proj1 IH eq_refl) as (k' & Hin & Hn). exists k'. auto.
    + split; [|reflexivity]. intros _. exists k. split; [now left|].
      intros Hd. apply idxmax_group_defined in Hd. destruct Hd as (i & Hi). congruence.
Qed.

Lemma loc_Some (labels : list nat) (out : Frame R) :
  loc df labels = Some out <->
  Forall2 (fun i x => fst x = i /\ nth_error source i = Some (snd x)) labels out.
Proof.
  revert out. induction labels as [|i labels IH]; intros out; simpl.
  - split; intros H; inversion H; [constructor|reflexivity].
  - split.
    + destruct (loc1 df i) as [r|] eqn:E; [|discriminate].
      destruct (loc df labels) as [rest|] eqn:E'; [|discriminate].
      intros H. inversion H; subst. constructor.
      * simpl. split; [reflexivity|]. apply read_csv_In. now apply loc1_In.
      * now apply IH.
    + intros H. inversion H as [|? [j r] ? rest [Hj Hn] Hrest]; subst.
      simpl in *. apply read_csv_In in Hn.
      rewrite (In_loc1 _ _ _ (read_csv_NoDup source) Hn).
      apply IH in Hrest. now rewrite Hrest.
Qed.

End LatestRowsFacts.

Section LatestRowsSpec.
Variable R : Type.
Variable key : R -> option string.
Variable date : R -> option Z.
Variable source : list R.

Local Abbreviation df := (read_csv source).
Local Abbreviation latest := (latest_of key date source).

Lemma Forall2_compose (A B C : Type) (P : A -> B -> Prop) (Q : B -> C -> Prop)
      (la : list A) (lb : list B) (lc : list C) :
  Forall2 P la lb -> Forall2 Q lb lc ->
  Forall2 (fun a c => exists b, P a b /\ Q b c) la lc.
Proof.
  intros H. revert lc. induction H as [|a b la lb Hab _ IH]; intros lc HQ.
  - inversion HQ. constructor.
  - inversion HQ; subst. constructor; [eauto|now apply IH].
Qed.

Lemma Forall2_In_r (A B : Type) (P : A -> B -> Prop) (la : list A) (lb : list B) (b : B) :
  Forall2 P la lb -> In b lb -> exists a, In a la /\ P a b.
Proof.
  induction 1 as [|a b' la lb Hab _ IH]; intros Hin; [contradiction|].
  destruct Hin as [<-|Hin].
  - exists a. split; [now left|assumption].
  - destruct (IH Hin) as (a' & Ha & HP). exists a'. split; [now right|assumption].
Qed.

Lemma Forall2_In_l (A B : Type) (P : A -> B -> Prop) (la : list A) (lb : list B) (a : A) :
  Forall2 P la lb -> In a la -> exists b, In b lb /\ P a b.
Proof.
  induction 1 as [|a' b la lb Hab _ IH]; intros Hin; [contradiction|].
  destruct Hin as [<-|Hin].
  - exists b. split; [now left|assumption].
  - destruct (IH Hin) as (b' & Hb & HP). exists b'. split; [now right|assumption].
Qed.

(** Selection succeeds exactly with one row per group key, in key order,
    each the latest of its entity. *)
Lemma latest_rows_Some (out : Frame R) :
  latest_rows key date df = Some out <->
  Forall2 (fun k x => latest k (fst x) (snd x)) (group_keys key df) out.
Proof.
  unfold latest_rows, groupby_idxmax. split.
  - destruct (idxmax_per_group key date df (group_keys key df)) as [labels|] eqn:E;
      [|discriminate].
    intros L. apply idxmax_per_group_Some in E. apply loc_Some in L.
    pose proof (Forall2_compose E L) as H.
    eapply Forall2_impl; [|exact H].
    intros k [i r] (j & (r' & Hl) & Hj & Hn). simpl in *. subst j.
    destruct Hl as (Hn' & Hrest). assert (r' = r) by congruence. subst r'.
    split; assumption.
  - intros H.
    assert (E : idxmax_per_group key date df (group_keys key df) = Some (map fst out)).
    { apply idxmax_per_group_Some.
      induction H as [|k x ks out' Hkx _ IH]; simpl; constructor; [|exact IH].
      now exists (snd x). }
    rewrite E. apply loc_Some.
    clear E. induction H as [|k x ks out' Hkx _ IH]; simpl; constructor; [|exact IH].
    split; [reflexivity|]. now destruct Hkx.
Qed.

Lemma latest_rows_In (out : Frame R) (i : nat) (r : R) :
  latest_rows key date df = Some out ->
  (In (i, r) out <-> exists k, latest k i r).
Proof.
  intros H. apply latest_rows_Some in H. split.
  - intros Hin. destruct (Forall2_In_r _ H Hin) as (k & _ & Hk). now exists k.
  - intros (k & Hk).
    assert (Hin : In k (group_keys key df)).
    { apply group_keys_In. exists (i, r). destruct Hk as (Hn & Hkey & _).
      split; [now apply read_csv_In|exact Hkey]. }
    destruct (Forall2_In_l _ H Hin) as ([j x] & Hx & Hl). simpl in Hl.
    destruct (latest_of_unique Hk Hl) as [-> ->]. exact Hx.
Qed.

(** Every entity of the source has its selected row. *)
Lemma latest_rows_every_key (out : Frame R) :
  latest_rows key date df = Some out ->
  forall k, occurs key source k -> exists i r, In (i, r) out /\ latest k i r.
Proof.
  intros H k (r & Hin & Hk). apply latest_rows_Some in H.
  apply In_nth_error in Hin. destruct Hin as (i & Hn).
  assert (Hg : In k (group_keys key df)).
  { apply group_keys_In. exists (i, r). split; [now apply read_csv_In|exact Hk]. }
  destruct (Forall2_In_l _ H Hg) as ([j x] & Hx & Hl).
  exists j, x. split; assumption.
Qed.

Lemma latest_rows_keys (out : Frame R) :
  latest_rows key date df = Some out ->
  map (col key) out = map Some (group_keys key df).
Proof.
  intros H. apply latest_rows_Some in H.
  induction H as [|k x ks out' Hkx _ IH]; simpl; [reflexivity|].
  f_equal; [|exact IH]. unfold col. now destruct Hkx as (_ & Hk & _).
Qed.

Lemma NoDup_map_Some (A : Type) (l : list A) : NoDup l -> NoDup (map Some l).
Proof.
  induction 1 as [|a l Ha _ IH]; simpl; constructor; [|exact IH].
  intros Hin. apply in_map_iff in Hin. destruct Hin as (b & Hb & Hin).
  inversion Hb; subst. contradiction.
Qed.

Lemma latest_rows_one_per_key (out : Frame R) :
  latest_rows key date df = Some out -> NoDup (map (col key) out).
Proof.
  intros H. rewrite (latest_rows_keys H).
  apply NoDup_map_Some, group_keys_NoDup.
Qed.

Lemma latest_rows_unique_index (out : Frame R) :
  latest_rows key date df = Some out -> NoDup (map fst out).
Proof.
  intros H. pose proof (latest_rows_one_per_key H) as Hk.
  apply latest_rows_Some in H.
  assert (Hrow : forall x, In x out -> nth_error source (fst x) = Some (snd x)).
  { intros x Hx. destruct (Forall2_In_r _ H Hx) as (k & _ & Hn & _). exact Hn. }
  clear H. induction out as [|x out IH]; simpl; [constructor|].
  simpl in Hk. inversion Hk as [|? ? Hx Hk']; subst.
  constructor.
  - intros Hin. apply in_map_iff in Hin. destruct Hin as (y & Hy & Hin).
    apply Hx. apply in_map_iff. exists y. split; [|exact Hin].
    unfold col. f_equal.
    pose proof (Hrow x (or_introl eq_refl)) as Hx'.
    pose proof (Hrow y (or_intror Hin)) as Hy'.
    rewrite Hy in Hy'. congruence.
  - apply IH; [exact Hk'|]. intros y Hy. apply Hrow. now right.
Qed.

(** Selection is defined exactly when every entity of the source has a
    row with a date. *)
Lemma latest_rows_defined :
  (exists out, latest_rows key date df = Some out) <->
  (forall k, occurs key source k -> dated key date source k).
Proof.
  split.
  - intros (out & H) k (r & Hin & Hk).
    apply latest_rows_Some in H.
    apply In_nth_error in Hin. destruct Hin as (i & Hn).
    assert (Hg : In k (group_keys key df)).
    { apply group_keys_In. exists (i, r). split; [now apply read_csv_In|exact Hk]. }
    destruct (Forall2_In_l _ H Hg) as (x & _ & Hn' & Hk' & d & Hd & _).
    exists (snd x), d. split; [eapply nth_error_In; eassumption|auto].
  - intros Hall. unfold latest_rows, groupby_idxmax.
    destruct (idxmax_per_group key date df (group_keys key df)) as [labels|] eqn:E.
    + pose proof E as E2. apply idxmax_per_group_Some in E2.
      assert (L : exists out, Forall2 (fun i x => fst x = i /\ nth_error source i = Some (snd x)) labels out).
      { clear E. induction E2 as [|k i ks ls (r & Hr) _ IH].
        - exists []. constructor.
        - destruct IH as (out & Hout). exists ((i, r) :: out).
          constructor; [|exact Hout]. split; [reflexivity|]. now destruct Hr. }
      destruct L as (out & Hout). exists out. now apply loc_Some.
    + exfalso. apply idxmax_per_group_None in E. destruct E as (k & Hin & Hn).
      apply Hn, Hall. apply group_keys_In in Hin. destruct Hin as ([i r] & Hin & Hk).
      exists r. split; [|exact Hk]. apply read_csv_In in Hin.
      eapply nth_error_In. exact Hin.
Qed.

End LatestRowsSpec.

(* ================================================================== *)
(** ** [dropna] on AQI, then the coercion *)

Section DropThenCoerce.
Variables A B : Type.
Variable aqi : A -> Cell.
Variable f : A -> B.

Local Abbreviation kept := (kept aqi f).

Lemma kept_In (df : Frame A) (i : nat) (b : B) :
  In (i, b) (kept df) <-> exists a, In (i, a) df /\ isna (aqi a) = false /\ b = f a.
Proof.
  unfold kept. rewrite in_map_iff. split.
  - intros ([j a] & Heq & Hin). simpl in Heq. inversion Heq; subst.
    apply filter_In in Hin. destruct Hin as [Hin Hna]. simpl in Hna.
    apply negb_true_iff in Hna. now exists a.
  - intros (a & Hin & Hna & ->). exists (i, a). split; [reflexivity|].
    apply filter_In. split; [assumption|]. simpl. now rewrite Hna.
Qed.

Lemma kept_labels (df : Frame A) : NoDup (map fst df) -> NoDup (map fst (kept df)).
Proof.
  intros H. unfold kept. rewrite map_map. simpl.
  now apply NoDup_map_filter.
Qed.

(** A row without AQI leaves no trace under its label. *)
Lemma dropped (df : Frame A) (i : nat) (a : A) :
  NoDup (map fst df) -> In (i, a) df -> isna (aqi a) = true ->
  forall b, ~ In (i, b) (kept df).
Proof.
  intros Hnd Hin Hna b Hb. apply kept_In in Hb.
  destruct Hb as (a' & Hin' & Hna' & _).
  assert (a' = a).
  { pose proof (In_loc1 _ _ _ Hnd Hin). pose proof (In_loc1 _ _ _ Hnd Hin'). congruence. }
  subst. congruence.
Qed.

End DropThenCoerce.

(* ================================================================== *)
(** ** The loader *)

Section LoaderFacts.
Import Loader.

Lemma latest_city_data_kept (city_day : Frame CityDay.row) :
  latest_city_data city_day =
  option_map (kept CityDay.AQI coerce_city) (latest_city city_day).
Proof. unfold latest_city_data. now destruct (latest_city city_day). Qed.

Lemma latest_station_data_kept (station_day : Frame StationDay.row)
      (stations : Frame Stations.row) :
  latest_station_data station_day stations =
  option_map (fun df => kept (fun m => StationDay.AQI (day m)) coerce_station
                             (merge_left df stations))
             (latest_station_rows station_day).
Proof. unfold latest_station_data. now destruct (latest_station_rows station_day). Qed.

Lemma kept_city_col (out : Frame CityDay.row) :
  map (col LatestCity.City) (kept CityDay.AQI coerce_city out) =
  map (col CityDay.City)
      (filter (fun x => negb (isna (CityDay.AQI (snd x)))) out).
Proof. unfold kept. rewrite map_map. reflexivity. Qed.

(** What the loader returns for the cities is a latest table. *)
Lemma latest_city_data_LatestTable (source : list CityDay.row) (t : Frame LatestCity.row) :
  latest_city_data (read_csv source) = Some t -> LatestTable t.
Proof.
  rewrite latest_city_data_kept. unfold latest_city.
  destruct (latest_rows CityDay.City CityDay.Date (read_csv source)) as [out|] eqn:E;
    [|discriminate].
  simpl. intros H. inversion H; subst. clear H. constructor.
  - apply kept_labels. eapply latest_rows_unique_index. exact E.
  - intros [i r'] Hx. apply kept_In in Hx. destruct Hx as (r & Hin & _ & ->).
    apply (latest_rows_In _ _ _ i r E) in Hin. destruct Hin as (k & _ & Hk & _).
    simpl. rewrite Hk. discriminate.
  - rewrite kept_city_col. apply NoDup_map_filter.
    eapply latest_rows_one_per_key. exact E.
Qed.

(** The table lists the cities in ascending order of their names. *)
Lemma latest_city_data_sorted (source : list CityDay.row) (t : Frame LatestCity.row) :
  latest_city_data (read_csv source) = Some t ->
  StronglySorted (le_row LatestCity.City) t.
Proof.
  rewrite latest_city_data_kept. unfold latest_city.
  destruct (latest_rows CityDay.City CityDay.Date (read_csv source)) as [out|] eqn:E;
    [|discriminate].
  simpl. intros H. inversion H; subst. clear H.
  pose proof (latest_rows_keys _ _ _ E) as Hk.
  pose proof (group_keys_sorted CityDay.City (read_csv source)) as Hs.
  revert Hk Hs. generalize (group_keys CityDay.City (read_csv source)) as ks.
  clear E. induction out as [|x out IH]; intros ks Hk Hs; [constructor|].
  destruct ks as [|k ks]; [discriminate|]. simpl in Hk. inversion Hk as [[Hx Hrest]].
  inversion Hs as [|? ? Hs' Hall]; subst.
  unfold kept. simpl.
  assert (Htail : Forall (fun y => le_name (Some k) (col CityDay.City y) = true) out).
  { apply Forall_forall. intros y Hy.
    assert (Hin : In (col CityDay.City y) (map (col CityDay.City) out)) by now apply in_map.
    rewrite Hrest in Hin. apply in_map_iff in Hin. destruct Hin as (k' & <- & Hk').
    rewrite Forall_forall in Hall. simpl. now apply Hall. }
  destruct (negb (isna (CityDay.AQI (snd x)))); simpl; [|now apply (IH ks)].
  constructor; [now apply (IH ks)|].
  apply Forall_forall. intros y Hy. apply in_map_iff in Hy.
  destruct Hy as (z & <- & Hz). apply filter_In in Hz. destruct Hz as [Hz _].
  rewrite Forall_forall in Htail. unfold le_row. simpl.
  unfold col in Hx. rewrite Hx. now apply Htail.
Qed.

(** The stations are selected the same way, by station id. *)
Lemma latest_station_rows_select (source : list StationDay.row)
      (out : Frame StationDay.row) :
  latest_station_rows (read_csv source) = Some out ->
  NoDup (map (col StationDay.StationId) out) /\
  forall i r, In (i, r) out <->
              exists k, latest_of StationDay.StationId StationDay.Date source k i r.
Proof.
  intros H. split.
  - eapply latest_rows_one_per_key. exact H.
  - intros i r. apply (latest_rows_In _ _ _ i r H).
Qed.

Lemma filter_key_le1 (A : Type) (f : A -> option string) (k : option string) (l : list A) :
  NoDup (map f l) -> List.length (filter (fun m => eq_name (f m) k) l) <= 1.
Proof.
  induction l as [|x l IH]; simpl; intros Hnd; [lia|].
  apply NoDup_cons_iff in Hnd. destruct Hnd as [Hx Hl].
  destruct (eq_name (f x) k) eqn:E; [|now apply IH].
  simpl. apply eq_name_true in E.
  assert (Hnil : filter (fun m => eq_name (f m) k) l = []).
  { destruct (filter (fun m => eq_name (f m) k) l) as [|y tl] eqn:F; [reflexivity|].
    exfalso. assert (Hy : In y (filter (fun m => eq_name (f m) k) l))
      by (rewrite F; now left).
    apply filter_In in Hy. destruct Hy as [Hy Ey]. apply eq_name_true in Ey.
    apply Hx. rewrite E, <- Ey. now apply in_map. }
  rewrite Hnil. simpl. lia.
Qed.

(** The left join never loses a station row, and yields exactly one row
    for it when the metadata lists no station id twice. *)
Lemma merge_row_length (stations : Frame Stations.row) (r : StationDay.row) :
  1 <= List.length (merge_row stations r) /\
  (NoDup (map (fun m => Stations.StationId (snd m)) stations) ->
   List.length (merge_row stations r) = 1).
Proof.
  unfold merge_row.
  pose proof (@filter_key_le1 _ (fun m : nat * Stations.row => Stations.StationId (snd m))
                (StationDay.StationId r) stations) as Hle.
  destruct (filter _ stations) as [|m ms]; simpl.
  - split; [lia|reflexivity].
  - rewrite length_map. split; [lia|]. intros Hnd. specialize (Hle Hnd).
    simpl in Hle. lia.
Qed.

Lemma merge_left_rows (df : Frame StationDay.row) (stations : Frame Stations.row) :
  rows (merge_left df stations) = flat_map (merge_row stations) (rows df).
Proof.
  unfold merge_left. rewrite read_csv_rows. unfold rows.
  induction df as [|x df IH]; simpl; [reflexivity|]. now rewrite IH.
Qed.

Lemma merge_row_of (stations : Frame Stations.row) (r : StationDay.row) (m : merged) :
  In m (merge_row stations r) -> day m = r.
Proof.
  unfold merge_row. destruct (filter _ stations) as [|y ys].
  - intros [<-|[]]. reflexivity.
  - intros H. apply in_map_iff in H. destruct H as (x & <- & _). reflexivity.
Qed.

Lemma kept_rows (A B : Type) (aqi : A -> Cell) (f : A -> B) (df : Frame A) :
  rows (kept aqi f df) = map f (filter (fun r => negb (isna (aqi r))) (rows df)).
Proof.
  unfold kept, rows. induction df as [|x df IH]; simpl; [reflexivity|].
  destruct (negb (isna (aqi (snd x)))); simpl; now rewrite IH.
Qed.

Lemma filter_constant (A : Type) (p : A -> bool) (b : bool) (l : list A) :
  (forall x, In x l -> p x = b) -> filter p l = if b then l else [].
Proof.
  induction l as [|x l IH]; intros H; simpl; [now destruct b|].
  rewrite (H x (or_introl eq_refl)), IH by (intros y Hy; apply H; now right).
  now destruct b.
Qed.

(** The station table, station by station: the rows of the table are
    the rows that the selected rows turn into, in the order of the
    selection. *)
Lemma latest_station_data_rows (station_day : Frame StationDay.row)
      (stations : Frame Stations.row) (selected : Frame StationDay.row)
      (ts : Frame LatestStation.row) :
  latest_station_rows station_day = Some selected ->
  latest_station_data station_day stations = Some ts ->
  rows ts = flat_map (station_rows stations) (rows selected).
Proof.
  intros Hsel. rewrite latest_station_data_kept, Hsel. simpl.
  intros H. inversion H; subst ts. clear H.
  rewrite kept_rows, merge_left_rows.
  induction (rows selected) as [|r l IH]; simpl; [reflexivity|].
  rewrite filter_app, map_app, IH. f_equal.
  unfold station_rows.
  rewrite (@filter_constant _ (fun m => negb (isna (StationDay.AQI (day m))))
             (negb (isna (StationDay.AQI r))) (merge_row stations r)).
  - now destruct (isna (StationDay.AQI r)).
  - intros m Hm. now rewrite (@merge_row_of stations r m Hm).
Qed.

(** What a selected station row turns into. *)
Lemma station_rows_spec (stations : Frame Stations.row) (r : StationDay.row) :
  (isna (StationDay.AQI r) = true -> station_rows stations r = []) /\
  (isna (StationDay.AQI r) = false ->
   1 <= List.length (station_rows stations r) /\
   (NoDup (map (fun m => Stations.StationId (snd m)) stations) ->
    List.length (station_rows stations r) = 1) /\
   forall row, In row (station_rows stations r) ->
     LatestStation.Date row = StationDay.Date r /\
     LatestStation.AQI row = to_numeric_fillna (StationDay.AQI r) /\
     LatestStation.AQI_Bucket row = StationDay.AQI_Bucket r).
Proof.
  unfold station_rows. split; intros ->; [reflexivity|].
  rewrite length_map. destruct (merge_row_length stations r) as [H1 H2].
  split; [exact H1|]. split; [exact H2|].
  intros row Hrow. apply in_map_iff in Hrow. destruct Hrow as (m & <- & Hm).
  apply merge_row_of in Hm. subst r. repeat split.
Qed.

End LoaderFacts.

(* ================================================================== *)
(** ** The batch loop *)

Section BatchFacts.
Import Batch.

Lemma status_of_SUCCESS (trt : Q) : status_of trt = "SUCCESS" <-> (0 <= trt)%Q.
Proof.
  unfold status_of. destruct (ge_num trt 0) eqn:E.
  - apply ge_num_spec in E. tauto.
  - apply ge_num_false in E. split; [discriminate|].
    intros H. exfalso. eapply Qlt_not_le; eassumption.
Qed.

Lemma status_of_cases (trt : Q) : status_of trt = "SUCCESS" \/ status_of trt = "FAILURE".
Proof. unfold status_of. destruct (ge_num trt 0); auto. Qed.

(** Printing leaves everything but the output alone. *)
Lemma print_frame (l : Line) (w : World) :
  endpoint (print l w) = endpoint w /\
  local_elapsed (print l w) = local_elapsed w /\
  requests (print l w) = requests w /\
  OUTPUT_LOG_FILE (print l w) = OUTPUT_LOG_FILE w.
Proof. repeat split. Qed.

(** *** Where the run stops *)

Lemma first_null_total_time_ext (w w' : World) (n : nat) :
  endpoint w' = endpoint w ->
  forall call, first_null_total_time w' call n = first_null_total_time w call n.
Proof.
  intros He. induction n as [|n IH]; intros call; simpl; [reflexivity|].
  now rewrite He, IH.
Qed.

Lemma first_null_total_time_None (w : World) (n : nat) :
  forall call,
    first_null_total_time w call n = None <->
    forall j, j < n -> null_total_time (endpoint w (call + j)) = false.
Proof.
  induction n as [|n IH]; intros call; simpl.
  - split; [intros _ j Hj; lia|reflexivity].
  - destruct (null_total_time (endpoint w call)) eqn:E.
    + split; [discriminate|]. intros H.
      specialize (H 0 (Nat.lt_0_succ n)). rewrite Nat.add_0_r, E in H. discriminate.
    + destruct (first_null_total_time w (S call) n) as [k|] eqn:F; simpl.
      * split; [discriminate|]. intros H.
        assert (F' : first_null_total_time w (S call) n = None).
        { apply IH. intros j Hj.
          replace (S call + j) with (call + S j) by lia. apply H. lia. }
        congruence.
      * split; [|reflexivity]. intros _ [|j] Hj.
        -- now rewrite Nat.add_0_r.
        -- replace (call + S j) with (S call + j) by lia.
           apply (proj1 (IH (S call)) F). lia.
Qed.

Lemma first_null_total_time_Some (w : World) (n : nat) :
  forall call k,
    first_null_total_time w call n = Some k ->
    k < n /\ null_total_time (endpoint w (call + k)) = true /\
    forall j, j < k -> null_total_time (endpoint w (call + j)) = false.
Proof.
  induction n as [|n IH]; intros call k; simpl; [discriminate|].
  destruct (null_total_time (endpoint w call)) eqn:E.
  - intros H. inversion H; subst. rewrite Nat.add_0_r.
    split; [lia|]. split; [exact E|]. intros j Hj. lia.
  - destruct (first_null_total_time w (S call) n) as [k'|] eqn:F; simpl; [|discriminate].
    intros H. inversion H; subst. destruct (IH _ _ F) as (H1 & H2 & H3).
    split; [lia|]. split.
    + now replace (call + S k') with (S call + k') by lia.
    + intros [|j] Hj; [now rewrite Nat.add_0_r|].
      replace (call + S j) with (S call + j) by lia. apply H3. lia.
Qed.

Lemma calls_made_stop (w : World) (call n : nat) :
  null_total_time (endpoint w call) = true ->
  calls_made w call (S n) = 1 /\ rows_written w call (S n) = 0.
Proof. unfold calls_made, rows_written. simpl. now intros ->. Qed.

Lemma calls_made_step (w : World) (call n : nat) :
  null_total_time (endpoint w call) = false ->
  calls_made w call (S n) = S (calls_made w (S call) n) /\
  rows_written w call (S n) = S (rows_written w (S call) n).
Proof.
  unfold calls_made, rows_written. simpl. intros ->.
  destruct (first_null_total_time w (S call) n); simpl; auto.
Qed.

Lemma calls_made_ext (w w' : World) (call n : nat) :
  endpoint w' = endpoint w ->
  calls_made w' call n = calls_made w call n /\
  rows_written w' call n = rows_written w call n.
Proof.
  intros He. unfold calls_made, rows_written.
  now rewrite (@first_null_total_time_ext w w' n He).
Qed.

Lemma rows_written_le (w : World) (call n : nat) :
  rows_written w call n <= calls_made w call n /\ calls_made w call n <= n.
Proof.
  unfold calls_made, rows_written.
  destruct (first_null_total_time w call n) as [k|] eqn:F; [|lia].
  apply first_null_total_time_Some in F. lia.
Qed.

(** *** One iteration *)

Lemma iteration_flow (total i : nat) (query : string) (w : World) :
  iteration total i query w =
  if null_total_time (endpoint w (List.length (requests w)))
  then raises NONE_GE_INT (world_of (iteration total i query w))
  else goes_on (world_of (iteration total i query w)).
Proof.
  unfold iteration, get_groq_response_and_time, create, null_total_time.
  destruct (Nat.eqb ((i + 1) mod 50) 0); simpl;
    destruct (endpoint w (List.length (requests w))) as [e|c]; simpl;
    try reflexivity;
    destruct (Groq.usage c) as [u|]; simpl; try reflexivity;
    destruct (Groq.total_time u); reflexivity.
Qed.

Lemma iteration_spec (total i : nat) (query : string) (w : World) :
  let w' := world_of (iteration total i query w) in
  endpoint w' = endpoint w /\
  local_elapsed w' = local_elapsed w /\
  List.length (requests w') = S (List.length (requests w)) /\
  GROQ_API_KEY w' = GROQ_API_KEY w /\
  if null_total_time (endpoint w (List.length (requests w)))
  then OUTPUT_LOG_FILE w' = OUTPUT_LOG_FILE w
  else exists res, OUTPUT_LOG_FILE w' = OUTPUT_LOG_FILE w ++ [res] /\
                   recorded w (List.length (requests w)) (i + 1) query res.
Proof.
  assert (Hrec : forall c response t,
             endpoint w (List.length (requests w)) = c ->
             match c with
             | Groq.Raises e =>
                 response = ("API_ERROR: " ++ e)%string /\ t = (-1)%Q
             | Groq.Returns cc =>
                 response = Groq.content cc /\
                 (forall u s, Groq.usage cc = Some u -> Groq.total_time u = Groq.seconds s ->
                              t = s) /\
                 (Groq.usage cc = None \/
                  (exists u, Groq.usage cc = Some u /\
                             Groq.total_time u = Groq.no_attribute) ->
                  t = local_elapsed w (List.length (requests w)))
             end ->
             recorded w (List.length (requests w)) (i + 1) query
                      (mk_result (i + 1) query response t (status_of t))).
  { intros c response t Hc H. unfold recorded. simpl. rewrite Hc.
    split; [reflexivity|]. split; [reflexivity|].
    split; [apply status_of_SUCCESS|]. split; [apply status_of_cases|].
    destruct c as [e|cc].
    - destruct H as [-> ->]. repeat split.
    - exact H. }
  unfold iteration, get_groq_response_and_time, create, null_total_time.
  destruct (Nat.eqb ((i + 1) mod 50) 0); simpl;
    destruct (endpoint w (List.length (requests w))) as [e|c] eqn:E; simpl.
  1, 3: (split; [reflexivity|]); (split; [reflexivity|]);
    (split; [now rewrite length_app, Nat.add_1_r|]); (split; [reflexivity|]);
    eexists; (split; [reflexivity|]);
    apply (Hrec (Groq.Raises e)); [reflexivity|split; reflexivity].
  all: destruct (Groq.usage c) as [u|] eqn:U; simpl;
    [destruct (Groq.total_time u) as [| |s] eqn:T; simpl|];
    (split; [reflexivity|]); (split; [reflexivity|]);
    (split; [now rewrite length_app, Nat.add_1_r|]); (split; [reflexivity|]);
    try reflexivity;
    eexists; (split; [reflexivity|]);
    apply (Hrec (Groq.Returns c)); try reflexivity;
    (split; [reflexivity|]); rewrite U; split.
  all: try (intros u' s' Hu Ht; inversion Hu; subst u'; rewrite T in Ht;
            first [discriminate | now inversion Ht]).
  all: try (intros u' s' Hu Ht; discriminate).
  all: try (intros _; reflexivity).
  all: intros [Hu|(u' & Hu & Ht)]; [discriminate|].
  all: inversion Hu; subst u'; rewrite T in Ht; discriminate.
Qed.

Lemma recorded_ext (w w' : World) (call id : nat) (query : string) (res : BatchResult) :
  endpoint w' = endpoint w -> local_elapsed w' = local_elapsed w ->
  recorded w' call id query res -> recorded w call id query res.
Proof. unfold recorded. intros -> ->. tauto. Qed.

(** *** The loop *)

Lemma loop_cons (total i0 : nat) (q : string) (queries : list string) (w : World) :
  loop total i0 (q :: queries) w =
  if null_total_time (endpoint w (List.length (requests w)))
  then raises NONE_GE_INT (world_of (iteration total i0 q w))
  else loop total (S i0) queries (world_of (iteration total i0 q w)).
Proof.
  simpl. pose proof (iteration_flow total i0 q w) as H.
  destruct (null_total_time (endpoint w (List.length (requests w))));
    rewrite H; reflexivity.
Qed.

(** The loop runs to its end unless a completion holds [None] as its
    [total_time]; then the comparison of line 126 raises. *)
Lemma loop_flow (total : nat) (queries : list string) :
  forall (i0 : nat) (w : World),
    loop total i0 queries w =
    match first_null_total_time w (List.length (requests w)) (List.length queries) with
    | None => goes_on (world_of (loop total i0 queries w))
    | Some _ => raises NONE_GE_INT (world_of (loop total i0 queries w))
    end.
Proof.
  induction queries as [|q queries IH]; intros i0 w; [reflexivity|].
  rewrite loop_cons. simpl List.length. simpl first_null_total_time.
  destruct (null_total_time (endpoint w (List.length (requests w)))) eqn:E;
    [reflexivity|].
  destruct (iteration_spec total i0 q w) as (He & _ & Hr & _).
  rewrite <- Hr, <- (@first_null_total_time_ext w (world_of (iteration total i0 q w)) (List.length queries) He).
  rewrite (IH (S i0) (world_of (iteration total i0 q w))) at 1.
  destruct (first_null_total_time _ _ _); reflexivity.
Qed.

Lemma loop_spec (total : nat) (queries : list string) :
  forall (i0 : nat) (w : World),
    let w' := world_of (loop total i0 queries w) in
    let made := calls_made w (List.length (requests w)) (List.length queries) in
    let written := rows_written w (List.length (requests w)) (List.length queries) in
    endpoint w' = endpoint w /\
    local_elapsed w' = local_elapsed w /\
    List.length (requests w') = List.length (requests w) + made /\
    GROQ_API_KEY w' = GROQ_API_KEY w /\
    exists rs, OUTPUT_LOG_FILE w' = OUTPUT_LOG_FILE w ++ rs /\
               List.length rs = written /\
               forall j query, j < written -> nth_error queries j = Some query ->
                 exists res, nth_error rs j = Some res /\
                   recorded w (List.length (requests w) + j) (i0 + j + 1) query res.
Proof.
  induction queries as [|q queries IH]; intros i0 w.
  - simpl. unfold calls_made, rows_written. simpl.
    repeat split; try lia. exists []. rewrite app_nil_r.
    repeat split. intros j query H. lia.
  - cbv zeta. rewrite loop_cons. simpl List.length.
    destruct (iteration_spec total i0 q w) as (He & Hl & Hr & Hkey & Hout).
    destruct (null_total_time (endpoint w (List.length (requests w)))) eqn:E.
    + destruct (calls_made_stop w (List.length (requests w)) (List.length queries) E)
        as [-> ->].
      simpl world_of.
      split; [exact He|]. split; [exact Hl|]. split; [lia|]. split; [exact Hkey|].
      exists []. rewrite app_nil_r. split; [exact Hout|]. split; [reflexivity|].
      intros j query H. lia.
    + destruct (calls_made_step w (List.length (requests w)) (List.length queries) E)
        as [-> ->].
      destruct Hout as (res & Hout & Hrec).
      destruct (IH (S i0) (world_of (iteration total i0 q w)))
        as (He' & Hl' & Hr' & Hkey' & rs & Hout' & Hlen & Hall).
      rewrite Hr in Hr', Hlen, Hall.
      destruct (@calls_made_ext w (world_of (iteration total i0 q w))
                  (S (List.length (requests w))) (List.length queries) He) as [Hm Hw].
      rewrite Hm in Hr'. rewrite Hw in Hlen, Hall.
      split; [congruence|]. split; [congruence|]. split; [lia|]. split; [congruence|].
      exists (res :: rs). split; [rewrite Hout', Hout, <- app_assoc; reflexivity|].
      split; [simpl; lia|].
      intros [|j] query Hj Hq; simpl in Hq.
      * inversion Hq; subst. exists res. split; [reflexivity|].
        rewrite Nat.add_0_r. now rewrite Nat.add_0_r.
      * destruct (Hall j query (proj2 (Nat.succ_lt_mono _ _) Hj) Hq)
          as (res' & Hn & Hrec').
        exists res'. split; [exact Hn|].
        eapply recorded_ext; [exact He|exact Hl|].
        replace (List.length (requests w) + S j)
          with (S (List.length (requests w)) + j) by lia.
        replace (i0 + S j + 1) with (S i0 + j + 1) by lia. exact Hrec'.
Qed.

End BatchFacts.

(* ================================================================== *)
(** ** The final summary of the batch script *)

Section SummaryFacts.
Import Batch.

Lemma successful_runs_In (df : list BatchResult) (r : BatchResult) :
  In r (successful_runs df) <-> In r df /\ (0 <= Total_Response_Time_Seconds r)%Q.
Proof. unfold successful_runs. rewrite filter_In, ge_num_spec. tauto. Qed.

Lemma successful_runs_idem (df : list BatchResult) :
  successful_runs (successful_runs df) = successful_runs df.
Proof.
  unfold successful_runs. induction df as [|r df IH]; simpl; [reflexivity|].
  destruct (ge_num (Total_Response_Time_Seconds r) 0) eqn:E; simpl; [|exact IH].
  now rewrite E, IH.
Qed.

Lemma successful_runs_app (a b : list BatchResult) :
  successful_runs (a ++ b) = successful_runs a ++ successful_runs b.
Proof. apply filter_app. Qed.

(** The statistics see the successful rows only. *)
Lemma summary_only_successful (df : list BatchResult) :
  summary df = summary (successful_runs df).
Proof. unfold summary. now rewrite successful_runs_idem. Qed.

Lemma summary_NA (df : list BatchResult) :
  summary df = (N_A, N_A) <-> successful_runs df = [].
Proof.
  unfold summary. destruct (successful_runs df) as [|r rs]; simpl.
  - tauto.
  - split; discriminate.
Qed.

(** The two statistics are taken over the latencies of the rows whose
    latency is not negative, in the order of the rows, and are N/A when
    there is no such row. *)
Lemma summary_spec (df : list BatchResult) :
  let times := map Total_Response_Time_Seconds
                   (filter (fun r => Qle_bool 0 (Total_Response_Time_Seconds r)) df) in
  List.length (successful_runs df) = List.length times /\
  (times = [] -> summary df = (N_A, N_A)) /\
  (times <> [] -> summary df = (Series_mean times, Series_median times)).
Proof.
  cbv zeta. unfold summary, successful_runs, ge_num.
  set (times := map Total_Response_Time_Seconds _).
  split; [unfold times; now rewrite length_map|].
  destruct times as [|t times']; split; try reflexivity; try discriminate.
  intros H. now contradiction H.
Qed.

(** How [main] ends on a non-empty query file: with the exception of the
    loop, or after the nine lines of the summary. *)
Lemma main_spec (w : World) (q : string) (queries : list string) :
  QUERIES_FILE w = Some (q :: queries) ->
  let n := List.length (q :: queries) in
  let w3 := world_of (loop n 0 (q :: queries)
                           (set_output_log (print (starting_test n) w) [])) in
  OUTPUT_LOG_FILE (snd (main w)) = OUTPUT_LOG_FILE w3 /\
  requests (snd (main w)) = requests w3 /\
  match first_null_total_time w (List.length (requests w)) n with
  | Some _ => fst (main w) = uncaught NONE_GE_INT /\ stdout (snd (main w)) = stdout w3
  | None =>
      fst (main w) = returned /\
      stdout (snd (main w)) =
        stdout w3 ++
        summary_lines n (List.length (successful_runs (OUTPUT_LOG_FILE w3)))
                      (fst (summary (OUTPUT_LOG_FILE w3)))
                      (snd (summary (OUTPUT_LOG_FILE w3)))
  end.
Proof.
  intros Hq. cbv zeta. unfold main. rewrite Hq.
  set (n := List.length (q :: queries)).
  set (w2 := set_output_log (print (starting_test n) w) []).
  pose proof (loop_flow n (q :: queries) 0 w2) as Hflow.
  assert (Hsame : first_null_total_time w2 (List.length (requests w2)) n =
                  first_null_total_time w (List.length (requests w)) n).
  { apply (@first_null_total_time_ext w w2 n). reflexivity. }
  fold n in Hflow. rewrite Hsame in Hflow.
  set (f := loop n 0 (q :: queries) w2) in *.
  destruct (first_null_total_time w (List.length (requests w)) n) as [k|];
    destruct f as [w3|e w3]; simpl in Hflow; try discriminate Hflow.
  - inversion Hflow; subst e. simpl. auto.
  - destruct (summary (OUTPUT_LOG_FILE w3)) as [m md] eqn:Es.
    cbn [world_of snd fst]. rewrite Es.
    split; [reflexivity|]. split; [reflexivity|]. split; [reflexivity|].
    unfold summary_lines. cbn [stdout print fst snd]. rewrite <- !app_assoc. reflexivity.
Qed.

End SummaryFacts.

(* ================================================================== *)
(** ** The chat turn *)

Section ChatFacts.
Import Chat.

Lemma log_chat_message_frame (role content : string) (w : World) :
  let w' := log_chat_message role content w in
  GROQ_API_KEY w' = GROQ_API_KEY w /\ endpoint w' = endpoint w /\
  requests w' = requests w.
Proof.
  unfold log_chat_message. destruct (chat_log_error w) as [[e|e]|]; simpl; auto.
Qed.

Lemma contains_api_error (e : string) :
  contains "error" (api_error e) /\ contains e (api_error e).
Proof.
  unfold contains, api_error. split.
  - exists "An API ",
           (" occurred: " ++ e ++
            ". The data context size has been reduced. If this persists, check your Groq API tier limits.")%string.
    reflexivity.
  - exists "An API error occurred: ",
           ". The data context size has been reduced. If this persists, check your Groq API tier limits.".
    reflexivity.
Qed.

(** Without a key no request is built and the world is left as it was. *)
Lemma get_groq_response_no_key (ctx : context) (user_query : string) (w : World) :
  key_missing (GROQ_API_KEY w) = true ->
  get_groq_response ctx user_query w = (KEY_NOT_FOUND, w).
Proof. unfold get_groq_response. now intros ->. Qed.

Lemma get_groq_response_raises (ctx : context) (user_query e : string) (w : World)
      (cs ss : list string) :
  key_missing (GROQ_API_KEY w) = false ->
  strings_from 0 (head 5 (cities ctx)) = inr cs ->
  strings_from 0 (head 5 (stations ctx)) = inr ss ->
  endpoint w (List.length (requests w)) = Groq.Raises e ->
  exists rq, get_groq_response ctx user_query w =
             (api_error e, set_requests w (requests w ++ [rq])) /\
             Groq.user rq = user_query.
Proof.
  intros Hk Hc Hs He. unfold get_groq_response, create.
  rewrite Hk, Hc, Hs, He. eexists. split; reflexivity.
Qed.

End ChatFacts.

(* ================================================================== *)
(** * The claims *)

Section LatestTableClaims.
Import Loader.

Local Abbreviation latest_city_of := (latest_of CityDay.City CityDay.Date).

(** C2, as stated, fails in both tables.  Delhi's latest row has no
    AQI: the load succeeds and the latest city table holds Mumbai alone,
    so Delhi has no row at all.  And with station metadata that lists
    the id S1 twice, the latest station table holds the latest row of S1
    twice. *)
Lemma latest_tables_not_one_row_per_entity :
  (exists result,
      load_aqi_datasets Examples.city_day_null Examples.station_day Examples.stations_csv
      = Some result /\
      occurs CityDay.City Examples.city_day_null "Delhi" /\
      rows (latest_city_df result) = [Examples.latest "Mumbai" 80] /\
      forall row, In row (rows (latest_city_df result)) ->
                  LatestCity.City row <> Some "Delhi") /\
  (exists result,
      load_aqi_datasets Examples.city_day Examples.station_day Examples.stations_csv_twice
      = Some result /\
      rows (latest_station_df result) =
        [Examples.latest_station "A" "Delhi" 10; Examples.latest_station "A" "Delhi" 10;
         Examples.latest_station "B" "Delhi" 90; Examples.latest_station "C" "Mumbai" 5]).
Proof.
  split.
  - eexists. split; [vm_compute; reflexivity|]. simpl. split; [|split].
    + exists (Examples.city "Delhi" Examples.Jan01 (Num 450)).
      split; [now left|reflexivity].
    + reflexivity.
    + intros row [<-|[]]. discriminate.
  - eexists. split; [vm_compute; reflexivity|]. reflexivity.
Qed.

(** C2, amended.  Cities: when every city of the day table has a row
    with a parseable date, the loader returns a latest table with at
    most one row per city; every city has a latest row, the first of its
    rows with the maximum date; the city has its row in the table
    exactly when that row carries an AQI, and that row is the one kept
    (AQI coerced); when that row has no AQI the city has no row.
    Stations: when every station of the day table has a row with a
    parseable date, the selection succeeds; it selects exactly one row
    per station id, the first of its rows with the maximum date; and a
    station table that is built from it consists, selected row by
    selected row, of the rows this row turns into: none when it has no
    AQI, otherwise at least one, carrying its date and its coerced AQI,
    and exactly one when the metadata repeats no station id.  In both
    tables an entity without any parseable date makes the selection
    fail. *)
Theorem latest_tables_one_row_per_entity
        (city_source : list CityDay.row) (station_source : list StationDay.row)
        (stations : Frame Stations.row) :
  ((forall k, occurs CityDay.City city_source k ->
              dated CityDay.City CityDay.Date city_source k) ->
   exists t,
     latest_city_data (read_csv city_source) = Some t /\
     LatestTable t /\
     (forall i r', In (i, r') t <->
        exists k r, latest_city_of city_source k i r /\
                    isna (CityDay.AQI r) = false /\ r' = coerce_city r) /\
     (forall k, occurs CityDay.City city_source k ->
                exists i r, latest_city_of city_source k i r) /\
     (forall k i r, latest_city_of city_source k i r ->
        if isna (CityDay.AQI r)
        then forall x, In x t -> LatestCity.City (snd x) <> Some k
        else In (i, coerce_city r) t /\
             forall x, In x t -> LatestCity.City (snd x) = Some k ->
                       x = (i, coerce_city r))) /\
  ((forall k, occurs StationDay.StationId station_source k ->
              dated StationDay.StationId StationDay.Date station_source k) ->
   exists selected, latest_station_rows (read_csv station_source) = Some selected) /\
  (forall selected,
     latest_station_rows (read_csv station_source) = Some selected ->
     NoDup (map (col StationDay.StationId) selected) /\
     (forall i r, In (i, r) selected <->
        exists k, latest_of StationDay.StationId StationDay.Date station_source k i r) /\
     (forall k, occurs StationDay.StationId station_source k ->
        exists i r, In (i, r) selected /\
                    latest_of StationDay.StationId StationDay.Date station_source k i r) /\
     (forall ts,
        latest_station_data (read_csv station_source) stations = Some ts ->
        rows ts = flat_map (station_rows stations) (rows selected)) /\
     forall r,
       (isna (StationDay.AQI r) = true -> station_rows stations r = []) /\
       (isna (StationDay.AQI r) = false ->
        1 <= List.length (station_rows stations r) /\
        (NoDup (map (fun m => Stations.StationId (snd m)) stations) ->
         List.length (station_rows stations r) = 1) /\
        forall row, In row (station_rows stations r) ->
          LatestStation.Date row = StationDay.Date r /\
          LatestStation.AQI row = to_numeric_fillna (StationDay.AQI r) /\
          LatestStation.AQI_Bucket row = StationDay.AQI_Bucket r)) /\
  ((exists t, latest_city_data (read_csv city_source) = Some t) ->
   forall k, occurs CityDay.City city_source k ->
             dated CityDay.City CityDay.Date city_source k) /\
  ((exists selected, latest_station_rows (read_csv station_source) = Some selected) ->
   forall k, occurs StationDay.StationId station_source k ->
             dated StationDay.StationId StationDay.Date station_source k).
Proof.
  split; [|split; [|split; [|split]]].
  - intros Hall.
    destruct (proj2 (latest_rows_defined CityDay.City CityDay.Date city_source) Hall)
      as (out & Hout).
    assert (Ht : latest_city_data (read_csv city_source)
                 = Some (kept CityDay.AQI coerce_city out)).
    { rewrite latest_city_data_kept. unfold latest_city. now rewrite Hout. }
    exists (kept CityDay.AQI coerce_city out).
    split; [exact Ht|]. split; [eapply latest_city_data_LatestTable; exact Ht|].
    assert (Hiff : forall i r',
               In (i, r') (kept CityDay.AQI coerce_city out) <->
               exists k r, latest_city_of city_source k i r /\
                           isna (CityDay.AQI r) = false /\ r' = coerce_city r).
    { intros i r'. rewrite kept_In. split.
      - intros (r & Hin & Hna & ->).
        apply (latest_rows_In _ _ _ i r Hout) in Hin. destruct Hin as (k & Hk).
        exists k, r. auto.
      - intros (k & r & Hk & Hna & ->). exists r. split; [|auto].
        apply (latest_rows_In _ _ _ i r Hout). now exists k. }
    split; [exact Hiff|].
    split.
    { intros k Hk. destruct (@latest_rows_every_key _ _ _ _ _ Hout k Hk) as (i & r & _ & H).
      now exists i, r. }
    intros k i r Hk.
    assert (Hsame : forall x, In x (kept CityDay.AQI coerce_city out) ->
                              LatestCity.City (snd x) = Some k ->
                              x = (i, coerce_city r) /\ isna (CityDay.AQI r) = false).
    { intros [i' r'] Hx Hcity. apply Hiff in Hx.
      destruct Hx as (k' & r2 & Hk' & Hna & ->). simpl in Hcity.
      assert (k' = k).
      { destruct Hk' as (_ & Hkey & _). rewrite Hkey in Hcity. now inversion Hcity. }
      subst k'. destruct (latest_of_unique Hk Hk') as [-> ->]. auto. }
    destruct (isna (CityDay.AQI r)) eqn:Hna.
    + intros x Hx Hcity. destruct (Hsame x Hx Hcity) as [_ H]. discriminate.
    + split.
      * apply Hiff. exists k, r. auto.
      * intros x Hx Hcity. now destruct (Hsame x Hx Hcity).
  - intros Hall.
    destruct (proj2 (latest_rows_defined StationDay.StationId StationDay.Date
                       station_source) Hall) as (selected & Hsel).
    exists selected. exact Hsel.
  - intros selected Hsel.
    destruct (latest_station_rows_select _ Hsel) as [Hnd Hin].
    split; [exact Hnd|]. split; [exact Hin|].
    split; [exact (@latest_rows_every_key _ _ _ _ _ Hsel)|]. split.
    + intros ts Hts. eapply latest_station_data_rows; [exact Hsel|exact Hts].
    + intros r. apply station_rows_spec.
  - intros (t & Ht).
    apply (latest_rows_defined CityDay.City CityDay.Date city_source).
    rewrite latest_city_data_kept in Ht. unfold latest_city in Ht.
    destruct (latest_rows CityDay.City CityDay.Date (read_csv city_source)) as [out|];
      [eauto|discriminate].
  - intros (selected & Hsel).
    apply (latest_rows_defined StationDay.StationId StationDay.Date station_source).
    eauto.
Qed.

Lemma latest_tables_one_row_per_entity_witness :
  (exists t,
      latest_city_data (read_csv Examples.city_day) = Some t /\
      rows t = [Examples.latest "Delhi" 420; Examples.latest "Mumbai" 80]) /\
  (exists ts,
      latest_station_data (read_csv Examples.station_day)
                          (read_csv Examples.stations_csv) = Some ts /\
      rows ts = [Examples.latest_station "A" "Delhi" 10;
                 Examples.latest_station "B" "Delhi" 90;
                 Examples.latest_station "C" "Mumbai" 5]).
Proof.
  assert (Hc : forall k, occurs CityDay.City Examples.city_day k ->
                         dated CityDay.City CityDay.Date Examples.city_day k).
  { intros k (r & Hin & Hk). exists r.
    simpl in Hin. destruct Hin as [<-|[<-|[<-|[]]]]; eexists; repeat split;
      simpl; auto. }
  assert (Hs : forall k, occurs StationDay.StationId Examples.station_day k ->
                         dated StationDay.StationId StationDay.Date
                               Examples.station_day k).
  { intros k (r & Hin & Hk). exists r.
    simpl in Hin. destruct Hin as [<-|[<-|[<-|[]]]]; eexists; repeat split;
      simpl; auto. }
  destruct (latest_tables_one_row_per_entity
              Examples.city_day Examples.station_day (read_csv Examples.stations_csv))
    as (Hcity & Hselect & Hstation & _).
  split.
  - destruct (Hcity Hc) as (t & Ht & _).
    exists t. split; [exact Ht|].
    vm_compute in Ht. inversion Ht. reflexivity.
  - destruct (Hselect Hs) as (selected & Hsel).
    destruct (Hstation selected Hsel) as (_ & _ & _ & Hrows & _).
    eexists. split; [reflexivity|].
    rewrite (Hrows _ eq_refl). vm_compute in Hsel. inversion Hsel. reflexivity.
Defined.

(** C3: in both tables a latest row without AQI is dropped, a latest
    row whose AQI is text is kept with AQI 0, and a numeric AQI is kept
    as it is; nothing else enters the table. *)
Theorem null_AQI_dropped_text_AQI_zero
        (city_source : list CityDay.row) (station_source : list StationDay.row)
        (stations : Frame Stations.row)
        (selected_city : Frame CityDay.row) (selected_station : Frame StationDay.row) :
  latest_city (read_csv city_source) = Some selected_city ->
  latest_station_rows (read_csv station_source) = Some selected_station ->
  exists city_table station_table,
    latest_city_data (read_csv city_source) = Some city_table /\
    latest_station_data (read_csv station_source) stations = Some station_table /\
    (forall i r, In (i, r) selected_city ->
       match CityDay.AQI r with
       | NaN => forall r', ~ In (i, r') city_table
       | Text _ => In (i, coerce_city r) city_table /\
                   LatestCity.AQI (coerce_city r) = 0%Q
       | Num x => In (i, coerce_city r) city_table /\
                  LatestCity.AQI (coerce_city r) = x
       end) /\
    (forall i r', In (i, r') city_table ->
       exists r, In (i, r) selected_city /\ CityDay.AQI r <> NaN /\ r' = coerce_city r) /\
    (forall i m, In (i, m) (merge_left selected_station stations) ->
       match StationDay.AQI (day m) with
       | NaN => forall r', ~ In (i, r') station_table
       | Text _ => In (i, coerce_station m) station_table /\
                   LatestStation.AQI (coerce_station m) = 0%Q
       | Num x => In (i, coerce_station m) station_table /\
                  LatestStation.AQI (coerce_station m) = x
       end) /\
    (forall i r', In (i, r') station_table ->
       exists m, In (i, m) (merge_left selected_station stations) /\
                 StationDay.AQI (day m) <> NaN /\ r' = coerce_station m).
Proof.
  intros Hc Hs.
  exists (kept CityDay.AQI coerce_city selected_city),
         (kept (fun m => StationDay.AQI (day m)) coerce_station
               (merge_left selected_station stations)).
  split; [rewrite latest_city_data_kept, Hc; reflexivity|].
  split; [rewrite latest_station_data_kept, Hs; reflexivity|].
  assert (Hlab : NoDup (map fst selected_city))
    by (eapply latest_rows_unique_index; exact Hc).
  assert (Hlab' : NoDup (map fst (merge_left selected_station stations)))
    by apply read_csv_NoDup.
  split; [|split; [|split]].
  - intros i r Hin. destruct (CityDay.AQI r) as [|x|s] eqn:E.
    + apply (dropped CityDay.AQI coerce_city _ _ _ Hlab Hin). now rewrite E.
    + split; [|simpl; now rewrite E]. apply kept_In. exists r. rewrite E. auto.
    + split; [|simpl; now rewrite E]. apply kept_In. exists r. rewrite E. auto.
  - intros i r' Hin. apply kept_In in Hin. destruct Hin as (r & Hin & Hna & ->).
    exists r. split; [exact Hin|]. split; [|reflexivity].
    intros E. rewrite E in Hna. discriminate.
  - intros i m Hin. destruct (StationDay.AQI (day m)) as [|x|s] eqn:E.
    + apply (dropped (fun m => StationDay.AQI (day m)) coerce_station _ _ _ Hlab' Hin).
      now rewrite E.
    + split; [|simpl; now rewrite E]. apply kept_In. exists m. rewrite E. auto.
    + split; [|simpl; now rewrite E]. apply kept_In. exists m. rewrite E. auto.
  - intros i r' Hin. apply kept_In in Hin. destruct Hin as (m & Hin & Hna & ->).
    exists m. split; [exact Hin|]. split; [|reflexivity].
    intros E. rewrite E in Hna. discriminate.
Qed.

Lemma null_AQI_dropped_text_AQI_zero_witness :
  exists city_table,
    latest_city_data (read_csv Examples.city_day_mixed) = Some city_table /\
    (forall r', ~ In (0, r') city_table) /\
    (In (1, coerce_city (Examples.city "Bhopal" Examples.Jan02 (Text "n.d."))) city_table /\
     LatestCity.AQI (coerce_city (Examples.city "Bhopal" Examples.Jan02 (Text "n.d."))) = 0%Q).
Proof.
  destruct (null_AQI_dropped_text_AQI_zero
              Examples.city_day_mixed Examples.station_day
              (read_csv Examples.stations_csv)
              (selected_city := read_csv Examples.city_day_mixed)
              (selected_station := read_csv Examples.station_day)
              eq_refl eq_refl)
    as (ct & st & Hct & _ & Hrows & _).
  exists ct. split; [exact Hct|]. split.
  - exact (Hrows 0 (Examples.city "Agra" Examples.Jan02 NaN) (or_introl eq_refl)).
  - exact (Hrows 1 (Examples.city "Bhopal" Examples.Jan02 (Text "n.d."))
                 (or_intror (or_introl eq_refl))).
Defined.

End LatestTableClaims.

Section SamplerClaims.
Import Loader.

(** C1, as stated, fails for the station sample: the loader runs on
    three stations A (AQI 10), B (AQI 90), C (AQI 5); B is the worst
    station, yet the station context starts with A, and at size 1 it
    does not contain B at all. *)
Lemma station_context_worst_not_first :
  exists result,
    load_aqi_datasets Examples.city_day Examples.station_day Examples.stations_csv
    = Some result /\
    latest_station_df result = Examples.stations_ABC /\
    worst_station_of Examples.stations_ABC (Examples.latest_station "B" "Delhi" 90) /\
    ~ worst_station_of Examples.stations_ABC (Examples.latest_station "A" "Delhi" 10) /\
    station_context result =
      [Examples.latest_station "A" "Delhi" 10; Examples.latest_station "B" "Delhi" 90;
       Examples.latest_station "C" "Mumbai" 5] /\
    context_stations_df 1 Examples.stations_ABC = [Examples.latest_station "A" "Delhi" 10].
Proof.
  eexists. split; [vm_compute; reflexivity|]. simpl.
  split; [reflexivity|]. split; [|split; [|split; reflexivity]].
  - split; [simpl; tauto|].
    intros r [<-|[<-|[<-|[]]]]; vm_compute; discriminate.
  - intros [_ H].
    specialize (H (Examples.latest_station "B" "Delhi" 90)).
    apply H; [simpl; tauto|reflexivity].
Qed.

Lemma Some_inj (A : Type) (a b : A) : Some a = Some b -> a = b.
Proof. intros H. now inversion H. Qed.

Lemma context_stations_df_all (cap : nat) (ts : Frame LatestStation.row)
      (r : LatestStation.row) :
  List.length ts <= cap -> In r (rows ts) -> In r (context_stations_df cap ts).
Proof.
  intros Hlen Hin. unfold context_stations_df, reset_index, head.
  rewrite firstn_all2 by (rewrite sort_values_length; exact Hlen).
  unfold rows in Hin. apply in_map_iff in Hin. destruct Hin as (x & <- & Hx).
  apply in_map. now apply sort_values_In.
Qed.

(** C1, amended: the city sample of a non-empty latest table starts
    with a row of the largest AQI, for every size.  The station sample
    is the first [cap] rows in ascending order of station name: it has
    min(cap, number of rows) rows, sorted by name, taken from the table
    each at most once, and every row left out comes no earlier in the
    order than every row taken.  It holds the worst station when the
    whole table fits in it. *)
Theorem city_context_worst_first (cap : nat) (t : Frame LatestCity.row)
        (ts : Frame LatestStation.row) :
  LatestTable t -> t <> [] ->
  (exists w rest, context_cities_df cap t = Some (w :: rest) /\ worst_of t w) /\
  (List.length (context_stations_df cap ts) = Nat.min cap (List.length ts) /\
   by_station_name (context_stations_df cap ts) /\
   exists left_out,
     Permutation (context_stations_df cap ts ++ left_out) (rows ts) /\
     forall a b, In a (context_stations_df cap ts) -> In b left_out ->
                 le_name (LatestStation.StationName a)
                         (LatestStation.StationName b) = true) /\
  (List.length ts <= cap ->
   forall w, worst_station_of ts w -> In w (context_stations_df cap ts)).
Proof.
  intros HL Hne. split; [|split].
  - destruct (worst_city_row_spec Hne (unique_index HL)) as (i & w & Hw & _ & Hworst).
    destruct (context_cities_df_head cap _ Hw) as (rest & Hrest).
    exists w, rest. split; assumption.
  - apply context_stations_df_slice.
  - intros Hlen w [Hin _]. now apply context_stations_df_all.
Qed.

Lemma LatestTable_cities_ABC : LatestTable Examples.cities_ABC.
Proof.
  constructor.
  - simpl. repeat constructor; simpl; intuition discriminate.
  - intros x [<-|[<-|[<-|[]]]]; discriminate.
  - simpl. repeat constructor; simpl; intuition discriminate.
Qed.

Lemma city_context_worst_first_witness :
  (exists w rest,
      context_cities_df 1 Examples.cities_ABC = Some (w :: rest) /\
      worst_of Examples.cities_ABC w) /\
  List.length (context_stations_df 1 Examples.stations_ABC) = 1.
Proof.
  assert (Hne : Examples.cities_ABC <> []) by discriminate.
  destruct (city_context_worst_first 1 Examples.stations_ABC
                                     LatestTable_cities_ABC Hne)
    as (Hcity & (Hlen & _) & _).
  split; [exact Hcity|exact Hlen].
Defined.

(** C4, as stated, fails on three inputs: the specification's own
    example run through the station sampler comes out in name order,
    [A, B, C], not worst first; on the empty table the city sampler has
    no worst row to start from, so the load fails; and when the metadata
    lists the id S1 twice, the station context of the loader holds that
    station twice. *)
Lemma sample_not_worst_first :
  context_stations_df 3 Examples.stations_ABC =
    [Examples.latest_station "A" "Delhi" 10; Examples.latest_station "B" "Delhi" 90;
     Examples.latest_station "C" "Mumbai" 5] /\
  (LatestStation.AQI (Examples.latest_station "A" "Delhi" 10)
   < LatestStation.AQI (Examples.latest_station "B" "Delhi" 90))%Q /\
  context_cities_df 3 [] = None /\
  exists result,
    load_aqi_datasets Examples.city_day Examples.station_day Examples.stations_csv_twice
    = Some result /\
    station_context result =
      [Examples.latest_station "A" "Delhi" 10; Examples.latest_station "A" "Delhi" 10;
       Examples.latest_station "B" "Delhi" 90; Examples.latest_station "C" "Mumbai" 5] /\
    ~ NoDup (station_context result).
Proof.
  split; [reflexivity|]. split; [reflexivity|]. split; [reflexivity|].
  eexists. split; [vm_compute; reflexivity|]. simpl. split; [reflexivity|].
  intros Hnd. apply NoDup_cons_iff in Hnd. destruct Hnd as [Hnot _].
  apply Hnot. now left.
Qed.

(** C4, amended: on a non-empty latest city table and for every size
    [cap >= 1] the city sample has exactly min(cap, number of cities)
    rows, no city twice, a row of the largest AQI first, and after it
    rows of the table in ascending order of city name, namely the
    alphabetically first of the other cities.  The station sample has
    no worst-first step: it has min(cap, number of rows) rows in
    ascending order of station name, taken from the table each at most
    once, and every row left out comes no earlier in the order than
    every row taken. *)
Theorem context_cities_df_shape (cap : nat) (t : Frame LatestCity.row)
        (ts : Frame LatestStation.row) :
  1 <= cap -> LatestTable t -> t <> [] ->
  (exists w rest,
      context_cities_df cap t = Some (w :: rest) /\
      List.length (w :: rest) = Nat.min cap (List.length t) /\
      NoDup (map LatestCity.City (w :: rest)) /\
      worst_of t w /\
      by_city rest /\
      (forall r, In r rest -> In r (rows t)) /\
      (forall r r', In r (rows t) -> ~ In r (w :: rest) -> In r' rest ->
                    le_name (LatestCity.City r') (LatestCity.City r) = true)) /\
  (List.length (context_stations_df cap ts) = Nat.min cap (List.length ts) /\
   by_station_name (context_stations_df cap ts) /\
   exists left_out,
     Permutation (context_stations_df cap ts ++ left_out) (rows ts) /\
     forall a b, In a (context_stations_df cap ts) -> In b left_out ->
                 le_name (LatestStation.StationName a)
                         (LatestStation.StationName b) = true).
Proof.
  intros Hcap HL Hne. split.
  - destruct (worst_city_row_spec Hne (unique_index HL)) as (i & w & Hw & Hin & Hworst).
    pose proof (context_cities_df_eq cap HL Hw) as Heq.
    exists w, (rows (sample_cities cap t w)).
    split; [exact Heq|].
    split.
    { simpl. unfold rows. rewrite length_map.
      rewrite (@sample_cities_length cap t i w HL Hin).
      destruct t as [|x t']; [contradiction|]. simpl List.length. lia. }
    split.
    { assert (E : Some (reset_index
                          (drop_duplicates LatestCity.City
                             ((i, w) :: sample_cities cap t w))) =
                  Some (w :: rows (sample_cities cap t w))).
      { rewrite <- Heq. unfold context_cities_df. now rewrite Hw. }
      apply Some_inj in E. rewrite <- E. unfold reset_index. rewrite map_map.
      apply (drop_duplicates_NoDup LatestCity.City). }
    split; [exact Hworst|].
    split.
    { unfold by_city. apply StronglySorted_rows. unfold sample_cities.
      apply sorted_head. apply sort_values_sorted. }
    split.
    { intros r Hr. now apply sample_cities_rows in Hr. }
    intros r r' Hr Hout Hr'.
    eapply sample_cities_first; [exact HL|exact Hin|exact Hr| | |exact Hr'].
    + intros ->. apply Hout. now left.
    + intros H. apply Hout. now right.
  - apply context_stations_df_slice.
Qed.

(** The example of the specification follows from the statement alone:
    at size 3 over A (10), B (90), C (5) the first row has the largest
    AQI, so it is B; the two others are rows of the table with cities
    other than B and distinct, in ascending order: A, then C. *)
Lemma context_cities_df_shape_witness :
  context_cities_df 3 Examples.cities_ABC =
  Some [Examples.latest "B" 90; Examples.latest "A" 10; Examples.latest "C" 5].
Proof.
  assert (Hcap : 1 <= 3) by lia.
  assert (Hne : Examples.cities_ABC <> []) by discriminate.
  destruct (context_cities_df_shape Examples.stations_ABC Hcap
                                    LatestTable_cities_ABC Hne)
    as [(w & rest & Heq & Hlen & Hnd & [Hw Hmax] & Hsorted & Hin & _) _].
  rewrite Heq. f_equal.
  assert (HwB : w = Examples.latest "B" 90).
  { pose proof (Hmax (Examples.latest "B" 90) (or_intror (or_introl eq_refl))) as HB.
    simpl in Hw. destruct Hw as [<-|[<-|[<-|[]]]]; [exfalso|reflexivity|exfalso];
      apply Qle_bool_iff in HB; vm_compute in HB; discriminate. }
  subst w. destruct rest as [|r1 [|r2 [|r3 rest]]]; simpl in Hlen; try discriminate.
  pose proof (Hin r1 (or_introl eq_refl)) as H1.
  pose proof (Hin r2 (or_intror (or_introl eq_refl))) as H2.
  apply NoDup_cons_iff in Hnd. destruct Hnd as [HnB Hnd].
  apply NoDup_cons_iff in Hnd. destruct Hnd as [Hn1 _].
  inversion Hsorted as [|? ? _ Hle]; subst.
  apply Forall_inv in Hle.
  simpl in H1, H2.
  destruct H1 as [<-|[<-|[<-|[]]]]; destruct H2 as [<-|[<-|[<-|[]]]];
    try reflexivity; exfalso;
    try (apply HnB; simpl; tauto);
    try (apply Hn1; simpl; tauto);
    vm_compute in Hle; discriminate.
Defined.

(** The example of the specification: size 3 over A (10), B (90), C (5)
    gives B, A, C. *)
Example context_cities_df_ABC :
  context_cities_df 3 Examples.cities_ABC =
  Some [Examples.latest "B" 90; Examples.latest "A" 10; Examples.latest "C" 5].
Proof. reflexivity. Qed.

(** The example of the specification for the loader: Delhi's latest row
    is the one of 2 January, and its AQI makes the alert SEVERE. *)
Example latest_city_data_Delhi :
  option_map (@rows _) (latest_city_data (read_csv Examples.city_day)) =
  Some [Examples.latest "Delhi" 420; Examples.latest "Mumbai" 80].
Proof. reflexivity. Qed.

End SamplerClaims.

Section BatchClaims.
Import Batch.

Lemma first_null_total_time_first (w : World) (n call j : nat) :
  j < n ->
  null_total_time (endpoint w (call + j)) = true ->
  (forall i, i < j -> null_total_time (endpoint w (call + i)) = false) ->
  first_null_total_time w call n = Some j.
Proof.
  intros Hj Hnull Hbefore.
  destruct (first_null_total_time w call n) as [k|] eqn:F.
  - destruct (first_null_total_time_Some _ _ _ F) as (Hk & Hknull & Hkbefore).
    destruct (Nat.lt_trichotomy k j) as [Hlt|[->|Hgt]]; [|reflexivity|].
    + rewrite (Hbefore k Hlt) in Hknull. discriminate.
    + rewrite (Hkbefore j Hgt) in Hnull. discriminate.
  - rewrite (proj1 (first_null_total_time_None w n call) F j Hj) in Hnull.
    discriminate.
Qed.

(** A run of [main] over a non-empty query file, in terms of the world
    it starts in. *)
Lemma main_run (w : World) (q : string) (queries : list string) :
  QUERIES_FILE w = Some (q :: queries) ->
  let n := List.length (q :: queries) in
  let made := calls_made w (List.length (requests w)) n in
  let written := rows_written w (List.length (requests w)) n in
  fst (main w) =
    match first_null_total_time w (List.length (requests w)) n with
    | None => returned
    | Some _ => uncaught NONE_GE_INT
    end /\
  List.length (requests (snd (main w))) = List.length (requests w) + made /\
  List.length (OUTPUT_LOG_FILE (snd (main w))) = written /\
  forall j query, j < written -> nth_error (q :: queries) j = Some query ->
    exists res, nth_error (OUTPUT_LOG_FILE (snd (main w))) j = Some res /\
                recorded w (List.length (requests w) + j) (j + 1) query res.
Proof.
  intros Hq. cbv zeta.
  destruct (main_spec w Hq) as (Hlog & Hreq & Hend).
  set (n := List.length (q :: queries)) in *.
  set (w2 := set_output_log (print (starting_test n) w) []) in *.
  destruct (loop_spec n (q :: queries) 0 w2)
    as (_ & _ & Hr & _ & rs & Hout & Hlen & Hall).
  fold n in Hr, Hlen, Hall.
  destruct (@calls_made_ext w w2 (List.length (requests w)) n eq_refl) as [Hm Hw].
  change (List.length (requests w2)) with (List.length (requests w)) in Hr, Hlen, Hall.
  rewrite Hm in Hr. rewrite Hw in Hlen, Hall.
  split; [destruct (first_null_total_time w (List.length (requests w)) n); tauto|].
  rewrite Hlog, Hreq, Hout. simpl app.
  split; [exact Hr|]. split; [exact Hlen|].
  intros j query Hj Hn. destruct (Hall j query Hj Hn) as (res & Hres & Hrec).
  exists res. split; [exact Hres|].
  eapply (@recorded_ext w w2); [reflexivity|reflexivity|exact Hrec].
Qed.

(** Every row of the results of a run is the record of the call of its
    position. *)
Lemma main_log (w : World) (q : string) (queries : list string) :
  QUERIES_FILE w = Some (q :: queries) ->
  forall j res, nth_error (OUTPUT_LOG_FILE (snd (main w))) j = Some res ->
    exists query, nth_error (q :: queries) j = Some query /\
                  recorded w (List.length (requests w) + j) (j + 1) query res.
Proof.
  intros Hq j res Hj. destruct (main_run w Hq) as (_ & _ & Hlen & Hall).
  assert (Hlt : j < rows_written w (List.length (requests w)) (List.length (q :: queries))).
  { rewrite <- Hlen. apply nth_error_Some. congruence. }
  pose proof (rows_written_le w (List.length (requests w)) (List.length (q :: queries)))
    as [Hle1 Hle2].
  destruct (nth_error (q :: queries) j) as [query|] eqn:Eq.
  - destruct (Hall j query Hlt Eq) as (res' & Hn & Hrec).
    exists query. split; [reflexivity|]. congruence.
  - apply nth_error_None in Eq. lia.
Qed.

(** C7, the divergence: when call number [j] of a run is the first to
    meet a completion whose usage object holds [None] as its
    [total_time], line 79 takes [None] as the latency and the comparison
    of line 126 raises a [TypeError] that nothing catches.  The run ends
    there: the request of that query was sent, no row is written for it
    or for any later query, and the results hold the rows of the [j]
    earlier queries only, each as the claim describes it. *)
Theorem batch_run_stops_at_null_total_time
        (w : World) (q : string) (queries : list string) (j : nat) :
  QUERIES_FILE w = Some (q :: queries) ->
  j < List.length (q :: queries) ->
  null_total_time (endpoint w (List.length (requests w) + j)) = true ->
  (forall i, i < j ->
             null_total_time (endpoint w (List.length (requests w) + i)) = false) ->
  fst (main w) = uncaught NONE_GE_INT /\
  List.length (requests (snd (main w))) = List.length (requests w) + S j /\
  List.length (OUTPUT_LOG_FILE (snd (main w))) = j /\
  forall i query, i < j -> nth_error (q :: queries) i = Some query ->
    exists res, nth_error (OUTPUT_LOG_FILE (snd (main w))) i = Some res /\
                recorded w (List.length (requests w) + i) (i + 1) query res.
Proof.
  intros Hq Hj Hnull Hbefore.
  pose proof (@first_null_total_time_first w (List.length (q :: queries))
                (List.length (requests w)) j Hj Hnull Hbefore) as F.
  destruct (main_run w Hq) as (Hend & Hreq & Hlen & Hall).
  unfold calls_made in Hreq. unfold rows_written in Hlen, Hall.
  rewrite F in Hend, Hreq, Hlen, Hall. auto.
Qed.

(** The failing input: three queries, and the second call answers with
    a usage object whose [total_time] is [None]. *)
Lemma batch_run_stops_at_null_total_time_witness :
  let w := Examples.world (Some "key") Examples.unreported (Some ["q1"; "q2"; "q3"]) in
  fst (main w) = uncaught NONE_GE_INT /\
  List.length (requests (snd (main w))) = 2 /\
  List.length (OUTPUT_LOG_FILE (snd (main w))) = 1.
Proof.
  intros w.
  assert (Hj : 1 < List.length ["q1"; "q2"; "q3"]) by (simpl; lia).
  assert (Hbefore : forall i, i < 1 ->
            null_total_time (endpoint w (List.length (requests w) + i)) = false).
  { intros [|i] Hi; [reflexivity|lia]. }
  destruct (batch_run_stops_at_null_total_time w (q := "q1") (queries := ["q2"; "q3"])
              eq_refl Hj eq_refl Hbefore) as (H1 & H2 & H3 & _).
  exact (conj H1 (conj H2 H3)).
Defined.

(** The same run, evaluated: one row, two requests, no summary. *)
Example batch_run_unreported :
  main (Examples.world (Some "key") Examples.unreported (Some ["q1"; "q2"; "q3"])) =
  (uncaught "'>=' not supported between instances of 'NoneType' and 'int'",
   mk_world (Some "key") Examples.unreported (fun _ => (3 # 4)%Q)
            [batch_request "q1"; batch_request "q2"] "2024-01-02 10:00:00"
            None None [] (Some ["q1"; "q2"; "q3"])
            [mk_result 1 "q1" "ok" (1 # 4) "SUCCESS"]
            [starting_test 3]).
Proof. reflexivity. Qed.

(** The example of the specification: three queries, the second call
    raises. *)
Example batch_three_queries :
  OUTPUT_LOG_FILE
    (snd (main (Examples.world (Some "key") Examples.flaky (Some ["q1"; "q2"; "q3"])))) =
  [mk_result 1 "q1" "ok" (1 # 4) "SUCCESS";
   mk_result 2 "q2" "API_ERROR: rate limit" (-1) "FAILURE";
   mk_result 3 "q3" "fine" (3 # 4) "SUCCESS"] /\
  summary
    (OUTPUT_LOG_FILE
       (snd (main (Examples.world (Some "key") Examples.flaky
                                  (Some ["q1"; "q2"; "q3"]))))) =
  (Series_mean [(1 # 4)%Q; (3 # 4)%Q], Series_median [(1 # 4)%Q; (3 # 4)%Q]).
Proof. split; reflexivity. Qed.

Lemma all_raise_no_latency (w : World) (q : string) (queries : list string) :
  QUERIES_FILE w = Some (q :: queries) ->
  (forall j, j < List.length (q :: queries) ->
             exists e, endpoint w (List.length (requests w) + j) = Groq.Raises e) ->
  filter (fun r => Qle_bool 0 (Total_Response_Time_Seconds r))
         (OUTPUT_LOG_FILE (snd (main w))) = [].
Proof.
  intros Hq Hraise.
  destruct (filter _ (OUTPUT_LOG_FILE (snd (main w)))) as [|r l] eqn:E;
    [reflexivity|exfalso].
  assert (Hr : In r (filter (fun r => Qle_bool 0 (Total_Response_Time_Seconds r))
                            (OUTPUT_LOG_FILE (snd (main w)))))
    by (rewrite E; now left).
  apply filter_In in Hr. destruct Hr as [Hin Hge].
  apply In_nth_error in Hin. destruct Hin as (j & Hj).
  destruct (main_log w Hq j Hj) as (query & Hquery & Hrec).
  assert (Hlt : j < List.length (q :: queries)).
  { apply nth_error_Some. congruence. }
  destruct (Hraise j Hlt) as (e & He).
  destruct Hrec as (_ & _ & _ & _ & Hcase). rewrite He in Hcase.
  destruct Hcase as (_ & Htrt & _). rewrite Htrt in Hge.
  vm_compute in Hge. discriminate.
Qed.

(** The summary of a run that reaches it. *)
Lemma summary_printed (w : World) (q : string) (queries : list string) :
  QUERIES_FILE w = Some (q :: queries) ->
  (forall j, j < List.length (q :: queries) ->
             null_total_time (endpoint w (List.length (requests w) + j)) = false) ->
  let times :=
    map Total_Response_Time_Seconds
        (filter (fun r => Qle_bool 0 (Total_Response_Time_Seconds r))
                (OUTPUT_LOG_FILE (snd (main w)))) in
  fst (main w) = returned /\
  List.length (OUTPUT_LOG_FILE (snd (main w))) = List.length (q :: queries) /\
  exists printed mean_trt median_trt,
    stdout (snd (main w)) =
      printed ++
      [rule_after_blank_line; test_complete; rule;
       total_attempted (List.length (q :: queries));
       successful_calls (List.length times);
       mean_line mean_trt; median_line median_trt;
       results_saved; baseline_hint] /\
    (times = [] -> mean_trt = N_A /\ median_trt = N_A) /\
    (times <> [] -> mean_trt = Series_mean times /\ median_trt = Series_median times).
Proof.
  intros Hq Hnn times.
  pose proof (proj2 (first_null_total_time_None w (List.length (q :: queries))
                       (List.length (requests w))) Hnn) as F.
  destruct (main_spec w Hq) as (Hlog & _ & Hend).
  destruct (main_run w Hq) as (_ & _ & Hlen & _).
  unfold rows_written in Hlen.
  rewrite F in Hend, Hlen. destruct Hend as [Hret Hout].
  split; [exact Hret|]. split; [exact Hlen|].
  set (w3 := world_of _) in *.
  destruct (summary_spec (OUTPUT_LOG_FILE w3)) as (Hcount & Hna & Hstat).
  exists (stdout w3), (fst (summary (OUTPUT_LOG_FILE w3))),
         (snd (summary (OUTPUT_LOG_FILE w3))).
  unfold times. rewrite Hlog. split.
  - rewrite Hout, Hcount. reflexivity.
  - split.
    + intros H. rewrite (Hna H). auto.
    + intros H. rewrite (Hstat H). auto.
Qed.

(** C10: when every call of a run raises, [main] does not raise: it
    returns, and the summary it prints last counts no successful call
    and reports both statistics as N/A.  In every run that reaches the
    summary, that is, in which no completion holds [None] as its
    [total_time], the summary is the last nine lines printed; it counts
    the rows whose latency is at least zero, reports both statistics as
    N/A when there is no such row, and otherwise reports the mean and
    the median of the latencies of exactly these rows, in the order of
    the rows. *)
Theorem summary_over_successful_rows (w : World) (q : string) (queries : list string) :
  QUERIES_FILE w = Some (q :: queries) ->
  ((forall j, j < List.length (q :: queries) ->
              exists e, endpoint w (List.length (requests w) + j) = Groq.Raises e) ->
   fst (main w) = returned /\
   exists printed,
     stdout (snd (main w)) =
       printed ++
       [rule_after_blank_line; test_complete; rule;
        total_attempted (List.length (q :: queries));
        successful_calls 0;
        mean_line N_A; median_line N_A;
        results_saved; baseline_hint]) /\
  ((forall j, j < List.length (q :: queries) ->
              null_total_time (endpoint w (List.length (requests w) + j)) = false) ->
   let times :=
     map Total_Response_Time_Seconds
         (filter (fun r => Qle_bool 0 (Total_Response_Time_Seconds r))
                 (OUTPUT_LOG_FILE (snd (main w)))) in
   fst (main w) = returned /\
   List.length (OUTPUT_LOG_FILE (snd (main w))) = List.length (q :: queries) /\
   exists printed mean_trt median_trt,
     stdout (snd (main w)) =
       printed ++
       [rule_after_blank_line; test_complete; rule;
        total_attempted (List.length (q :: queries));
        successful_calls (List.length times);
        mean_line mean_trt; median_line median_trt;
        results_saved; baseline_hint] /\
     (times = [] -> mean_trt = N_A /\ median_trt = N_A) /\
     (times <> [] -> mean_trt = Series_mean times /\ median_trt = Series_median times)).
Proof.
  intros Hq. split; [|exact (summary_printed w Hq)].
  intros Hraise.
  assert (Hnn : forall j, j < List.length (q :: queries) ->
            null_total_time (endpoint w (List.length (requests w) + j)) = false).
  { intros j Hj. destruct (Hraise j Hj) as (e & He). now rewrite He. }
  destruct (summary_printed w Hq Hnn) as (Hret & _ & printed & m & md & Hout & Hna & _).
  pose proof (all_raise_no_latency w Hq Hraise) as Hnil.
  rewrite Hnil in Hout, Hna. simpl in Hout, Hna.
  destruct (Hna eq_refl) as [-> ->].
  split; [exact Hret|]. exists printed. exact Hout.
Qed.

(** Three queries, the second call raises: the summary reports the mean
    and the median of the two latencies that are not negative. *)
Lemma summary_over_successful_rows_witness :
  exists printed,
    stdout (snd (main (Examples.world (Some "key") Examples.flaky
                                      (Some ["q1"; "q2"; "q3"])))) =
    printed ++
    [rule_after_blank_line; test_complete; rule;
     total_attempted 3; successful_calls 2;
     mean_line (Series_mean [(1 # 4)%Q; (3 # 4)%Q]);
     median_line (Series_median [(1 # 4)%Q; (3 # 4)%Q]);
     results_saved; baseline_hint].
Proof.
  assert (Hnn : forall j, j < List.length ["q1"; "q2"; "q3"] ->
            null_total_time
              (endpoint (Examples.world (Some "key") Examples.flaky
                                        (Some ["q1"; "q2"; "q3"]))
                        (List.length
                           (requests (Examples.world (Some "key") Examples.flaky
                                                     (Some ["q1"; "q2"; "q3"]))) + j))
            = false).
  { intros [|[|[|j]]] Hj; reflexivity. }
  destruct (proj2 (summary_over_successful_rows
                     (Examples.world (Some "key") Examples.flaky
                                     (Some ["q1"; "q2"; "q3"]))
                     (q := "q1") (queries := ["q2"; "q3"]) eq_refl) Hnn)
    as (_ & _ & printed & m & md & Hout & _ & Hstat).
  destruct Hstat as [Hm Hmd]; [discriminate|].
  exists printed. rewrite Hout, Hm, Hmd. reflexivity.
Defined.

(** Every call raises: both statistics are N/A. *)
Example summary_all_failed :
  stdout (snd (main (Examples.world (Some "key") Examples.always_raises
                                    (Some ["q1"; "q2"])))) =
  [starting_test 2;
   error_for_query "q1" "API_ERROR: timeout"; error_for_query "q2" "API_ERROR: timeout";
   rule_after_blank_line; test_complete; rule;
   total_attempted 2; successful_calls 0;
   mean_line N_A; median_line N_A; results_saved; baseline_hint].
Proof. reflexivity. Qed.

End BatchClaims.

Section ChatClaims.
Import Chat.

(** C8: when the call to the endpoint raises, the turn still ends with
    a reply: the history grows by the user's turn and by one assistant
    turn whose text contains the word error and the description of the
    failure. *)
Theorem submit_on_failure (ctx : context) (text e : string) (messages : list message)
        (w : World) (cs ss : list string) :
  text <> "" ->
  key_missing (GROQ_API_KEY w) = false ->
  strings_from 0 (head 5 (cities ctx)) = inr cs ->
  strings_from 0 (head 5 (stations ctx)) = inr ss ->
  endpoint w (List.length (requests w)) = Groq.Raises e ->
  exists reply w',
    submit ctx (Some text) messages w =
      (messages ++ [mk_message "user" text] ++ [mk_message "assistant" reply], w') /\
    contains "error" reply /\ contains e reply /\
    List.length (requests w') = S (List.length (requests w)).
Proof.
  intros Hne Hkey Hc Hs He.
  destruct text as [|c q]; [contradiction|].
  unfold submit.
  set (w1 := log_chat_message "user" (String c q) w).
  destruct (log_chat_message_frame "user" (String c q) w) as (Hk1 & He1 & Hr1).
  fold w1 in Hk1, He1, Hr1.
  assert (Hkey1 : key_missing (GROQ_API_KEY w1) = false) by now rewrite Hk1.
  assert (He1' : endpoint w1 (List.length (requests w1)) = Groq.Raises e)
    by now rewrite He1, Hr1.
  destruct (get_groq_response_raises ctx (String c q) w1 Hkey1 Hc Hs He1')
    as (rq & Hresp & _).
  rewrite Hresp.
  exists (api_error e). eexists. split.
  - rewrite <- app_assoc. reflexivity.
  - destruct (contains_api_error e) as [H1 H2].
    split; [exact H1|]. split; [exact H2|].
    destruct (log_chat_message_frame "assistant" (api_error e)
                (set_requests w1 (requests w1 ++ [rq]))) as (_ & _ & Hr3).
    rewrite Hr3. simpl. rewrite length_app, Hr1. simpl. lia.
Qed.

Lemma submit_on_failure_witness :
  exists reply w',
    submit Examples.ctx (Some "What is the AQI in Delhi?") []
           (Examples.world (Some "key") Examples.always_raises None) =
      ([] ++ [mk_message "user" "What is the AQI in Delhi?"]
          ++ [mk_message "assistant" reply], w') /\
    contains "error" reply /\ contains "timeout" reply /\
    List.length (requests w') = 1.
Proof.
  assert (Hne : "What is the AQI in Delhi?" <> "") by discriminate.
  exact (submit_on_failure Examples.ctx (e := "timeout") []
           (Examples.world (Some "key") Examples.always_raises None)
           (cs := ["Delhi"]) (ss := ["A"])
           Hne eq_refl eq_refl eq_refl eq_refl).
Defined.

(** C9, as stated, fails on the interactive path: without a key the run
    of the application is not halted.  It loads the data, raises the
    alert and answers the turn with the fixed text; the batch script on
    the same world exits with status 1. *)
Lemma interactive_run_continues_without_key :
  let w := Examples.world None Examples.flaky None in
  fst (Batch.script w) = Batch.sys_exit 1 /\
  exists p w',
    main (fun _ => "") (fun _ => "")
         Examples.city_day Examples.station_day Examples.stations_csv
         None (Some "hi") w = (Some p, w') /\
    alert p = Alert.SEVERE /\
    history p = [greeting 2 3 None (Some "Delhi");
                 mk_message "user" "hi"; mk_message "assistant" KEY_NOT_FOUND] /\
    requests w' = [].
Proof.
  split; [reflexivity|]. eexists. eexists.
  split; [vm_compute; reflexivity|]. repeat split.
Qed.

(** C9, amended: without a key no request is ever sent and the missing
    key is reported on both paths.  The batch script prints the fatal
    message and exits with status 1 before anything else; the
    interactive path answers the turn with the fixed text, which enters
    the history like any reply. *)
Theorem missing_key_no_request (w : World) :
  key_missing (GROQ_API_KEY w) = true ->
  (Batch.script w =
     (Batch.sys_exit 1, print fatal_key_hint (print fatal_key_not_found w)) /\
   requests (snd (Batch.script w)) = requests w) /\
  (forall ctx user_query messages,
      requests (snd (submit ctx user_query messages w)) = requests w /\
      forall text, user_query = Some text -> text <> "" ->
        fst (submit ctx user_query messages w) =
        messages ++ [mk_message "user" text; mk_message "assistant" KEY_NOT_FOUND]).
Proof.
  intros Hkey. split.
  - unfold Batch.script, Batch.module_setup. rewrite Hkey. split; reflexivity.
  - intros ctx user_query messages.
    destruct user_query as [[|c q]|]; simpl.
    + split; [reflexivity|]. intros text H Hne. inversion H; subst. contradiction.
    + set (w1 := log_chat_message "user" (String c q) w).
      destruct (log_chat_message_frame "user" (String c q) w) as (Hk1 & _ & Hr1).
      fold w1 in Hk1, Hr1.
      rewrite (get_groq_response_no_key ctx (String c q) w1) by now rewrite Hk1.
      simpl. split.
      * destruct (log_chat_message_frame "assistant" KEY_NOT_FOUND w1) as (_ & _ & Hr2).
        now rewrite Hr2.
      * intros text H _. inversion H; subst. rewrite <- app_assoc. reflexivity.
    + split; [reflexivity|]. intros text H. discriminate.
Qed.

Lemma missing_key_no_request_witness :
  Batch.script (Examples.world None Examples.flaky (Some ["q1"])) =
  (Batch.sys_exit 1,
   print fatal_key_hint
         (print fatal_key_not_found (Examples.world None Examples.flaky (Some ["q1"])))).
Proof.
  exact (proj1 (proj1 (missing_key_no_request
                         (Examples.world None Examples.flaky (Some ["q1"])) eq_refl))).
Defined.

End ChatClaims.

(* ================================================================== *)
(** * Further properties of the chat application *)

Section TranscriptFacts.
Import Chat.

(** Everything [log_chat_message] leaves alone. *)
Lemma log_chat_message_keeps (role content : string) (w : World) :
  let w' := log_chat_message role content w in
  now w' = now w /\ chat_log_error w' = chat_log_error w /\
  QUERIES_FILE w' = QUERIES_FILE w /\ OUTPUT_LOG_FILE w' = OUTPUT_LOG_FILE w /\
  stdout w' = stdout w /\ local_elapsed w' = local_elapsed w.
Proof.
  cbv zeta. unfold log_chat_message.
  destruct (chat_log_error w) as [[e|e]|] eqn:E; simpl; rewrite ?E;
    repeat split; reflexivity.
Qed.

Lemma log_chat_message_ok (role content : string) (w : World) :
  chat_log_error w = None ->
  chat_log (log_chat_message role content w) =
    Some (match chat_log w with Some rows => rows | None => [LOG_HEADER] end
          ++ [log_row w (role, content)]) /\
  warnings (log_chat_message role content w) = warnings w.
Proof. unfold log_chat_message. intros ->. simpl. split; reflexivity. Qed.



Lemma log_all_existing (msgs : list (string * string)) :
  forall (w : World) (rows : list (list string)),
    chat_log_error w = None -> chat_log w = Some rows ->
    chat_log (log_all msgs w) = Some (rows ++ map (log_row w) msgs) /\
    chat_log_error (log_all msgs w) = None /\ now (log_all msgs w) = now w.
Proof.
  unfold log_all. induction msgs as [|[r c] msgs IH]; intros w rows Herr Hlog; simpl.
  - rewrite app_nil_r. auto.
  - destruct (log_chat_message_ok r c w Herr) as [Hnew _].
    destruct (log_chat_message_keeps r c w) as (Hnow & Herr' & _).
    simpl in Hnow, Herr'. rewrite Hlog in Hnew.
    rewrite Herr in Herr'.
    destruct (IH _ _ Herr' Hnew) as (H1 & H2 & H3).
    rewrite H1, H2, H3, Hnow. repeat split.
    rewrite <- app_assoc. simpl. do 3 f_equal.
    apply map_ext. intros m. unfold log_row. now rewrite Hnow.
Qed.

(** X1: the transcript is append-only and its header is written once.
    When logging works, logging any sequence of messages onto an existing
    file appends one row per message, in order, after the rows that were
    there; onto a missing file it writes the header followed by those
    rows. *)
Theorem transcript_append_only (msgs : list (string * string)) (w : World) :
  chat_log_error w = None ->
  (forall rows, chat_log w = Some rows ->
                chat_log (log_all msgs w) = Some (rows ++ map (log_row w) msgs)) /\
  (chat_log w = None -> msgs <> [] ->
   chat_log (log_all msgs w) = Some (LOG_HEADER :: map (log_row w) msgs)).
Proof.
  intros Herr. split.
  - intros rows Hlog. now destruct (log_all_existing msgs w Herr Hlog).
  - intros Hnone Hne. destruct msgs as [|[r c] msgs]; [contradiction|].
    unfold log_all. simpl.
    destruct (log_chat_message_ok r c w Herr) as [Hnew _].
    destruct (log_chat_message_keeps r c w) as (Hnow & Herr' & _).
    simpl in Hnow, Herr'. rewrite Hnone in Hnew. rewrite Herr in Herr'.
    destruct (log_all_existing msgs _ Herr' Hnew) as (H1 & _).
    unfold log_all in H1. rewrite H1. simpl. do 3 f_equal.
    apply map_ext. intros m. unfold log_row. now rewrite Hnow.
Qed.

Lemma transcript_append_only_witness :
  chat_log (log_all [("user", "hi"); ("assistant", "hello")]
                    (Examples.world None Examples.flaky None)) =
  Some (LOG_HEADER ::
        map (log_row (Examples.world None Examples.flaky None))
            [("user", "hi"); ("assistant", "hello")]).
Proof.
  assert (Hne : [("user", "hi"); ("assistant", "hello")] <> []) by discriminate.
  exact (proj2 (transcript_append_only [("user", "hi"); ("assistant", "hello")]
                  (Examples.world None Examples.flaky None) eq_refl) eq_refl Hne).
Defined.

End TranscriptFacts.

Section TurnFacts.
Import Chat.

Lemma strings_from_length (names : list (option string)) :
  forall i cs, strings_from i names = inr cs -> List.length cs = List.length names.
Proof.
  induction names as [|[s|] names IH]; intros i cs H; simpl in H.
  - inversion H. reflexivity.
  - destruct (strings_from (S i) names) as [j|l] eqn:E; [discriminate|].
    inversion H; subst. simpl. f_equal. eapply IH. exact E.
  - discriminate.
Qed.

(** The first missing name decides the failure. *)
Lemma strings_from_missing (names : list (option string)) :
  forall i, In None names ->
    exists k, strings_from i names = inl (i + k) /\
              nth_error names k = Some None /\
              forall j, j < k -> exists s, nth_error names j = Some (Some s).
Proof.
  induction names as [|[s|] names IH]; intros i Hin; simpl in *; [contradiction| |].
  - destruct Hin as [Heq|Hin]; [discriminate|].
    destruct (IH (S i) Hin) as (k & Hk & Hn & Hbefore).
    exists (S k). rewrite Hk. split; [f_equal; lia|]. split; [exact Hn|].
    intros [|j] Hj; simpl; [eauto|]. apply Hbefore. lia.
  - exists 0. split; [f_equal; lia|]. split; [reflexivity|]. intros j Hj. lia.
Qed.

Lemma nth_error_head (A : Type) (n k : nat) (l : list A) (x : A) :
  nth_error (head n l) k = Some x -> k < n /\ nth_error l k = Some x.
Proof.
  unfold head. revert k l. induction n as [|n IH]; intros k l H.
  - destruct k; discriminate.
  - destruct l as [|y l]; [destruct k; discriminate|].
    destruct k as [|k]; simpl in *; [split; [lia|exact H]|].
    apply IH in H. split; [lia|tauto].
Qed.

Lemma get_groq_response_cases (ctx : context) (user_query : string) (w : World) :
  snd (get_groq_response ctx user_query w) = w \/
  (key_missing (GROQ_API_KEY w) = false /\
   exists rq, snd (get_groq_response ctx user_query w)
              = set_requests w (requests w ++ [rq]) /\
              turn_request ctx user_query rq).
Proof.
  unfold get_groq_response.
  destruct (key_missing (GROQ_API_KEY w)) eqn:K; [now left|].
  destruct (strings_from 0 (head 5 (cities ctx))) as [i|cs] eqn:C; [now left|].
  destruct (strings_from 0 (head 5 (stations ctx))) as [i|ss] eqn:S; [now left|].
  right. split; [reflexivity|].
  apply strings_from_length in C. apply strings_from_length in S.
  pose proof (head_length 5 (cities ctx)) as Hc.
  pose proof (head_length 5 (stations ctx)) as Hs.
  unfold create, turn_request.
  destruct (endpoint w (List.length (requests w)));
    simpl; eexists; (split; [reflexivity|]); simpl;
    (split; [reflexivity|]); (split; [reflexivity|]); (split; [reflexivity|]);
    eexists; (split; [reflexivity|]); simpl; repeat split; lia.
Qed.

Lemma get_groq_response_keeps (ctx : context) (user_query : string) (w : World) :
  let w' := snd (get_groq_response ctx user_query w) in
  GROQ_API_KEY w' = GROQ_API_KEY w /\ endpoint w' = endpoint w /\
  now w' = now w /\ chat_log w' = chat_log w /\
  chat_log_error w' = chat_log_error w /\ warnings w' = warnings w /\
  exists more, requests w' = requests w ++ more /\ List.length more <= 1.
Proof.
  destruct (get_groq_response_cases ctx user_query w) as [H|[_ (rq & H & _)]];
    simpl; rewrite H; simpl.
  - repeat split. exists []. rewrite app_nil_r. split; [reflexivity|simpl; lia].
  - repeat split. exists [rq]. split; [reflexivity|simpl; lia].
Qed.

Lemma get_groq_response_keeps_eq (ctx : context) (user_query reply : string)
      (w w' : World) :
  get_groq_response ctx user_query w = (reply, w') ->
  GROQ_API_KEY w' = GROQ_API_KEY w /\ endpoint w' = endpoint w /\
  now w' = now w /\ chat_log w' = chat_log w /\
  chat_log_error w' = chat_log_error w /\ warnings w' = warnings w /\
  exists more, requests w' = requests w ++ more /\ List.length more <= 1.
Proof.
  intros E. pose proof (get_groq_response_keeps ctx user_query w) as H.
  rewrite E in H. exact H.
Qed.





End TurnFacts.

Section TurnProperties.
Import Chat.

(** X2: every submitted text extends the history by exactly the user's
    message and one assistant message, whatever the key, the context and
    the endpoint do, and sends at most one request, which carries the
    text, the model name, temperature 0.3, the true totals and previews
    of at most five names; without a submitted text nothing changes. *)
Theorem submit_extends_history (ctx : context) (user_query : option string)
        (messages : list message) (w : World) :
  (user_query = None \/ user_query = Some "" ->
   submit ctx user_query messages w = (messages, w)) /\
  (forall text, user_query = Some text -> text <> "" ->
     exists reply,
       fst (submit ctx user_query messages w) =
         messages ++ [mk_message "user" text; mk_message "assistant" reply] /\
       (requests (snd (submit ctx user_query messages w)) = requests w \/
        exists rq,
          requests (snd (submit ctx user_query messages w)) = requests w ++ [rq] /\
          turn_request ctx text rq)).
Proof.
  split.
  - intros [->| ->]; reflexivity.
  - intros text -> Hne. destruct text as [|c q]; [contradiction|].
    unfold submit.
    set (w1 := log_chat_message "user" (String c q) w).
    destruct (get_groq_response ctx (String c q) w1) as [reply w2] eqn:E.
    exists reply. split; [simpl; now rewrite <- app_assoc|].
    simpl.
    destruct (log_chat_message_frame "assistant" reply w2) as (_ & _ & Hr3).
    rewrite Hr3.
    destruct (log_chat_message_frame "user" (String c q) w) as (Hk1 & He1 & Hr1).
    fold w1 in Hk1, He1, Hr1.
    destruct (get_groq_response_cases ctx (String c q) w1) as [H|[_ (rq & H & Hrq)]];
      rewrite E in H; simpl in H.
    + left. now rewrite H.
    + right. exists rq. split; [|exact Hrq].
      rewrite H. simpl. now rewrite Hr1.
Qed.

Lemma submit_extends_history_witness :
  exists reply,
    fst (submit Examples.ctx (Some "hi") []
                (Examples.world (Some "key") Examples.flaky None)) =
    [] ++ [mk_message "user" "hi"; mk_message "assistant" reply].
Proof.
  assert (Hne : "hi" <> "") by discriminate.
  destruct (proj2 (submit_extends_history Examples.ctx (Some "hi") []
                     (Examples.world (Some "key") Examples.flaky None))
                  "hi" eq_refl Hne) as (reply & H & _).
  exists reply. exact H.
Defined.


(** X4: when one of the first five station names handed to the prompt is
    missing (a station without metadata), every turn with a key present
    is answered with the error text for the position of the first
    missing name, and no request is sent. *)
Theorem missing_station_name_fails_turn (ctx : context) (user_query : string)
        (w : World) (cs : list string) :
  key_missing (GROQ_API_KEY w) = false ->
  strings_from 0 (head 5 (cities ctx)) = inr cs ->
  In None (head 5 (stations ctx)) ->
  exists i,
    i < 5 /\ nth_error (stations ctx) i = Some None /\
    (forall j, j < i -> exists s, nth_error (stations ctx) j = Some (Some s)) /\
    get_groq_response ctx user_query w = (api_error (join_error i), w) /\
    contains "error" (api_error (join_error i)).
Proof.
  intros Hkey Hc Hin.
  destruct (strings_from_missing (head 5 (stations ctx)) 0 Hin) as (k & Hk & Hn & Hbefore).
  apply nth_error_head in Hn. destruct Hn as [Hlt Hn].
  exists k. split; [exact Hlt|]. split; [exact Hn|]. split.
  - intros j Hj. destruct (Hbefore j Hj) as (s & Hs).
    apply nth_error_head in Hs. exists s. tauto.
  - split; [|apply contains_api_error].
    unfold get_groq_response. rewrite Hkey, Hc, Hk. reflexivity.
Qed.

Lemma missing_station_name_fails_turn_witness :
  exists i,
    get_groq_response (mk_context "c" "s" [Some "Delhi"] [Some "A"; None; Some "C"])
                      "hi" (Examples.world (Some "key") Examples.flaky None) =
    (api_error (join_error i), Examples.world (Some "key") Examples.flaky None).
Proof.
  destruct (missing_station_name_fails_turn
              (mk_context "c" "s" [Some "Delhi"] [Some "A"; None; Some "C"]) "hi"
              (Examples.world (Some "key") Examples.flaky None)
              (cs := ["Delhi"]) eq_refl eq_refl (or_intror (or_introl eq_refl)))
    as (i & _ & _ & _ & H & _).
  exists i. exact H.
Defined.

(** X5: with a working log, a turn adds exactly two rows to the
    transcript, after the rows already there (or after a fresh header):
    the user's text and then the reply that entered the history. *)
Theorem submit_transcript (ctx : context) (text : string)
        (messages : list message) (w : World) :
  text <> "" -> chat_log_error w = None ->
  exists reply,
    fst (submit ctx (Some text) messages w) =
      messages ++ [mk_message "user" text; mk_message "assistant" reply] /\
    chat_log (snd (submit ctx (Some text) messages w)) =
      Some (match chat_log w with Some rows => rows | None => [LOG_HEADER] end
            ++ transcript_rows w "user" "assistant" text reply).
Proof.
  intros Hne Herr. destruct text as [|c q]; [contradiction|].
  unfold submit. set (text := String c q).
  set (w1 := log_chat_message "user" text w).
  destruct (log_chat_message_ok "user" text w Herr) as [Hlog1 _]. fold w1 in Hlog1.
  destruct (log_chat_message_keeps "user" text w) as (Hnow1 & Herr1 & _).
  fold w1 in Hnow1, Herr1. rewrite Herr in Herr1.
  destruct (get_groq_response ctx text w1) as [reply w2] eqn:E.
  destruct (get_groq_response_keeps_eq _ _ _ E) as (_ & _ & Hnow2 & Hlog2 & Herr2 & _).
  rewrite Herr1 in Herr2.
  exists reply. simpl. split; [now rewrite <- app_assoc|].
  destruct (log_chat_message_ok "assistant" reply w2 Herr2) as [Hlog3 _].
  rewrite Hlog3, Hlog2, Hlog1. unfold log_row, transcript_rows. simpl.
  rewrite Hnow2, Hnow1. rewrite <- app_assoc. reflexivity.
Qed.

Lemma submit_transcript_witness :
  exists reply,
    chat_log (snd (submit Examples.ctx (Some "hi") []
                          (Examples.world (Some "key") Examples.flaky None))) =
    Some ([LOG_HEADER] ++
          transcript_rows (Examples.world (Some "key") Examples.flaky None)
                          "user" "assistant" "hi" reply).
Proof.
  assert (Hne : "hi" <> "") by discriminate.
  destruct (submit_transcript Examples.ctx []
              (Examples.world (Some "key") Examples.flaky None) Hne eq_refl)
    as (reply & _ & H).
  exists reply. exact H.
Defined.

End TurnProperties.

Section SidebarProperties.
Import Chat Sidebar.

Lemma batch_loop_spec (ctx : context) (queries : list string) :
  forall (acc : list batch_result) (w : World),
    exists new,
      fst (batch_loop ctx queries acc w) = acc ++ new /\
      map query new = queries /\
      GROQ_API_KEY (snd (batch_loop ctx queries acc w)) = GROQ_API_KEY w /\
      now (snd (batch_loop ctx queries acc w)) = now w /\
      chat_log_error (snd (batch_loop ctx queries acc w)) = chat_log_error w /\
      (exists more, requests (snd (batch_loop ctx queries acc w)) = requests w ++ more /\
                    List.length more <= List.length queries) /\
      (key_missing (GROQ_API_KEY w) = true ->
       requests (snd (batch_loop ctx queries acc w)) = requests w /\
       forall r, In r new -> response r = KEY_NOT_FOUND) /\
      (chat_log_error w = None -> queries <> [] ->
       chat_log (snd (batch_loop ctx queries acc w)) =
         Some (match chat_log w with Some rows => rows | None => [LOG_HEADER] end
               ++ flat_map (fun r => transcript_rows w "batch_user" "batch_assistant"
                                                     (query r) (response r)) new)).
Proof.
  induction queries as [|q rest IH]; intros acc w; simpl.
  - exists []. rewrite app_nil_r. repeat split; try reflexivity.
    + exists []. rewrite app_nil_r. split; [reflexivity|simpl; lia].
    + intros r [].
    + intros _ H. contradiction.
  - set (w1 := log_chat_message "batch_user" q w).
    destruct (get_groq_response ctx q w1) as [reply w2] eqn:E.
    set (w3 := log_chat_message "batch_assistant" reply w2).
    destruct (log_chat_message_frame "batch_user" q w) as (Hk1 & _ & Hr1).
    destruct (log_chat_message_keeps "batch_user" q w) as (Hn1 & He1 & _).
    fold w1 in Hk1, Hr1, Hn1, He1.
    destruct (get_groq_response_keeps_eq _ _ _ E)
      as (Hk2 & _ & Hn2 & Hl2 & He2 & _ & more2 & Hr2 & Hlen2).
    destruct (log_chat_message_frame "batch_assistant" reply w2) as (Hk3 & _ & Hr3).
    destruct (log_chat_message_keeps "batch_assistant" reply w2) as (Hn3 & He3 & _).
    fold w3 in Hk3, Hr3, Hn3, He3.
    destruct (IH (acc ++ [mk_batch_result q reply]) w3)
      as (new & Hres & Hq & Hk & Hn & He & (more & Hr & Hlen) & Hmiss & Hlog).
    exists (mk_batch_result q reply :: new).
    split; [rewrite Hres, <- app_assoc; reflexivity|].
    split; [simpl; now rewrite Hq|].
    split; [congruence|]. split; [congruence|]. split; [congruence|].
    split.
    { exists (more2 ++ more). split.
      - rewrite Hr, Hr3, Hr2, Hr1, app_assoc. reflexivity.
      - rewrite length_app. simpl. lia. }
    split.
    { intros Hkey.
      assert (Hkey1 : key_missing (GROQ_API_KEY w1) = true) by now rewrite Hk1.
      pose proof (get_groq_response_no_key ctx q w1 Hkey1) as Hno.
      rewrite E in Hno. inversion Hno; subst reply w2.
      assert (Hkey3 : key_missing (GROQ_API_KEY w3) = true) by (rewrite Hk3, Hk1; exact Hkey).
      destruct (Hmiss Hkey3) as [Hreq Hall]. split.
      - rewrite Hreq, Hr3, Hr1. reflexivity.
      - intros r [<-|Hin]; [reflexivity|now apply Hall]. }
    intros Herr _.
    destruct (log_chat_message_ok "batch_user" q w Herr) as [Hlog1 _]. fold w1 in Hlog1.
    assert (Herr2 : chat_log_error w2 = None) by congruence.
    destruct (log_chat_message_ok "batch_assistant" reply w2 Herr2) as [Hlog3 _].
    fold w3 in Hlog3. rewrite Hl2, Hlog1 in Hlog3.
    assert (Hrows : chat_log w3 =
                    Some (match chat_log w with Some rows => rows | None => [LOG_HEADER] end
                          ++ transcript_rows w "batch_user" "batch_assistant" q reply)).
    { rewrite Hlog3. unfold log_row, transcript_rows. simpl.
      rewrite Hn2, Hn1, <- app_assoc. reflexivity. }
    destruct rest as [|q' rest'].
    + destruct new as [|r new]; [|discriminate]. simpl. rewrite Hrows. reflexivity.
    + assert (Herr3 : chat_log_error w3 = None) by congruence.
      assert (Hne : q' :: rest' <> []) by discriminate.
      pose proof (Hlog Herr3 Hne) as HL. rewrite Hrows in HL.
      etransitivity; [exact HL|].
      assert (Hnow : now w3 = now w) by congruence.
      assert (Hflat : flat_map (fun r => transcript_rows w3 "batch_user" "batch_assistant"
                                                        (query r) (response r)) new =
                      flat_map (fun r => transcript_rows w "batch_user" "batch_assistant"
                                                        (query r) (response r)) new).
      { apply flat_map_ext. intros r. unfold transcript_rows. now rewrite Hnow. }
      rewrite Hflat. rewrite <- app_assoc. reflexivity.
Qed.

(** X6: the batch analysis of the sidebar answers the queries in order,
    one result per query; it sends at most one request per query, and
    none when the key is missing, in which case every response is the
    fixed key-not-found text; with a working log the transcript gains,
    per query and in order, a batch_user row and a batch_assistant row
    holding the response.  With no query it only warns. *)
Theorem run_batch_analysis_results (ctx : context) (queries : list string) (w : World) :
  let results := fst (run_batch_analysis ctx queries w) in
  let w' := snd (run_batch_analysis ctx queries w) in
  map query results = queries /\
  (exists more, requests w' = requests w ++ more /\
                List.length more <= List.length queries) /\
  (key_missing (GROQ_API_KEY w) = true ->
   requests w' = requests w /\ forall r, In r results -> response r = KEY_NOT_FOUND) /\
  (chat_log_error w = None -> queries <> [] ->
   chat_log w' =
     Some (match chat_log w with Some rows => rows | None => [LOG_HEADER] end
           ++ flat_map (fun r => transcript_rows w "batch_user" "batch_assistant"
                                                 (query r) (response r)) results)) /\
  (queries = [] ->
   warnings w' = warnings w ++ [NO_QUERIES] /\ chat_log w' = chat_log w).
Proof.
  cbv zeta. destruct queries as [|q rest].
  - simpl. split; [reflexivity|]. split.
    + exists []. rewrite app_nil_r. split; [reflexivity|simpl; lia].
    + split; [intros _; split; [reflexivity|intros r []]|].
      split; [intros _ H; contradiction|]. intros _. split; reflexivity.
  - unfold run_batch_analysis.
    destruct (batch_loop_spec ctx (q :: rest) [] w)
      as (new & Hres & Hq & _ & _ & _ & Hreq & Hmiss & Hlog).
    simpl app in Hres. rewrite Hres.
    split; [exact Hq|]. split; [exact Hreq|]. split; [exact Hmiss|].
    split; [exact Hlog|]. intros H. discriminate.
Qed.

Lemma run_batch_analysis_results_witness :
  requests (snd (run_batch_analysis Examples.ctx ["q1"; "q2"]
                                    (Examples.world None Examples.flaky None))) = [] /\
  forall r, In r (fst (run_batch_analysis Examples.ctx ["q1"; "q2"]
                                          (Examples.world None Examples.flaky None))) ->
            response r = KEY_NOT_FOUND.
Proof.
  exact (proj1 (proj2 (proj2 (run_batch_analysis_results
                                Examples.ctx ["q1"; "q2"]
                                (Examples.world None Examples.flaky None)))) eq_refl).
Defined.

End SidebarProperties.

(* ================================================================== *)
(** * Further properties of the loader and the sampler *)

Section LoaderProperties.
Import Loader.

Local Abbreviation latest_city_of := (latest_of CityDay.City CityDay.Date).

Lemma latest_city_data_defined (source : list CityDay.row) :
  (exists t, latest_city_data (read_csv source) = Some t) <->
  (forall k, occurs CityDay.City source k -> dated CityDay.City CityDay.Date source k).
Proof.
  rewrite <- latest_rows_defined. rewrite latest_city_data_kept. unfold latest_city.
  destruct (latest_rows CityDay.City CityDay.Date (read_csv source)) as [out|]; simpl.
  - split; eauto.
  - split; intros (t & H); discriminate.
Qed.

Lemma latest_city_data_In (source : list CityDay.row) (t : Frame LatestCity.row)
      (i : nat) (r' : LatestCity.row) :
  latest_city_data (read_csv source) = Some t ->
  (In (i, r') t <->
   exists k r, latest_city_of source k i r /\
               isna (CityDay.AQI r) = false /\ r' = coerce_city r).
Proof.
  rewrite latest_city_data_kept. unfold latest_city.
  destruct (latest_rows CityDay.City CityDay.Date (read_csv source)) as [out|] eqn:E;
    [|discriminate].
  simpl. intros H. inversion H; subst. clear H. rewrite kept_In. split.
  - intros (r & Hin & Hna & ->).
    apply (latest_rows_In _ _ _ i r E) in Hin. destruct Hin as (k & Hk).
    exists k, r. auto.
  - intros (k & r & Hk & Hna & ->). exists r. split; [|auto].
    apply (latest_rows_In _ _ _ i r E). now exists k.
Qed.

(** Some city's latest row carries an AQI. *)
Lemma latest_city_data_nonempty (source : list CityDay.row) (t : Frame LatestCity.row) :
  latest_city_data (read_csv source) = Some t ->
  (t <> [] <-> exists k i r, latest_city_of source k i r /\ isna (CityDay.AQI r) = false).
Proof.
  intros Ht. split.
  - intros Hne. destruct t as [|[i r'] t']; [contradiction|].
    assert (Hin : In (i, r') ((i, r') :: t')) by now left.
    apply (@latest_city_data_In source _ i r' Ht) in Hin.
    destruct Hin as (k & r & Hk & Hna & _).
    exists k, i, r. auto.
  - intros (k & i & r & Hk & Hna) ->.
    assert (Hin : In (i, coerce_city r) []).
    { apply (@latest_city_data_In source _ i (coerce_city r) Ht). exists k, r. auto. }
    contradiction.
Qed.

Lemma context_cities_df_defined (cap : nat) (t : Frame LatestCity.row) :
  NoDup (map fst t) ->
  ((exists c, context_cities_df cap t = Some c) <-> t <> []).
Proof.
  intros Hnd. split.
  - intros (c & H) ->. discriminate.
  - intros Hne. destruct (worst_city_row_spec Hne Hnd) as (i & w & Hw & _).
    destruct (context_cities_df_head cap _ Hw) as (rest & H). eauto.
Qed.

(** X7: the load succeeds only if every city of the city day table has
    at least one row with a parseable date and at least one city's
    latest row carries an AQI.  So a single city whose dates are all
    unparseable, or a city table without any usable AQI, sends the
    loader to its exception branch, whatever the other files hold. *)
Theorem load_aqi_datasets_succeeds_only_if (city_day : list CityDay.row)
        (station_day : list StationDay.row) (stations_csv : list Stations.row)
        (result : loaded) :
  load_aqi_datasets city_day station_day stations_csv = Some result ->
  (forall k, occurs CityDay.City city_day k ->
             dated CityDay.City CityDay.Date city_day k) /\
  (exists k i r, latest_city_of city_day k i r /\ isna (CityDay.AQI r) = false).
Proof.
  unfold load_aqi_datasets. intros H.
  destruct (latest_city_data (read_csv city_day)) as [lc|] eqn:Ec; [|discriminate].
  destruct (latest_station_data (read_csv station_day) (read_csv stations_csv))
    as [ls|] eqn:Es; [|discriminate].
  destruct (context_cities_df CITY_CAP lc) as [cc|] eqn:Ecc; [|discriminate].
  split; [apply latest_city_data_defined; eauto|].
  apply (@latest_city_data_nonempty city_day lc Ec).
  apply (@context_cities_df_defined CITY_CAP lc);
    [apply (unique_index (@latest_city_data_LatestTable city_day lc Ec))|eauto].
Qed.

Lemma load_aqi_datasets_succeeds_only_if_witness :
  dated CityDay.City CityDay.Date Examples.city_day "Delhi".
Proof.
  destruct (load_aqi_datasets Examples.city_day Examples.station_day
                              Examples.stations_csv) as [result|] eqn:E;
    [|vm_compute in E; discriminate].
  apply (proj1 (@load_aqi_datasets_succeeds_only_if _ _ _ _ E)).
  exists (Examples.city "Delhi" Examples.Jan01 (Num 450)).
  split; [now left|reflexivity].
Defined.

Lemma load_aqi_datasets_parts (city_day : list CityDay.row)
      (station_day : list StationDay.row) (stations_csv : list Stations.row)
      (result : loaded) :
  load_aqi_datasets city_day station_day stations_csv = Some result ->
  latest_city_data (read_csv city_day) = Some (latest_city_df result) /\
  latest_station_data (read_csv station_day) (read_csv stations_csv)
    = Some (latest_station_df result) /\
  context_cities_df CITY_CAP (latest_city_df result) = Some (city_context result) /\
  station_context result = context_stations_df STATION_CAP (latest_station_df result) /\
  cities result = unique LatestCity.City (latest_city_df result) /\
  stations result = unique LatestStation.StationName (latest_station_df result).
Proof.
  unfold load_aqi_datasets.
  destruct (latest_city_data (read_csv city_day)) as [lc|] eqn:Ec; [|discriminate].
  destruct (latest_station_data (read_csv station_day) (read_csv stations_csv))
    as [ls|] eqn:Es; [|discriminate].
  destruct (context_cities_df CITY_CAP lc) as [cc|] eqn:Ecc; [|discriminate].
  intros H. inversion H; subst. simpl. repeat split; assumption.
Qed.

(** X8: after a successful load the city table is a latest table with
    at least one row, the city context starts with a city of maximum AQI
    and has between one and ten rows, and the station context has at most
    fifteen rows, all of them rows of the station table. *)
Theorem load_aqi_datasets_contexts (city_day : list CityDay.row)
        (station_day : list StationDay.row) (stations_csv : list Stations.row)
        (result : loaded) :
  load_aqi_datasets city_day station_day stations_csv = Some result ->
  LatestTable (latest_city_df result) /\
  latest_city_df result <> [] /\
  (exists w rest,
      city_context result = w :: rest /\
      worst_of (latest_city_df result) w /\
      List.length (w :: rest) <= 10 /\
      forall r, In r rest -> In r (rows (latest_city_df result))) /\
  List.length (station_context result) <= 15 /\
  (forall r, In r (station_context result) -> In r (rows (latest_station_df result))).
Proof.
  intros H. destruct (@load_aqi_datasets_parts _ _ _ _ H) as (Ec & Es & Ecc & Est & _).
  pose proof (@latest_city_data_LatestTable _ _ Ec) as HL.
  assert (Hne : latest_city_df result <> []).
  { apply (@context_cities_df_defined CITY_CAP (latest_city_df result));
      [apply (unique_index HL)|eauto]. }
  split; [exact HL|]. split; [exact Hne|]. split.
  - destruct (worst_city_row_spec Hne (unique_index HL)) as (i & w & Hw & _ & Hworst).
    pose proof (context_cities_df_eq CITY_CAP HL Hw) as Heq.
    rewrite Ecc in Heq. apply Some_inj in Heq.
    exists w, (rows (sample_cities CITY_CAP (latest_city_df result) w)).
    split; [exact Heq|]. split; [exact Hworst|]. split.
    + simpl. unfold rows. rewrite length_map. unfold sample_cities, CITY_CAP.
      pose proof (head_length (10 - 1)
                    (sort_values LatestCity.City
                       (filter (fun x => ne_name (LatestCity.City (snd x))
                                                 (LatestCity.City w))
                               (latest_city_df result)))).
      lia.
    + intros r Hr. now apply sample_cities_rows in Hr.
  - rewrite Est. unfold context_stations_df, reset_index, STATION_CAP. split.
    + rewrite length_map. apply head_length.
    + intros r Hr. apply in_map_iff in Hr. destruct Hr as (x & <- & Hx).
      apply In_head, sort_values_In in Hx. unfold rows. now apply in_map.
Qed.

End LoaderProperties.

Section LoaderProperties2.
Import Loader.

Local Abbreviation latest_city_of := (latest_of CityDay.City CityDay.Date).

Lemma load_aqi_datasets_contexts_witness :
  exists result,
    load_aqi_datasets Examples.city_day Examples.station_day Examples.stations_csv
    = Some result /\
    latest_city_df result <> [] /\ List.length (station_context result) <= 15.
Proof.
  destruct (load_aqi_datasets Examples.city_day Examples.station_day
                              Examples.stations_csv) as [result|] eqn:E;
    [|vm_compute in E; discriminate].
  exists result. split; [reflexivity|].
  destruct (load_aqi_datasets_contexts _ _ _ E) as (_ & Hne & _ & Hlen & _).
  split; assumption.
Defined.

Lemma StronglySorted_after (A : Type) (R : A -> A -> Prop) (l1 l2 : list A) (a : A) :
  StronglySorted R (l1 ++ a :: l2) -> Forall (R a) l2.
Proof.
  induction l1 as [|x l1 IH]; simpl; intros H; inversion H; subst; auto.
Qed.

Lemma drop_duplicates_from_col (R : Type) (by_col : R -> option string)
      (seen : list (option string)) (df : Frame R) (v : option string) :
  In v (map (col by_col) df) ->
  In v seen \/ In v (map (col by_col) (drop_duplicates_from by_col seen df)).
Proof.
  revert seen. induction df as [|x df IH]; intros seen Hin; simpl in *; [contradiction|].
  destruct (existsb (eq_name (by_col (snd x))) seen) eqn:E.
  - destruct Hin as [<-|Hin]; [left; now apply existsb_eq_name|now apply IH].
  - simpl. destruct Hin as [<-|Hin]; [right; now left|].
    destruct (IH (by_col (snd x) :: seen) Hin) as [[<-|Hs]|Hd]; auto.
Qed.

Lemma StronglySorted_names (A : Type) (f : A -> option string) (l : list A) :
  StronglySorted (fun a b => le_name (f a) (f b) = true) l ->
  StronglySorted (fun a b => le_name a b = true) (map f l).
Proof.
  induction 1 as [|a l Hl IH Ha]; simpl; constructor; [exact IH|].
  apply Forall_forall. intros c Hin. apply in_map_iff in Hin.
  destruct Hin as (b & <- & Hb). rewrite Forall_forall in Ha. now apply Ha.
Qed.

(** [unique] lists exactly the values of the column. *)
Lemma unique_In (R : Type) (by_col : R -> option string) (df : Frame R)
      (v : option string) :
  In v (unique by_col df) <-> In v (map (col by_col) df).
Proof.
  unfold unique, drop_duplicates. split.
  - intros H. apply in_map_iff in H. destruct H as (x & <- & Hx).
    apply drop_duplicates_from_In in Hx. apply in_map_iff. exists x. tauto.
  - intros H. destruct (drop_duplicates_from_col by_col [] df v H) as [[]|Hd]. exact Hd.
Qed.

(** X9: the list of cities handed to the prompt names each city of the
    latest table once, in ascending order of name, and a city is listed
    exactly when its latest row carries an AQI. *)
Theorem cities_sorted_distinct (city_day : list CityDay.row)
        (station_day : list StationDay.row) (stations_csv : list Stations.row)
        (result : loaded) :
  load_aqi_datasets city_day station_day stations_csv = Some result ->
  cities result = map LatestCity.City (rows (latest_city_df result)) /\
  NoDup (cities result) /\
  StronglySorted (fun a b => le_name a b = true) (cities result) /\
  (forall c, In c (cities result) <->
             exists k i r, c = Some k /\ latest_city_of city_day k i r /\
                           isna (CityDay.AQI r) = false).
Proof.
  intros H. destruct (@load_aqi_datasets_parts _ _ _ _ H) as (Ec & _ & _ & _ & Hc & _).
  pose proof (@latest_city_data_LatestTable _ _ Ec) as HL.
  assert (Heq : cities result = map LatestCity.City (rows (latest_city_df result))).
  { rewrite Hc. unfold unique.
    rewrite (drop_duplicates_id LatestCity.City _ (one_row_per_city HL)).
    unfold rows. now rewrite map_map. }
  split; [exact Heq|]. split.
  - rewrite Hc. unfold unique. apply drop_duplicates_NoDup.
  - split.
    + rewrite Heq.
      pose proof (@latest_city_data_sorted _ _ Ec) as Hs.
      apply StronglySorted_rows in Hs. now apply StronglySorted_names.
    + intros c. rewrite Heq. unfold rows. rewrite map_map. rewrite in_map_iff. split.
      * intros ([i r'] & <- & Hin). simpl.
        apply (@latest_city_data_In city_day _ i r' Ec) in Hin.
        destruct Hin as (k & r & Hk & Hna & ->).
        exists k, i, r. split; [|auto]. simpl. now destruct Hk as (_ & Hkey & _).
      * intros (k & i & r & -> & Hk & Hna). exists (i, coerce_city r). split.
        -- simpl. now destruct Hk as (_ & Hkey & _).
        -- apply (@latest_city_data_In city_day _ i (coerce_city r) Ec).
           exists k, r. auto.
Qed.

Lemma cities_sorted_distinct_witness :
  exists result,
    load_aqi_datasets Examples.city_day Examples.station_day Examples.stations_csv
    = Some result /\
    NoDup (cities result).
Proof.
  destruct (load_aqi_datasets Examples.city_day Examples.station_day
                              Examples.stations_csv) as [result|] eqn:E;
    [|vm_compute in E; discriminate].
  exists result. split; [reflexivity|].
  exact (proj1 (proj2 (cities_sorted_distinct _ _ _ E))).
Defined.

(** X10: when several cities share the maximum AQI, the worst row used
    for the alert and placed first in the city context is the one whose
    name comes first alphabetically. *)
Theorem worst_city_tie_break (city_day : list CityDay.row)
        (station_day : list StationDay.row) (stations_csv : list Stations.row)
        (result : loaded) :
  load_aqi_datasets city_day station_day stations_csv = Some result ->
  exists i w rest,
    worst_city_row (latest_city_df result) = Some (i, w) /\
    city_context result = w :: rest /\
    forall x, In x (rows (latest_city_df result)) ->
              (LatestCity.AQI x == LatestCity.AQI w)%Q ->
              le_name (LatestCity.City w) (LatestCity.City x) = true.
Proof.
  intros H. destruct (@load_aqi_datasets_parts _ _ _ _ H) as (Ec & _ & Ecc & _).
  pose proof (@latest_city_data_LatestTable _ _ Ec) as HL.
  assert (Hne : latest_city_df result <> []).
  { apply (@context_cities_df_defined CITY_CAP (latest_city_df result));
      [apply (unique_index HL)|eauto]. }
  destruct (worst_city_row_spec Hne (unique_index HL)) as (i & w & Hw & _ & _).
  destruct (context_cities_df_head CITY_CAP _ Hw) as (rest & Hrest).
  rewrite Ecc in Hrest. apply Some_inj in Hrest.
  exists i, w, rest. split; [exact Hw|]. split; [exact Hrest|].
  destruct (worst_city_row_first _ (unique_index HL) Hw) as (t1 & t2 & Ht & Hlt).
  pose proof (@latest_city_data_sorted _ _ Ec) as Hs. rewrite Ht in Hs.
  apply StronglySorted_after in Hs.
  intros x Hx Htie. unfold rows in Hx. rewrite Ht, map_app in Hx.
  apply in_app_or in Hx. destruct Hx as [Hx|[<-|Hx]].
  - exfalso. apply (Qlt_not_eq _ _ (Hlt x Hx)). exact Htie.
  - apply le_name_refl.
  - apply in_map_iff in Hx. destruct Hx as (y & <- & Hy).
    rewrite Forall_forall in Hs. exact (Hs y Hy).
Qed.

Lemma worst_city_tie_break_witness :
  exists result i w rest,
    load_aqi_datasets Examples.city_day Examples.station_day Examples.stations_csv
    = Some result /\
    worst_city_row (latest_city_df result) = Some (i, w) /\
    city_context result = w :: rest.
Proof.
  destruct (load_aqi_datasets Examples.city_day Examples.station_day
                              Examples.stations_csv) as [result|] eqn:E;
    [|vm_compute in E; discriminate].
  destruct (worst_city_tie_break _ _ _ E) as (i & w & rest & Hw & Hc & _).
  exists result, i, w, rest. split; [reflexivity|]. split; assumption.
Defined.

End LoaderProperties2.

Section PageProperties.
Import Loader Chat.

Variable to_markdown_city : list LatestCity.row -> string.
Variable to_markdown_station : list LatestStation.row -> string.

Local Abbreviation run := (main to_markdown_city to_markdown_station).
Local Abbreviation latest_city_of := (latest_of CityDay.City CityDay.Date).

Lemma submit_suffix (ctx : context) (user_query : option string)
      (messages : list message) (w : World) :
  exists suffix,
    fst (submit ctx user_query messages w) = messages ++ suffix /\
    (((user_query = None \/ user_query = Some "") /\ suffix = []) \/
     exists text reply,
       user_query = Some text /\ text <> "" /\
       suffix = [mk_message "user" text; mk_message "assistant" reply]).
Proof.
  destruct user_query as [[|c q]|]; simpl.
  - exists []. rewrite app_nil_r. auto.
  - destruct (get_groq_response ctx (String c q)
                (log_chat_message "user" (String c q) w)) as [reply w2].
    simpl. exists [mk_message "user" (String c q); mk_message "assistant" reply].
    rewrite <- app_assoc. split; [reflexivity|]. right.
    exists (String c q), reply. split; [reflexivity|]. split; [discriminate|reflexivity].
  - exists []. rewrite app_nil_r. auto.
Qed.

(** X11: whenever a run of the application renders a page, the load
    succeeded, the city of the alert is the first row of the city context
    given to the model, that row has the maximum AQI of the latest table,
    the tier and its banner are those of this AQI, and the history shown
    extends the session's messages (or a fresh greeting) by nothing when
    no text was submitted, and otherwise by the user's message with the
    submitted text followed by one assistant message. *)
Theorem page_alert_matches_context
        (city_day : list CityDay.row) (station_day : list StationDay.row)
        (stations_csv : list Stations.row) (session : option (list message))
        (chat_input : option string) (w w' : World) (p : page) :
  run city_day station_day stations_csv session chat_input w = (Some p, w') ->
  exists result worst rest suffix,
    load_aqi_datasets city_day station_day stations_csv = Some result /\
    Loader.city_context result = worst :: rest /\
    worst_of (Loader.latest_city_df result) worst /\
    alert_city p = LatestCity.City worst /\
    alert p = Alert.classify (LatestCity.AQI worst) /\
    alert_banner p = Alert.banner (alert p) /\
    history p =
      match session with
      | Some ms => ms
      | None => [greeting (List.length (Loader.cities result))
                          (List.length (Loader.stations result))
                          (LatestCity.AQI_Bucket worst) (LatestCity.City worst)]
      end ++ suffix /\
    (((chat_input = None \/ chat_input = Some "") /\ suffix = []) \/
     exists text reply,
       chat_input = Some text /\ text <> "" /\
       suffix = [mk_message "user" text; mk_message "assistant" reply]).
Proof.
  unfold main. intros H.
  destruct (load_aqi_datasets city_day station_day stations_csv) as [result|] eqn:E;
    [|discriminate].
  destruct (@load_aqi_datasets_parts _ _ _ _ E) as (Ec & _ & Ecc & _).
  pose proof (@latest_city_data_LatestTable _ _ Ec) as HL.
  destruct (worst_city_row (latest_city_df result)) as [[i worst]|] eqn:Ew;
    [|discriminate].
  assert (Hne : latest_city_df result <> []).
  { intros Hnil. rewrite Hnil in Ew. discriminate. }
  destruct (worst_city_row_spec Hne (unique_index HL)) as (i' & w0 & Hw0 & _ & Hworst).
  rewrite Ew in Hw0. inversion Hw0; subst i' w0. clear Hw0.
  destruct (context_cities_df_head CITY_CAP _ Ew) as (rest & Hrest).
  rewrite Ecc in Hrest. apply Some_inj in Hrest.
  match type of H with
  | (let (_, _) := submit ?c ?q ?ms ?w0 in _) = _ =>
      destruct (submit_suffix c q ms w0) as (suffix & Hs & Hlen);
      destruct (submit c q ms w0) as [messages' w3] eqn:Es
  end.
  simpl in Hs. inversion H; subst p w'. clear H.
  exists result, worst, rest, suffix. simpl.
  split; [reflexivity|]. split; [exact Hrest|]. split; [exact Hworst|].
  split; [reflexivity|]. split; [reflexivity|]. split; [reflexivity|].
  split; [exact Hs|exact Hlen].
Qed.

End PageProperties.

Lemma page_alert_matches_context_witness :
  exists result worst rest reply,
    Loader.load_aqi_datasets Examples.city_day Examples.station_day Examples.stations_csv
    = Some result /\
    Loader.city_context result = worst :: rest /\
    worst_of (Loader.latest_city_df result) worst /\
    forall p w',
      Chat.main (fun _ => "") (fun _ => "")
                Examples.city_day Examples.station_day Examples.stations_csv
                (Some []) (Some "hi") (Examples.world None Examples.flaky None) = (Some p, w') ->
      Chat.history p = [Chat.mk_message "user" "hi"; Chat.mk_message "assistant" reply].
Proof.
  destruct (Chat.main (fun _ => "") (fun _ => "")
              Examples.city_day Examples.station_day Examples.stations_csv
              (Some []) (Some "hi") (Examples.world None Examples.flaky None))
    as [[p|] w'] eqn:E; [|vm_compute in E; discriminate].
  destruct (page_alert_matches_context _ _ _ _ _ _ _ _ E)
    as (result & worst & rest & suffix & H1 & H2 & H3 & _ & _ & _ & Hh & Hs).
  destruct Hs as [[[Hn|Hn] _]|(text & reply & Ht & _ & Hsuffix)]; try discriminate.
  inversion Ht; subst text. subst suffix.
  exists result, worst, rest, reply.
  split; [exact H1|]. split; [exact H2|]. split; [exact H3|].
  intros p0 w0 H0. inversion H0; subst. exact Hh.
Defined.

Section EmptyTable.
Import Loader.

Local Abbreviation latest_city_of := (latest_of CityDay.City CityDay.Date).

Lemma load_aqi_datasets_no_AQI (city_day : list CityDay.row)
      (station_day : list StationDay.row) (stations_csv : list Stations.row) :
  (forall k i r, latest_city_of city_day k i r -> isna (CityDay.AQI r) = true) ->
  load_aqi_datasets city_day station_day stations_csv = None.
Proof.
  intros Hall. unfold load_aqi_datasets.
  destruct (latest_city_data (read_csv city_day)) as [lc|] eqn:Ec; [|reflexivity].
  destruct (latest_station_data (read_csv station_day) (read_csv stations_csv));
    [|reflexivity].
  assert (Hnil : lc = []).
  { destruct lc as [|[i r'] lc']; [reflexivity|exfalso].
    assert (Hin : In (i, r') ((i, r') :: lc')) by now left.
    apply (@latest_city_data_In city_day _ i r' Ec) in Hin.
    destruct Hin as (k & r & Hk & Hna & _).
    rewrite (Hall k i r Hk) in Hna. discriminate. }
  subst lc. reflexivity.
Qed.

(** X12: when no city's latest row carries an AQI (in particular on an
    empty city table) the load fails although every file was read, and
    the run of the application renders nothing: no alert, no history, no
    request, no log row. *)
Theorem no_AQI_renders_nothing
        (to_markdown_city : list LatestCity.row -> string)
        (to_markdown_station : list LatestStation.row -> string)
        (city_day : list CityDay.row) (station_day : list StationDay.row)
        (stations_csv : list Stations.row) (session : option (list Chat.message))
        (chat_input : option string) (w : World) :
  (forall k i r, latest_city_of city_day k i r -> isna (CityDay.AQI r) = true) ->
  load_aqi_datasets city_day station_day stations_csv = None /\
  Chat.main to_markdown_city to_markdown_station
            city_day station_day stations_csv session chat_input w = (None, w).
Proof.
  intros Hall.
  pose proof (@load_aqi_datasets_no_AQI city_day station_day stations_csv Hall) as H.
  split; [exact H|]. unfold Chat.main. now rewrite H.
Qed.

Lemma no_AQI_renders_nothing_witness :
  Chat.main (fun _ => "") (fun _ => "") [] Examples.station_day Examples.stations_csv
            None (Some "hi") (Examples.world (Some "key") Examples.flaky None)
  = (None, Examples.world (Some "key") Examples.flaky None).
Proof.
  assert (Hall : forall k i r,
             latest_of CityDay.City CityDay.Date [] k i r -> isna (CityDay.AQI r) = true).
  { intros k i r (Hn & _). destruct i; discriminate. }
  exact (proj2 (no_AQI_renders_nothing (fun _ => "") (fun _ => "")
                  Examples.station_day Examples.stations_csv None (Some "hi")
                  (Examples.world (Some "key") Examples.flaky None) Hall)).
Defined.

End EmptyTable.

Section SamplerSize.
Import Loader.

(** X13: on a non-empty latest table and for every size [cap >= 1] the
    city context has exactly min(cap, number of cities) rows; a table of
    at most [cap] cities is passed whole, reordered worst first and then
    by name. *)
Theorem context_cities_df_size (cap : nat) (t : Frame LatestCity.row) :
  1 <= cap -> LatestTable t -> t <> [] ->
  exists c,
    context_cities_df cap t = Some c /\
    List.length c = Nat.min cap (List.length t) /\
    (List.length t <= cap -> Permutation c (rows t)).
Proof.
  intros Hcap HL Hne.
  destruct (worst_city_row_spec Hne (unique_index HL)) as (i & w & Hw & Hin & _).
  pose proof (context_cities_df_eq cap HL Hw) as Heq.
  pose proof (@others_perm t i w HL Hin) as Hperm.
  set (others := filter (fun x => ne_name (LatestCity.City (snd x)) (LatestCity.City w)) t)
    in *.
  assert (Hlen : List.length t = S (List.length others)).
  { apply Permutation_length in Hperm. exact Hperm. }
  exists (w :: rows (sample_cities cap t w)). split; [exact Heq|].
  assert (Hs : List.length (sample_cities cap t w)
               = Nat.min (cap - 1) (List.length others)).
  { unfold sample_cities, head. fold others.
    rewrite length_firstn, sort_values_length. reflexivity. }
  split.
  - simpl. unfold rows. rewrite length_map, Hs, Hlen. lia.
  - intros Hfit.
    assert (Hall : sample_cities cap t w = sort_values LatestCity.City others).
    { unfold sample_cities, head. fold others. apply firstn_all2.
      rewrite sort_values_length. lia. }
    rewrite Hall. unfold rows.
    change (w :: map snd (sort_values LatestCity.City others))
      with (map snd ((i, w) :: sort_values LatestCity.City others)).
    apply Permutation_map. rewrite Hperm. constructor. apply sort_values_perm.
Qed.

Lemma context_cities_df_size_witness :
  exists c,
    context_cities_df 2 Examples.cities_ABC = Some c /\ List.length c = 2.
Proof.
  assert (Hcap : 1 <= 2) by lia.
  assert (Hne : Examples.cities_ABC <> []) by discriminate.
  destruct (context_cities_df_size Hcap LatestTable_cities_ABC Hne) as (c & H1 & H2 & _).
  exists c. split; [exact H1|exact H2].
Defined.

End SamplerSize.

Section MergeProperties.
Import Loader.

(** The rows one station row turns into. *)
Lemma merge_row_In (stations : Frame Stations.row) (r : StationDay.row) (m : merged) :
  In m (merge_row stations r) ->
  day m = r /\
  ((exists meta, In meta (rows stations) /\
                 Stations.StationId meta = StationDay.StationId r /\
                 StationName m = Stations.StationName meta /\
                 City m = Stations.City meta) \/
   ((forall meta, In meta (rows stations) ->
                  Stations.StationId meta <> StationDay.StationId r) /\
    StationName m = None /\ City m = None)).
Proof.
  unfold merge_row.
  destruct (filter (fun m0 => eq_name (Stations.StationId (snd m0)) (StationDay.StationId r))
                   stations) as [|y ys] eqn:F.
  - intros [<-|[]]. simpl. split; [reflexivity|]. right. split; [|auto].
    intros meta Hmeta Heq. unfold rows in Hmeta. apply in_map_iff in Hmeta.
    destruct Hmeta as (x & <- & Hx).
    assert (Hin : In x (filter (fun m0 => eq_name (Stations.StationId (snd m0))
                                                 (StationDay.StationId r)) stations)).
    { apply filter_In. split; [exact Hx|]. now apply eq_name_true. }
    rewrite F in Hin. contradiction.
  - intros Hin. apply in_map_iff in Hin. destruct Hin as (x & <- & Hx). simpl.
    split; [reflexivity|]. left. rewrite <- F in Hx. apply filter_In in Hx.
    destruct Hx as [Hx Heq]. apply eq_name_true in Heq.
    exists (snd x). split; [unfold rows; now apply in_map|auto].
Qed.

Lemma merge_row_day (stations : Frame Stations.row) (r : StationDay.row) :
  exists m, In m (merge_row stations r) /\ day m = r.
Proof.
  unfold merge_row. destruct (filter _ stations) as [|y ys]; simpl.
  - eexists. split; [left; reflexivity|reflexivity].
  - eexists. split; [left; reflexivity|reflexivity].
Qed.

Lemma merge_row_unmatched (stations : Frame Stations.row) (r : StationDay.row) :
  (forall meta, In meta (rows stations) ->
                Stations.StationId meta <> StationDay.StationId r) ->
  merge_row stations r = [mk_merged r None None].
Proof.
  intros Hno. unfold merge_row.
  destruct (filter (fun m0 => eq_name (Stations.StationId (snd m0)) (StationDay.StationId r))
                   stations) as [|y ys] eqn:F; [reflexivity|exfalso].
  assert (Hy : In y (filter (fun m0 => eq_name (Stations.StationId (snd m0))
                                               (StationDay.StationId r)) stations))
    by (rewrite F; now left).
  apply filter_In in Hy. destruct Hy as [Hy Heq]. apply eq_name_true in Heq.
  apply (Hno (snd y)); [unfold rows; now apply in_map|exact Heq].
Qed.

(** X14: the left join with the station metadata loses no station row
    and invents none: every selected row appears in the merged frame,
    every merged row comes from a selected row and carries either the
    name and city of a metadata row with the same station id, or missing
    values when no metadata row has that id; with no station id repeated
    in the metadata the merged frame has exactly the selected rows, in
    order. *)
Theorem merge_left_keeps_stations (df : Frame StationDay.row)
        (stations : Frame Stations.row) :
  (forall r, In r (rows df) ->
             exists m, In m (rows (merge_left df stations)) /\ day m = r) /\
  (forall m, In m (rows (merge_left df stations)) ->
     In (day m) (rows df) /\
     ((exists meta, In meta (rows stations) /\
                    Stations.StationId meta = StationDay.StationId (day m) /\
                    StationName m = Stations.StationName meta /\
                    City m = Stations.City meta) \/
      ((forall meta, In meta (rows stations) ->
                     Stations.StationId meta <> StationDay.StationId (day m)) /\
       StationName m = None /\ City m = None))) /\
  List.length df <= List.length (merge_left df stations) /\
  (NoDup (map (fun x => Stations.StationId (snd x)) stations) ->
   map day (rows (merge_left df stations)) = rows df).
Proof.
  rewrite merge_left_rows. split; [|split; [|split]].
  - intros r Hr. destruct (merge_row_day stations r) as (m & Hm & Hd).
    exists m. split; [|exact Hd]. apply in_flat_map. exists r. auto.
  - intros m Hm. apply in_flat_map in Hm. destruct Hm as (r & Hr & Hm).
    apply merge_row_In in Hm. destruct Hm as [Hd Hcase]. rewrite Hd. auto.
  - assert (H : List.length (rows (merge_left df stations)) =
                List.length (merge_left df stations))
      by (unfold rows; apply length_map).
    rewrite <- H, merge_left_rows.
    assert (H' : List.length (rows df) = List.length df)
      by (unfold rows; apply length_map).
    rewrite <- H'. clear H H'.
    induction (rows df) as [|r l IH]; simpl; [lia|].
    rewrite length_app. destruct (merge_row_length stations r) as [H1 _]. lia.
  - intros Hnd. induction (rows df) as [|r l IH]; simpl; [reflexivity|].
    rewrite map_app, IH. destruct (merge_row_length stations r) as [_ H1].
    specialize (H1 Hnd).
    destruct (merge_row stations r) as [|m [|m' ms]] eqn:E; simpl in H1; try discriminate.
    assert (Hm : In m (merge_row stations r)) by (rewrite E; now left).
    apply merge_row_In in Hm. destruct Hm as [Hd _]. simpl. now rewrite Hd.
Qed.

(** X15: a station whose latest row carries an AQI but whose id is in
    no metadata row stays in the station table without a name, so the
    list of station names handed to the prompt contains a missing
    name. *)
Theorem unmatched_station_missing_name (city_day : list CityDay.row)
        (station_day : list StationDay.row) (stations_csv : list Stations.row)
        (result : loaded) (k : string) (i : nat) (r : StationDay.row) :
  load_aqi_datasets city_day station_day stations_csv = Some result ->
  latest_of StationDay.StationId StationDay.Date station_day k i r ->
  isna (StationDay.AQI r) = false ->
  (forall meta, In meta stations_csv -> Stations.StationId meta <> Some k) ->
  In None (stations result) /\
  exists row, In row (rows (latest_station_df result)) /\
              LatestStation.StationName row = None /\ LatestStation.City row = None /\
              LatestStation.AQI row = to_numeric_fillna (StationDay.AQI r).
Proof.
  intros H Hk Hna Hno.
  destruct (@load_aqi_datasets_parts _ _ _ _ H) as (_ & Es & _ & _ & _ & Hst).
  rewrite latest_station_data_kept in Es. unfold latest_station_rows in Es.
  destruct (latest_rows StationDay.StationId StationDay.Date (read_csv station_day))
    as [out|] eqn:Eo; [|discriminate].
  simpl in Es. apply Some_inj in Es.
  assert (Hin : In (i, r) out) by (apply (latest_rows_In _ _ _ i r Eo); now exists k).
  assert (Hkey : StationDay.StationId r = Some k) by now destruct Hk as (_ & Hkey & _).
  assert (Hm : In (mk_merged r None None)
                  (rows (merge_left out (read_csv stations_csv)))).
  { rewrite merge_left_rows. apply in_flat_map. exists r. split.
    - unfold rows. apply in_map_iff. now exists (i, r).
    - rewrite merge_row_unmatched; [now left|].
      intros meta Hmeta. rewrite read_csv_rows in Hmeta. rewrite Hkey. now apply Hno. }
  unfold rows in Hm. apply in_map_iff in Hm. destruct Hm as ([j m] & Hjm & Hm).
  simpl in Hjm. subst m.
  assert (Hrow : In (j, coerce_station (mk_merged r None None)) (latest_station_df result)).
  { rewrite <- Es. apply kept_In. exists (mk_merged r None None). auto. }
  split.
  - rewrite Hst. apply unique_In. apply in_map_iff.
    exists (j, coerce_station (mk_merged r None None)). split; [reflexivity|exact Hrow].
  - exists (coerce_station (mk_merged r None None)). split.
    + unfold rows. apply in_map_iff. eexists. split; [|exact Hrow]. reflexivity.
    + repeat split.
Qed.

Lemma unmatched_station_missing_name_witness :
  exists result,
    load_aqi_datasets Examples.city_day Examples.station_day [] = Some result /\
    In None (stations result).
Proof.
  destruct (load_aqi_datasets Examples.city_day Examples.station_day [])
    as [result|] eqn:E; [|vm_compute in E; discriminate].
  exists result. split; [reflexivity|].
  assert (Hk : latest_of StationDay.StationId StationDay.Date Examples.station_day
                         "S1" 0 (Examples.station "S1" Examples.Jan02 (Num 10))).
  { split; [reflexivity|]. split; [reflexivity|]. exists Examples.Jan02.
    split; [reflexivity|]. intros j r' d' Hn Hkey Hd.
    destruct j as [|[|[|j]]]; simpl in Hn.
    - inversion Hn; subst r'. simpl in Hd. inversion Hd; subst.
      split; [apply Z.le_refl|intros _; apply Nat.le_refl].
    - inversion Hn; subst r'. simpl in Hkey. discriminate.
    - inversion Hn; subst r'. simpl in Hkey. discriminate.
    - destruct j; discriminate. }
  assert (Hno : forall meta : Stations.row, In meta [] -> Stations.StationId meta <> Some "S1")
    by (intros meta []).
  exact (proj1 (@unmatched_station_missing_name _ _ _ _ _ _ _ E Hk eq_refl Hno)).
Defined.

End MergeProperties.
(* ================================================================== *)
(** * Further properties of the batch script *)

Section BatchProperties.
Import Batch.

Lemma iteration_effects (total i : nat) (query : string) (w : World) :
  let w' := world_of (iteration total i query w) in
  requests w' = requests w ++ [batch_request query] /\
  QUERIES_FILE w' = QUERIES_FILE w /\
  stdout w' =
    stdout w
    ++ (if Nat.eqb ((i + 1) mod 50) 0 then [processed (i + 1) total] else [])
    ++ match endpoint w (List.length (requests w)) with
       | Groq.Raises e => [error_for_query query ("API_ERROR: " ++ e)%string]
       | Groq.Returns _ => []
       end.
Proof.
  cbv zeta. unfold iteration, get_groq_response_and_time, create, batch_request.
  destruct (Nat.eqb ((i + 1) mod 50) 0); simpl;
    destruct (endpoint w (List.length (requests w))) as [e|c]; simpl;
    try (destruct (Groq.usage c) as [u|]; simpl;
         [destruct (Groq.total_time u); simpl|]);
    repeat split; rewrite ?app_nil_r; try reflexivity;
    rewrite <- app_assoc; reflexivity.
Qed.

Lemma loop_requests (total : nat) (queries : list string) :
  forall (i0 : nat) (w : World),
    let w' := world_of (loop total i0 queries w) in
    let made := calls_made w (List.length (requests w)) (List.length queries) in
    let written := rows_written w (List.length (requests w)) (List.length queries) in
    requests w' = requests w ++ map batch_request (firstn made queries) /\
    map User_Query (OUTPUT_LOG_FILE w') =
      map User_Query (OUTPUT_LOG_FILE w) ++ firstn written queries /\
    map Query_ID (OUTPUT_LOG_FILE w') =
      map Query_ID (OUTPUT_LOG_FILE w) ++ seq (i0 + 1) written.
Proof.
  induction queries as [|q queries IH]; intros i0 w; cbv zeta.
  - unfold calls_made, rows_written. simpl. rewrite !app_nil_r. auto.
  - rewrite loop_cons. simpl List.length.
    destruct (iteration_effects total i0 q w) as (Hr1 & _).
    destruct (iteration_spec total i0 q w) as (He & _ & Hlen & _ & Hout).
    destruct (null_total_time (endpoint w (List.length (requests w)))) eqn:E.
    + destruct (calls_made_stop w (List.length (requests w)) (List.length queries) E)
        as [-> ->].
      simpl world_of. rewrite Hr1, Hout. simpl. rewrite !app_nil_r. auto.
    + destruct (calls_made_step w (List.length (requests w)) (List.length queries) E)
        as [-> ->].
      destruct Hout as (res & Hout & Hid1 & Hq1 & _).
      destruct (IH (S i0) (world_of (iteration total i0 q w))) as (Hr & Hq & Hid).
      destruct (@calls_made_ext w (world_of (iteration total i0 q w))
                  (S (List.length (requests w))) (List.length queries) He) as [Hm Hw].
      rewrite Hlen, Hm in Hr. rewrite Hlen, Hw in Hq, Hid.
      rewrite Hr, Hq, Hid, Hr1, Hout, !map_app. simpl. rewrite Hid1, Hq1.
      rewrite <- !app_assoc. simpl.
      replace (S i0 + 1) with (S (i0 + 1)) by lia. auto.
Qed.

(** X16: a batch run over a non-empty query list sends its requests one
    per query, in order and without any retry, each carrying the model
    name, temperature 0.3 and the query, and it rewrites the results
    file: whatever it held before, it holds rows in the order of the
    queries, numbered from 1.  When no completion holds [None] as its
    [total_time] there is exactly one request and one row per query and
    [main] returns.  Otherwise the run ends with a [TypeError] at the
    first such completion, having sent the requests up to and including
    that query and written the rows of the queries before it. *)
Theorem batch_run_requests (w : World) (q : string) (queries : list string) :
  QUERIES_FILE w = Some (q :: queries) ->
  let n := List.length (q :: queries) in
  let made := calls_made w (List.length (requests w)) n in
  let written := rows_written w (List.length (requests w)) n in
  requests (snd (main w)) = requests w ++ map batch_request (firstn made (q :: queries)) /\
  map User_Query (OUTPUT_LOG_FILE (snd (main w))) = firstn written (q :: queries) /\
  map Query_ID (OUTPUT_LOG_FILE (snd (main w))) = seq 1 written /\
  ((forall j, j < n ->
              null_total_time (endpoint w (List.length (requests w) + j)) = false) ->
   made = n /\ written = n /\ fst (main w) = returned) /\
  (forall j, j < n ->
     null_total_time (endpoint w (List.length (requests w) + j)) = true ->
     (forall i, i < j ->
                null_total_time (endpoint w (List.length (requests w) + i)) = false) ->
     made = S j /\ written = j /\ fst (main w) = uncaught NONE_GE_INT).
Proof.
  intros Hq. cbv zeta.
  destruct (main_spec w Hq) as (Hlog & Hreq & _).
  destruct (main_run w Hq) as (Hend & _).
  set (n := List.length (q :: queries)) in *.
  set (w2 := set_output_log (print (starting_test n) w) []) in *.
  destruct (loop_requests n (q :: queries) 0 w2) as (Hr & Hu & Hid).
  fold n in Hr, Hu, Hid.
  destruct (@calls_made_ext w w2 (List.length (requests w)) n eq_refl) as [Hm Hw].
  change (List.length (requests w2)) with (List.length (requests w)) in Hr, Hu, Hid.
  rewrite Hm in Hr. rewrite Hw in Hu, Hid.
  rewrite Hlog, Hreq.
  split; [exact Hr|]. split; [exact Hu|]. split; [exact Hid|].
  unfold calls_made, rows_written. split.
  - intros Hnn.
    pose proof (proj2 (first_null_total_time_None w n (List.length (requests w))) Hnn)
      as F.
    rewrite F in *. auto.
  - intros j Hj Hnull Hbefore.
    pose proof (@first_null_total_time_first w n (List.length (requests w)) j
                  Hj Hnull Hbefore) as F.
    rewrite F in *. auto.
Qed.

Lemma batch_run_requests_witness :
  map User_Query
      (OUTPUT_LOG_FILE (snd (main (Examples.world (Some "key") Examples.flaky
                                                  (Some ["q1"; "q2"; "q3"]))))) =
    ["q1"; "q2"; "q3"] /\
  requests (snd (main (Examples.world (Some "key") Examples.unreported
                                      (Some ["q1"; "q2"; "q3"])))) =
    [batch_request "q1"; batch_request "q2"].
Proof.
  split.
  - exact (proj1 (proj2 (batch_run_requests
                           (Examples.world (Some "key") Examples.flaky
                                           (Some ["q1"; "q2"; "q3"]))
                           (q := "q1") (queries := ["q2"; "q3"]) eq_refl))).
  - exact (proj1 (batch_run_requests
                    (Examples.world (Some "key") Examples.unreported
                                    (Some ["q1"; "q2"; "q3"]))
                    (q := "q1") (queries := ["q2"; "q3"]) eq_refl)).
Defined.

(** X17: in the results of a run the Status column and the statistics
    agree: the rows counted as successful are exactly the rows marked
    SUCCESS; a row is SUCCESS only if its call returned, and then it
    holds the reply; a call that raised is always marked FAILURE. *)
Theorem status_column_consistent (w : World) (q : string) (queries : list string) :
  QUERIES_FILE w = Some (q :: queries) ->
  successful_runs (OUTPUT_LOG_FILE (snd (main w))) =
    filter (fun r => String.eqb (Status r) "SUCCESS") (OUTPUT_LOG_FILE (snd (main w))) /\
  (forall j res, nth_error (OUTPUT_LOG_FILE (snd (main w))) j = Some res ->
     (Status res = "SUCCESS" ->
      exists c, endpoint w (List.length (requests w) + j) = Groq.Returns c /\
                Groq_Response_Content res = Groq.content c) /\
     (forall e, endpoint w (List.length (requests w) + j) = Groq.Raises e ->
                Status res = "FAILURE" /\
                Total_Response_Time_Seconds res = (-1)%Q)).
Proof.
  intros Hq.
  assert (Hrow : forall j res, nth_error (OUTPUT_LOG_FILE (snd (main w))) j = Some res ->
                   exists query, recorded w (List.length (requests w) + j) (j + 1) query res).
  { intros j res Hj. destruct (main_log w Hq j Hj) as (query & _ & Hrec).
    now exists query. }
  split.
  - unfold successful_runs. apply filter_ext_in. intros r Hin.
    apply In_nth_error in Hin. destruct Hin as (j & Hj).
    destruct (Hrow j r Hj) as (query & _ & _ & Hiff & Hcases & _).
    destruct (ge_num (Total_Response_Time_Seconds r) 0) eqn:G.
    + apply ge_num_spec in G. apply Hiff in G. rewrite G. reflexivity.
    + apply ge_num_false in G. destruct Hcases as [Hs|Hf].
      * apply Hiff in Hs. exfalso. eapply Qlt_not_le; eassumption.
      * rewrite Hf. reflexivity.
  - intros j res Hj. destruct (Hrow j res Hj) as (query & _ & _ & Hiff & _ & Hcase).
    destruct (endpoint w (List.length (requests w) + j)) as [e|c].
    + destruct Hcase as (_ & Htrt & Hst). split.
      * intros Hs. rewrite Hst in Hs. discriminate.
      * intros e' _. auto.
    + split.
      * intros _. exists c. split; [reflexivity|]. now destruct Hcase.
      * intros e H. discriminate.
Qed.

Lemma status_column_consistent_witness :
  successful_runs
    (OUTPUT_LOG_FILE (snd (main (Examples.world (Some "key") Examples.flaky
                                                (Some ["q1"; "q2"; "q3"]))))) =
  filter (fun r => String.eqb (Status r) "SUCCESS")
    (OUTPUT_LOG_FILE (snd (main (Examples.world (Some "key") Examples.flaky
                                                (Some ["q1"; "q2"; "q3"]))))).
Proof.
  exact (proj1 (status_column_consistent
                  (Examples.world (Some "key") Examples.flaky (Some ["q1"; "q2"; "q3"]))
                  (q := "q1") (queries := ["q2"; "q3"]) eq_refl)).
Defined.

End BatchProperties.

Section ConsoleProperties.
Import Batch.







End ConsoleProperties.

Section BannerProperties.
Import Alert.

(** X19: the alert is shown as an error exactly from AQI 301 upwards,
    as a warning exactly between 201 and 301, as an information exactly
    between 101 and 201, and as a success exactly below 101. *)
Theorem banner_levels (aqi : Q) :
  (banner (classify aqi) = st_error <-> (301 <= aqi)%Q) /\
  (banner (classify aqi) = st_warning <-> (201 <= aqi /\ aqi < 301)%Q) /\
  (banner (classify aqi) = st_info <-> (101 <= aqi /\ aqi < 201)%Q) /\
  (banner (classify aqi) = st_success <-> (aqi < 101)%Q).
Proof.
  assert (He : banner (classify aqi) = st_error <->
               classify aqi = SEVERE \/ classify aqi = VERY_POOR).
  { destruct (classify aqi); simpl; split; intros H; auto; try discriminate;
      destruct H; discriminate. }
  assert (Hw : banner (classify aqi) = st_warning <-> classify aqi = POOR).
  { destruct (classify aqi); simpl; split; intros H; auto; discriminate. }
  assert (Hi : banner (classify aqi) = st_info <-> classify aqi = MODERATE).
  { destruct (classify aqi); simpl; split; intros H; auto; discriminate. }
  assert (Hs : banner (classify aqi) = st_success <-> classify aqi = GOOD).
  { destruct (classify aqi); simpl; split; intros H; auto; discriminate. }
  rewrite He, Hw, Hi, Hs.
  rewrite classify_SEVERE, classify_VERY_POOR, classify_POOR, classify_MODERATE,
    classify_GOOD.
  split; [|tauto]. split.
  - intros [H|[H _]]; lra.
  - intros H. destruct (Qlt_le_dec aqi 401) as [Hlt|Hge]; [right; split; assumption|now left].
Qed.

End BannerProperties.

Section DatedRows.
Import Loader.

(** X20: after a successful load every row of the latest city table and
    of the latest station table has a parseable date, so formatting the
    date of the worst city cannot meet a missing date. *)
Theorem latest_tables_dated (city_day : list CityDay.row)
        (station_day : list StationDay.row) (stations_csv : list Stations.row)
        (result : loaded) :
  load_aqi_datasets city_day station_day stations_csv = Some result ->
  (forall row, In row (rows (latest_city_df result)) -> LatestCity.Date row <> None) /\
  (forall row, In row (rows (latest_station_df result)) -> LatestStation.Date row <> None).
Proof.
  intros H. destruct (@load_aqi_datasets_parts _ _ _ _ H) as (Ec & Es & _).
  split.
  - intros row Hrow. unfold rows in Hrow. apply in_map_iff in Hrow.
    destruct Hrow as ([i r'] & <- & Hin).
    apply (@latest_city_data_In city_day _ i r' Ec) in Hin.
    destruct Hin as (k & r & (_ & _ & d & Hd & _) & _ & ->).
    simpl. rewrite Hd. discriminate.
  - rewrite latest_station_data_kept in Es. unfold latest_station_rows in Es.
    destruct (latest_rows StationDay.StationId StationDay.Date (read_csv station_day))
      as [out|] eqn:Eo; [|discriminate].
    simpl in Es. apply Some_inj in Es.
    intros row Hrow. unfold rows in Hrow. apply in_map_iff in Hrow.
    destruct Hrow as ([j r'] & <- & Hin). rewrite <- Es in Hin.
    apply kept_In in Hin. destruct Hin as (m & Hm & _ & ->).
    assert (Hrows : In m (rows (merge_left out (read_csv stations_csv)))).
    { unfold rows. apply in_map_iff. now exists (j, m). }
    rewrite merge_left_rows in Hrows. apply in_flat_map in Hrows.
    destruct Hrows as (r & Hr & Hmr). apply merge_row_In in Hmr.
    destruct Hmr as [Hday _].
    unfold rows in Hr. apply in_map_iff in Hr. destruct Hr as ([i r0] & Hi & Hin).
    simpl in Hi. subst r0.
    apply (latest_rows_In _ _ _ i r Eo) in Hin.
    destruct Hin as (k & _ & _ & d & Hd & _).
    simpl. rewrite Hday, Hd. discriminate.
Qed.

Lemma latest_tables_dated_witness :
  exists result,
    load_aqi_datasets Examples.city_day Examples.station_day Examples.stations_csv
    = Some result /\
    forall row, In row (rows (latest_city_df result)) -> LatestCity.Date row <> None.
Proof.
  destruct (load_aqi_datasets Examples.city_day Examples.station_day
                              Examples.stations_csv) as [result|] eqn:E;
    [|vm_compute in E; discriminate].
  exists result. split; [reflexivity|].
  exact (proj1 (latest_tables_dated _ _ _ E)).
Defined.

End DatedRows.
